(** * FrontlinerISAwareness: a model of [script.js]

    The script drives a three-slide deck: a scene selector that reads the
    URL query string, a lock-screen exercise (scene 1) and a five-question
    flip-card quiz with a scoreboard and a confetti effect (scene 2).

    The browser is modelled by explicit state: the parts of the DOM the
    script reads or writes are record fields, element lookups that may
    return [null] are presence flags of the page, a property access on
    [null] is the [Throw] outcome of a small state-and-exception monad,
    timers and animation callbacks are pending entries fired by events,
    [Math.random] is a tape of draws, and the arithmetic on numbers rounds
    as IEEE 754 binary64 does. *)

From stdpp Require Import base list strings.
From Stdlib Require Import Ascii QArith Qround Qpower Lia Lqa DecimalString.

Close Scope Q_scope.
Local Open Scope string_scope.
Local Open Scope nat_scope.
Local Open Scope list_scope.

(** ** JavaScript helpers *)

Module Js.

(** [String.prototype.toLowerCase] on one code unit.  [location.search] is
    a serialised URL component, hence ASCII: only [A]..[Z] change. *)
Definition lower_ascii (c : ascii) : ascii :=
  let n := nat_of_ascii c in
  if (65 <=? n)%nat && (n <=? 90)%nat then ascii_of_nat (n + 32) else c.

Fixpoint toLowerCase (s : string) : string :=
  match s with
  | EmptyString => EmptyString
  | String c s' => String (lower_ascii c) (toLowerCase s')
  end.

(** [String.prototype.includes]: does [pat] occur in [s] as a substring? *)
Fixpoint includes (s pat : string) : bool :=
  String.prefix pat s ||
  match s with
  | EmptyString => false
  | String _ s' => includes s' pat
  end.

(** Template-literal rendering of a non-negative integer. *)
Definition show_nat (n : nat) : string :=
  NilEmpty.string_of_uint (Nat.to_uint n).

(** [String(b)] for a boolean, as stored by [dataset]. *)
Definition show_bool (b : bool) : string := if b then "true" else "false".

(** [DOMTokenList]: an ordered set of class names. *)
Abbreviation classList := (list string).

Definition contains (cl : classList) (c : string) : bool := bool_decide (c ∈ cl).

Definition add (c : string) (cl : classList) : classList :=
  if contains cl c then cl else cl ++ [c].

Definition remove (c : string) (cl : classList) : classList :=
  filter (λ x, x ≠ c) cl.

(** What the spec calls case-insensitive containment: some substring of
    [s] equals [pat] once lower-cased. *)
Definition contains_ci (s pat : string) : Prop :=
  ∃ pre mid post, s = pre +:+ mid +:+ post ∧ toLowerCase mid = pat.

End Js.

(** ** Numbers

    A JavaScript number is an IEEE 754 binary64 value.  The finite ones
    are rationals, and [+], [-] and [*] return the exact result rounded
    to the nearest representable value, ties going to the even
    significand.  The numbers of the script stay far below [2 ^ 1024], so
    the overflow to [Infinity] is left out; the two zeros are one. *)

Module Float64.
Local Open Scope Q_scope.

Definition pow2 (e : Z) : Q := 2 ^ e.

(** [floor (log2 x)] for [0 < x]. *)
Definition ilog2 (x : Q) : Z :=
  let c := (Z.log2 (Qnum x) - Z.log2 (Z.pos (Qden x)))%Z in
  if Qle_bool (pow2 c) x then c else (c - 1)%Z.

(** The integer nearest to [q], the even one of the two when [q] lies
    half-way. *)
Definition nearest_even (q : Q) : Z :=
  let f := Qfloor q in
  match Qcompare (q - inject_Z f) (1 # 2) with
  | Lt => f
  | Gt => (f + 1)%Z
  | Eq => if Z.even f then f else (f + 1)%Z
  end.

(** Rounding of [0 < x]: a significand of 53 bits, and the spacing
    [2 ^ -1074] of the subnormal numbers below [2 ^ -1022]. *)
Definition round_pos (x : Q) : Q :=
  let e := Z.max (ilog2 x) (-1022) in
  let ulp := pow2 (e - 52) in
  inject_Z (nearest_even (x / ulp)) * ulp.

Definition round64 (x : Q) : Q :=
  match Qcompare x 0 with
  | Eq => 0
  | Gt => round_pos x
  | Lt => - round_pos (- x)
  end.

Definition fadd (x y : Q) : Q := round64 (x + y).
Definition fsub (x y : Q) : Q := round64 (x - y).
Definition fmul (x y : Q) : Q := round64 (x * y).

End Float64.

(** ** Scene selector *)

Module SceneSelector.
Import Js.

(** An element of the document, as far as the selector looks at it: its
    [id], whether it carries the class [scene] and its inline
    [style.display]. *)
Record element := Element {
  el_id : string;
  el_scene : bool;
  el_display : string
}.

(** The document in tree order. *)
Abbreviation document := (list element).

Definition set_display (v : string) (e : element) : element :=
  {| el_id := el_id e; el_scene := el_scene e; el_display := v |}.

(** [document.getElementById]: the first element with that id. *)
Definition getElementById (doc : document) (id : string) : option (nat * element) :=
  list_find (λ e, el_id e = id) doc.

(** The id chosen from [window.location.search]. *)
Definition sceneId (search0 : string) : string :=
  let search := toLowerCase search0 in
  if includes search "scene2" then "scene2"
  else if includes search "scene3" then "scene3"
  else if includes search "scene1" then "scene1"
  else "scene1".

(** [document.querySelectorAll('.scene').forEach(s => s.style.display = 'none')] *)
Definition hide_scenes (doc : document) : document :=
  (λ e, if el_scene e then set_display "none" e else e) <$> doc.

Definition setActiveScene (search0 : string) (doc : document) : document :=
  let id := sceneId search0 in
  let doc := hide_scenes doc in
  match getElementById doc id with
  | Some (i, _) => alter (set_display "block") i doc
  | None => doc
  end.

(** A slide container is visible unless its inline display is [none]. *)
Definition visible (e : element) : bool :=
  el_scene e && negb (String.eqb (el_display e) "none").

Definition visible_slides (doc : document) : list element :=
  filter (λ e, visible e = true) doc.

End SceneSelector.

(** ** Handlers as state transformers that may throw *)

Module Eff.

(** The outcome of running a piece of script on a state: it returns, or a
    [TypeError] is thrown (a property of [null] or [undefined] was read or
    written).  The writes made before the throw stay. *)
Inductive Res (S A : Type) : Type :=
  | Ok (a : A) (s : S)
  | Throw (s : S).
Arguments Ok {S A} a s.
Arguments Throw {S A} s.

Definition M (S A : Type) : Type := S → Res S A.

Definition ret {S A} (a : A) : M S A := λ s, Ok a s.

Definition bind {S A B} (m : M S A) (k : A → M S B) : M S B :=
  λ s, match m s with
       | Ok a s' => k a s'
       | Throw s' => Throw s'
       end.

Definition throw {S A} : M S A := λ s, Throw s.
Definition gets {S A} (f : S → A) : M S A := λ s, Ok (f s) s.
Definition modify {S} (f : S → S) : M S unit := λ s, Ok tt (f s).

(** [if (el) { body }] *)
Definition when {S} (el : bool) (body : M S unit) : M S unit :=
  if el then body else ret tt.

(** Using an element that may be [null]: [el.prop] throws when it is. *)
Definition deref {S} (el : bool) : M S unit :=
  if el then ret tt else throw.

(** Reading through a value that may be [undefined]. *)
Definition defined {S A} (v : option A) : M S A :=
  match v with Some a => ret a | None => throw end.

(** The state a handler leaves behind, whatever its outcome. *)
Definition final {S A} (r : Res S A) : S :=
  match r with Ok _ s => s | Throw s => s end.

Definition returns {S A} (r : Res S A) : bool :=
  match r with Ok _ _ => true | Throw _ => false end.

Declare Scope eff_scope.
Delimit Scope eff_scope with eff.
Notation "x <- m ;; k" := (bind m (λ x, k))
  (at level 100, m at next level, k at level 200, right associativity) : eff_scope.
Notation "m ;; k" := (bind m (λ _, k))
  (at level 100, k at level 200, right associativity) : eff_scope.

End Eff.

(** ** Scene 1: the lock-screen exercise *)

Module LockScreen.
Import Js Eff.
Local Open Scope eff_scope.
Local Open Scope Q_scope.

(** Which of the elements looked up under [#scene1] exist. *)
Record Page := {
  monitorWrapper : bool;
  monitorShakeContainer : bool;
  card : bool;
  typedText : bool;
  lockBtn : bool;
  ignoreBtn : bool;
  lockedOverlay : bool;
  errorOverlayNew : bool;
  padlock : bool;
  lockedText : bool;
  successCheck : bool;
  lockedSubtext : bool;
  lockToggle : bool;
  retryBtn : bool
}.

(** Targets handed to the animation library. *)
Inductive Target :=
  | TMonitorWrapper | TCard | TButtons | TLockedOverlay | TErrorOverlay
  | TLockedText | TSuccessCheck | TLockedSubtext.

(** One call into the animation library: the target and the numeric
    values it is driven to.  Easing curves and timeline offsets are
    presentation parameters and are left out. *)
Record Tween := {
  tw_target : Target;
  tw_duration : Q;
  tw_scale : option Q;
  tw_opacity : option Q;
  tw_y : option Q
}.

(** Callbacks the script hands to the animation and typing libraries;
    each is pending until the library fires it. *)
Inductive Callback :=
  | TypedComplete      (* Typed's onComplete *)
  | OverlayStart       (* onStart of the locked-overlay tween *)
  | CheckToggle        (* gsap.delayedCall(0.4, ...) *)
  | RemoveShake        (* gsap.delayedCall(0.7, ...) *)
  | RetryComplete.     (* onComplete of the retry timeline *)

Record State := {
  lock_wired : bool;                   (* runLockSequence bound to #lock-btn *)
  ignore_wired : bool;                 (* runErrorSequence bound to #ignore-btn *)
  lockBtn_disabled : bool;
  ignoreBtn_disabled : bool;
  lockToggle_checked : bool;
  shake_classList : classList;         (* of .monitor-shake-container *)
  overlay_pointerEvents : string;      (* errorOverlayNew.style.pointerEvents *)
  retry_listeners : list nat;          (* onRetry closures bound to .retry-btn *)
  next_closure : nat;
  tweens : list Tween;                 (* calls made into the animation library *)
  pending : list (nat * Callback);
  next_pending : nat
}.

Definition set_lock_wired v st :=
  {| lock_wired := v;
     ignore_wired := ignore_wired st;
     lockBtn_disabled := lockBtn_disabled st;
     ignoreBtn_disabled := ignoreBtn_disabled st;
     lockToggle_checked := lockToggle_checked st;
     shake_classList := shake_classList st;
     overlay_pointerEvents := overlay_pointerEvents st;
     retry_listeners := retry_listeners st;
     next_closure := next_closure st;
     tweens := tweens st;
     pending := pending st;
     next_pending := next_pending st |}.

Definition set_ignore_wired v st :=
  {| lock_wired := lock_wired st;
     ignore_wired := v;
     lockBtn_disabled := lockBtn_disabled st;
     ignoreBtn_disabled := ignoreBtn_disabled st;
     lockToggle_checked := lockToggle_checked st;
     shake_classList := shake_classList st;
     overlay_pointerEvents := overlay_pointerEvents st;
     retry_listeners := retry_listeners st;
     next_closure := next_closure st;
     tweens := tweens st;
     pending := pending st;
     next_pending := next_pending st |}.

Definition set_lockBtn_disabled v st :=
  {| lock_wired := lock_wired st;
     ignore_wired := ignore_wired st;
     lockBtn_disabled := v;
     ignoreBtn_disabled := ignoreBtn_disabled st;
     lockToggle_checked := lockToggle_checked st;
     shake_classList := shake_classList st;
     overlay_pointerEvents := overlay_pointerEvents st;
     retry_listeners := retry_listeners st;
     next_closure := next_closure st;
     tweens := tweens st;
     pending := pending st;
     next_pending := next_pending st |}.

Definition set_ignoreBtn_disabled v st :=
  {| lock_wired := lock_wired st;
     ignore_wired := ignore_wired st;
     lockBtn_disabled := lockBtn_disabled st;
     ignoreBtn_disabled := v;
     lockToggle_checked := lockToggle_checked st;
     shake_classList := shake_classList st;
     overlay_pointerEvents := overlay_pointerEvents st;
     retry_listeners := retry_listeners st;
     next_closure := next_closure st;
     tweens := tweens st;
     pending := pending st;
     next_pending := next_pending st |}.

Definition set_lockToggle_checked v st :=
  {| lock_wired := lock_wired st;
     ignore_wired := ignore_wired st;
     lockBtn_disabled := lockBtn_disabled st;
     ignoreBtn_disabled := ignoreBtn_disabled st;
     lockToggle_checked := v;
     shake_classList := shake_classList st;
     overlay_pointerEvents := overlay_pointerEvents st;
     retry_listeners := retry_listeners st;
     next_closure := next_closure st;
     tweens := tweens st;
     pending := pending st;
     next_pending := next_pending st |}.

Definition set_shake_classList v st :=
  {| lock_wired := lock_wired st;
     ignore_wired := ignore_wired st;
     lockBtn_disabled := lockBtn_disabled st;
     ignoreBtn_disabled := ignoreBtn_disabled st;
     lockToggle_checked := lockToggle_checked st;
     shake_classList := v;
     overlay_pointerEvents := overlay_pointerEvents st;
     retry_listeners := retry_listeners st;
     next_closure := next_closure st;
     tweens := tweens st;
     pending := pending st;
     next_pending := next_pending st |}.

Definition set_overlay_pointerEvents v st :=
  {| lock_wired := lock_wired st;
     ignore_wired := ignore_wired st;
     lockBtn_disabled := lockBtn_disabled st;
     ignoreBtn_disabled := ignoreBtn_disabled st;
     lockToggle_checked := lockToggle_checked st;
     shake_classList := shake_classList st;
     overlay_pointerEvents := v;
     retry_listeners := retry_listeners st;
     next_closure := next_closure st;
     tweens := tweens st;
     pending := pending st;
     next_pending := next_pending st |}.

Definition set_retry_listeners v st :=
  {| lock_wired := lock_wired st;
     ignore_wired := ignore_wired st;
     lockBtn_disabled := lockBtn_disabled st;
     ignoreBtn_disabled := ignoreBtn_disabled st;
     lockToggle_checked := lockToggle_checked st;
     shake_classList := shake_classList st;
     overlay_pointerEvents := overlay_pointerEvents st;
     retry_listeners := v;
     next_closure := next_closure st;
     tweens := tweens st;
     pending := pending st;
     next_pending := next_pending st |}.

Definition set_next_closure v st :=
  {| lock_wired := lock_wired st;
     ignore_wired := ignore_wired st;
     lockBtn_disabled := lockBtn_disabled st;
     ignoreBtn_disabled := ignoreBtn_disabled st;
     lockToggle_checked := lockToggle_checked st;
     shake_classList := shake_classList st;
     overlay_pointerEvents := overlay_pointerEvents st;
     retry_listeners := retry_listeners st;
     next_closure := v;
     tweens := tweens st;
     pending := pending st;
     next_pending := next_pending st |}.

Definition set_tweens v st :=
  {| lock_wired := lock_wired st;
     ignore_wired := ignore_wired st;
     lockBtn_disabled := lockBtn_disabled st;
     ignoreBtn_disabled := ignoreBtn_disabled st;
     lockToggle_checked := lockToggle_checked st;
     shake_classList := shake_classList st;
     overlay_pointerEvents := overlay_pointerEvents st;
     retry_listeners := retry_listeners st;
     next_closure := next_closure st;
     tweens := v;
     pending := pending st;
     next_pending := next_pending st |}.

Definition set_pending v n st :=
  {| lock_wired := lock_wired st;
     ignore_wired := ignore_wired st;
     lockBtn_disabled := lockBtn_disabled st;
     ignoreBtn_disabled := ignoreBtn_disabled st;
     lockToggle_checked := lockToggle_checked st;
     shake_classList := shake_classList st;
     overlay_pointerEvents := overlay_pointerEvents st;
     retry_listeners := retry_listeners st;
     next_closure := next_closure st;
     tweens := tweens st;
     pending := v;
     next_pending := n |}.

Section Scene1.
Variable pg : Page.

Abbreviation M := (Eff.M State).

(** A call into the animation library.  A [null] target is reported by
    the library on the console and skipped; nothing is thrown. *)
Definition tween (t : Target) (d : Q) (scale opacity y : option Q) : M unit :=
  modify (λ st, set_tweens (tweens st ++
    [{| tw_target := t; tw_duration := d; tw_scale := scale;
        tw_opacity := opacity; tw_y := y |}]) st).

(** Hand a callback to a library; it fires later. *)
Definition schedule (cb : Callback) : M unit :=
  modify (λ st, set_pending (pending st ++ [(next_pending st, cb)])
                            (S (next_pending st)) st).

(** [const disableButtons = (state) => { ... }] *)
Definition disableButtons (state : bool) : M unit :=
  deref (lockBtn pg) ;; modify (set_lockBtn_disabled state) ;;
  deref (ignoreBtn pg) ;; modify (set_ignoreBtn_disabled state).

(** [onComplete] of the typed prompt: the buttons come into view. *)
Definition onTypedComplete : M unit :=
  tween TButtons (6 # 10) None (Some 1) (Some 0).

(** The delayed call made when the locked overlay starts to fade in. *)
Definition onCheckToggle : M unit :=
  when (lockToggle pg) (modify (set_lockToggle_checked true)).

Definition onOverlayStart : M unit := schedule CheckToggle.

Definition runLockSequence : M unit :=
  disableButtons true ;;
  when (lockToggle pg) (modify (set_lockToggle_checked false)) ;;
  tween TCard (5 # 10) (Some (85 # 100)) (Some 0) None ;;
  tween TLockedOverlay (6 # 10) None (Some 1) None ;;
  schedule OverlayStart ;;
  tween TLockedText (6 # 10) None (Some 1) (Some 0) ;;
  when (successCheck pg) (tween TSuccessCheck (6 # 10) (Some 1) (Some 1) None) ;;
  when (lockedSubtext pg) (tween TLockedSubtext (6 # 10) None (Some 1) (Some 0)).

Definition onRemoveShake : M unit :=
  deref (monitorShakeContainer pg) ;;
  modify (λ st, set_shake_classList (remove "shake" (shake_classList st)) st).

(** [onComplete] of the timeline built by [onRetry]. *)
Definition onRetryComplete : M unit :=
  deref (errorOverlayNew pg) ;;
  modify (set_overlay_pointerEvents "none") ;;
  disableButtons false.

(** The closure [onRetry] created by one run of [runErrorSequence]; [h]
    is its identity as an event listener. *)
Definition onRetry (h : nat) : M unit :=
  deref (retryBtn pg) ;;
  modify (λ st, set_retry_listeners (filter (λ x, x ≠ h) (retry_listeners st)) st) ;;
  schedule RetryComplete ;;
  tween TErrorOverlay (4 # 10) None (Some 0) None ;;
  tween TCard (4 # 10) (Some 1) (Some 1) None.

Definition runErrorSequence : M unit :=
  disableButtons true ;;
  tween TCard (3 # 10) (Some (92 # 100)) (Some 0) None ;;
  tween TErrorOverlay (4 # 10) None (Some 1) None ;;
  when (monitorShakeContainer pg)
    (modify (λ st, set_shake_classList (add "shake" (shake_classList st)) st) ;;
     schedule RemoveShake) ;;
  h <- gets next_closure ;;
  modify (set_next_closure (S h)) ;;
  when (retryBtn pg)
    (deref (errorOverlayNew pg) ;;
     modify (set_overlay_pointerEvents "auto") ;;
     modify (λ st, set_retry_listeners (retry_listeners st ++ [h]) st)).

(** The [if (scene1) { ... }] block run at [DOMContentLoaded].  The
    constructor of the typing library looks [#typed-text] up by its
    selector and reads the tag name of what it finds, so it throws when
    the document has no such element ([typedText] unset); the statements
    after it are then not run. *)
Definition init : M unit :=
  when (monitorWrapper pg) (tween TMonitorWrapper 1 (Some (9 # 10)) (Some 0) (Some 50)) ;;
  tween TCard (8 # 10) (Some (8 # 10)) (Some 0) None ;;
  deref (typedText pg) ;;
  schedule TypedComplete ;;
  deref (lockBtn pg) ;; modify (set_lock_wired true) ;;
  deref (ignoreBtn pg) ;; modify (set_ignore_wired true).

(** *** Events delivered by the browser *)

Inductive event :=
  | ClickLock
  | ClickIgnore
  | ClickRetry
  | Fire (id : nat).

Definition run_callback (cb : Callback) : M unit :=
  match cb with
  | TypedComplete => onTypedComplete
  | OverlayStart => onOverlayStart
  | CheckToggle => onCheckToggle
  | RemoveShake => onRemoveShake
  | RetryComplete => onRetryComplete
  end.

(** Listeners of one click run in the order they were bound; one removed
    before its turn is skipped, and an error in one is reported without
    stopping the others. *)
Fixpoint dispatch_retry (snapshot : list nat) (st : State) : State :=
  match snapshot with
  | [] => st
  | h :: rest =>
      let st' := if bool_decide (h ∈ retry_listeners st)
                 then final (onRetry h st) else st in
      dispatch_retry rest st'
  end.

(** A disabled button receives no click. *)
Definition step (e : event) (st : State) : State :=
  match e with
  | ClickLock =>
      if lock_wired st && negb (lockBtn_disabled st)
      then final (runLockSequence st) else st
  | ClickIgnore =>
      if ignore_wired st && negb (ignoreBtn_disabled st)
      then final (runErrorSequence st) else st
  | ClickRetry => dispatch_retry (retry_listeners st) st
  | Fire id =>
      match list_find (λ p, p.1 = id) (pending st) with
      | Some (i, (_, cb)) =>
          final (run_callback cb
                   (set_pending (delete i (pending st)) (next_pending st) st))
      | None => st
      end
  end.

Definition run (es : list event) (st : State) : State :=
  foldl (λ s e, step e s) st es.

(** The state the spec calls [AwaitingChoice]: both controls enabled. *)
Definition awaiting_choice (st : State) : Prop :=
  lockBtn_disabled st = false ∧ ignoreBtn_disabled st = false.

End Scene1.

(** Callback ids are handed out in increasing order. *)
Definition fresh_pending (st : State) : Prop :=
  Forall (λ p, (p.1 < next_pending st)%nat) (pending st).

End LockScreen.

(** ** Scene 2: the flip-card quiz *)

Module Quiz.
Import Js Float64 Eff.
Local Open Scope eff_scope.

(** *** Quiz content *)

Record Choice := {
  text : string;
  correct : bool;
  message : string
}.

Record QuizQuestion := {
  scenario : string;
  choices : list Choice
}.

Definition quizData : list QuizQuestion := [
  {| scenario := "An employee uses their personal phone to take a picture of a workplace incident.";
     choices := [
       {| text := "Breach of Policy"; correct := true;
          message := "Using personal phones for incident reports is risky. Use official devices." |};
       {| text := "Safe Practice"; correct := false;
          message := "Even for good intentions, personal devices are not secure." |};
       {| text := "Encouraged for Transparency"; correct := false;
          message := "Transparency matters — but security protocols come first." |} ] |};
  {| scenario := "You find a USB drive labeled “Staff Menu 2024” in the pantry.";
     choices := [
       {| text := "Report to IT Immediately"; correct := true;
          message := "It could be a bait. Never plug unknown devices." |};
       {| text := "Plug It In to Check Contents"; correct := false;
          message := "Could contain malware or keyloggers." |};
       {| text := "Leave It on the Table"; correct := false;
          message := "Someone else may fall into the trap." |} ] |};
  {| scenario := "Someone walks behind you and says: ‘I'm from the audit team, can you hold the door?’";
     choices := [
       {| text := "Politely Refuse and Ask for ID"; correct := true;
          message := "Always verify. No badge = no access." |};
       {| text := "Hold the Door"; correct := false;
          message := "Could be social engineering. Tailgating is a real threat." |};
       {| text := "Assume They're an Employee"; correct := false;
          message := "Never assume. It’s your responsibility to check." |} ] |};
  {| scenario := "You spot a coworker’s password written on a sticky note stuck to their monitor.";
     choices := [
       {| text := "Remind Them & Report to IT If Needed"; correct := true;
          message := "Writing passwords down puts systems at risk." |};
       {| text := "Ignore It"; correct := false;
          message := "Ignoring puts your team in danger." |};
       {| text := "Take Note for Emergency Use"; correct := false;
          message := "That’s unauthorized access — a serious offence." |} ] |};
  {| scenario := "A colleague sends a customer’s allergy info in a WhatsApp message for delivery coordination.";
     choices := [
       {| text := "Data Breach"; correct := true;
          message := "Personal apps are not protected. Use official tools only." |};
       {| text := "OK for Quick Tasks"; correct := false;
          message := "Speed doesn’t justify insecure sharing." |};
       {| text := "Not an Issue if Deleted Later"; correct := false;
          message := "Data can be backed up to cloud even after deletion." |} ] |}
].

(** *** The page and its mutable state *)

(** A bounding box, as far as [positionNotification] reads it (pixels). *)
Record Rect := { r_top : Q; r_left : Q; r_width : Q }.

(** The markup under [#scene2], as far as the lookups of the script see
    it: which elements exist, nested as the selectors require. *)
Record BackFace := {
  choice_container : bool              (* .quiz-card-back .choice-container *)
}.

Record QuizCard := {
  card_inner : bool;                   (* .quiz-card-inner *)
  scenario_text : bool;                (* .quiz-card-front .scenario-text *)
  back_face : option BackFace;         (* .quiz-card-back *)
  card_rect : Rect
}.

Record NextContainer := {
  next_button : bool                   (* .quiz-next button *)
}.

Record Scoreboard := {
  score_box : bool;
  score_text : bool;
  restart_btn : bool;
  confetti_container : bool
}.

Record Page := {
  quiz_card : option QuizCard;         (* #quiz-card *)
  quiz_next : option NextContainer;    (* .quiz-next *)
  scoreboard_el : option Scoreboard;   (* #scoreboard *)
  notifications : bool;                (* .notifications *)
  quiz_container : option Rect         (* .quiz-container *)
}.

(** A choice control created by [renderCard]. *)
Record Button := {
  b_classList : classList;
  b_textContent : string;
  data_correct : string;               (* dataset.correct *)
  data_message : string;               (* dataset.message *)
  b_disabled : bool
}.

(** A confetti particle; lengths in px, [p_left] in percent, times in
    seconds: the numbers that the script then prints into the style. *)
Record Piece := {
  p_className : string;
  p_width : Q;
  p_height : Q;
  p_background : string;
  p_left : Q;
  p_animationDuration : Q;
  p_animationDelay : Q
}.

Inductive TimerAction :=
  | ShowNotification                   (* the 1000 ms timer of renderCard(0) *)
  | FinishHide.                        (* the 800 ms timer of hideNotification *)

Record Timer := {
  t_id : nat;
  t_delay : nat;                       (* milliseconds *)
  t_action : TimerAction
}.

Record State := {
  (* the three variables of the session *)
  currentIndex : nat;
  score : nat;
  answered : bool;
  (* the card *)
  front_textContent : string;
  quizCard_classList : classList;
  choice_buttons : list Button;        (* the .choice children of the container *)
  explanations : list string;          (* the .explanation nodes of the back face *)
  (* advance control and scoreboard *)
  nextContainer_display : string;
  nextButton_textContent : string;
  scoreText_textContent : string;
  scoreboard_display : string;
  confetti : list Piece;               (* children of .confetti-container *)
  (* onboarding notification *)
  notif_classList : classList;
  notif_display : string;
  notif_top : option Q;
  notif_left : option Q;
  notif_transform : string;
  notif_timeout : option nat;          (* notificationEl._timeout *)
  (* runtime *)
  timers : list Timer;                 (* pending timeouts *)
  timer_count : nat;                   (* timeouts created so far *)
  draws : nat;                         (* calls of Math.random so far *)
  launches : nat                       (* ghost: calls of launchConfetti so far *)
}.

Definition set_currentIndex v st :=
  {| currentIndex := v;
     score := score st;
     answered := answered st;
     front_textContent := front_textContent st;
     quizCard_classList := quizCard_classList st;
     choice_buttons := choice_buttons st;
     explanations := explanations st;
     nextContainer_display := nextContainer_display st;
     nextButton_textContent := nextButton_textContent st;
     scoreText_textContent := scoreText_textContent st;
     scoreboard_display := scoreboard_display st;
     confetti := confetti st;
     notif_classList := notif_classList st;
     notif_display := notif_display st;
     notif_top := notif_top st;
     notif_left := notif_left st;
     notif_transform := notif_transform st;
     notif_timeout := notif_timeout st;
     timers := timers st;
     timer_count := timer_count st;
     draws := draws st;
     launches := launches st |}.

Definition set_score v st :=
  {| currentIndex := currentIndex st;
     score := v;
     answered := answered st;
     front_textContent := front_textContent st;
     quizCard_classList := quizCard_classList st;
     choice_buttons := choice_buttons st;
     explanations := explanations st;
     nextContainer_display := nextContainer_display st;
     nextButton_textContent := nextButton_textContent st;
     scoreText_textContent := scoreText_textContent st;
     scoreboard_display := scoreboard_display st;
     confetti := confetti st;
     notif_classList := notif_classList st;
     notif_display := notif_display st;
     notif_top := notif_top st;
     notif_left := notif_left st;
     notif_transform := notif_transform st;
     notif_timeout := notif_timeout st;
     timers := timers st;
     timer_count := timer_count st;
     draws := draws st;
     launches := launches st |}.

Definition set_answered v st :=
  {| currentIndex := currentIndex st;
     score := score st;
     answered := v;
     front_textContent := front_textContent st;
     quizCard_classList := quizCard_classList st;
     choice_buttons := choice_buttons st;
     explanations := explanations st;
     nextContainer_display := nextContainer_display st;
     nextButton_textContent := nextButton_textContent st;
     scoreText_textContent := scoreText_textContent st;
     scoreboard_display := scoreboard_display st;
     confetti := confetti st;
     notif_classList := notif_classList st;
     notif_display := notif_display st;
     notif_top := notif_top st;
     notif_left := notif_left st;
     notif_transform := notif_transform st;
     notif_timeout := notif_timeout st;
     timers := timers st;
     timer_count := timer_count st;
     draws := draws st;
     launches := launches st |}.

Definition set_front_textContent v st :=
  {| currentIndex := currentIndex st;
     score := score st;
     answered := answered st;
     front_textContent := v;
     quizCard_classList := quizCard_classList st;
     choice_buttons := choice_buttons st;
     explanations := explanations st;
     nextContainer_display := nextContainer_display st;
     nextButton_textContent := nextButton_textContent st;
     scoreText_textContent := scoreText_textContent st;
     scoreboard_display := scoreboard_display st;
     confetti := confetti st;
     notif_classList := notif_classList st;
     notif_display := notif_display st;
     notif_top := notif_top st;
     notif_left := notif_left st;
     notif_transform := notif_transform st;
     notif_timeout := notif_timeout st;
     timers := timers st;
     timer_count := timer_count st;
     draws := draws st;
     launches := launches st |}.

Definition set_quizCard_classList v st :=
  {| currentIndex := currentIndex st;
     score := score st;
     answered := answered st;
     front_textContent := front_textContent st;
     quizCard_classList := v;
     choice_buttons := choice_buttons st;
     explanations := explanations st;
     nextContainer_display := nextContainer_display st;
     nextButton_textContent := nextButton_textContent st;
     scoreText_textContent := scoreText_textContent st;
     scoreboard_display := scoreboard_display st;
     confetti := confetti st;
     notif_classList := notif_classList st;
     notif_display := notif_display st;
     notif_top := notif_top st;
     notif_left := notif_left st;
     notif_transform := notif_transform st;
     notif_timeout := notif_timeout st;
     timers := timers st;
     timer_count := timer_count st;
     draws := draws st;
     launches := launches st |}.

Definition set_choice_buttons v st :=
  {| currentIndex := currentIndex st;
     score := score st;
     answered := answered st;
     front_textContent := front_textContent st;
     quizCard_classList := quizCard_classList st;
     choice_buttons := v;
     explanations := explanations st;
     nextContainer_display := nextContainer_display st;
     nextButton_textContent := nextButton_textContent st;
     scoreText_textContent := scoreText_textContent st;
     scoreboard_display := scoreboard_display st;
     confetti := confetti st;
     notif_classList := notif_classList st;
     notif_display := notif_display st;
     notif_top := notif_top st;
     notif_left := notif_left st;
     notif_transform := notif_transform st;
     notif_timeout := notif_timeout st;
     timers := timers st;
     timer_count := timer_count st;
     draws := draws st;
     launches := launches st |}.

Definition set_explanations v st :=
  {| currentIndex := currentIndex st;
     score := score st;
     answered := answered st;
     front_textContent := front_textContent st;
     quizCard_classList := quizCard_classList st;
     choice_buttons := choice_buttons st;
     explanations := v;
     nextContainer_display := nextContainer_display st;
     nextButton_textContent := nextButton_textContent st;
     scoreText_textContent := scoreText_textContent st;
     scoreboard_display := scoreboard_display st;
     confetti := confetti st;
     notif_classList := notif_classList st;
     notif_display := notif_display st;
     notif_top := notif_top st;
     notif_left := notif_left st;
     notif_transform := notif_transform st;
     notif_timeout := notif_timeout st;
     timers := timers st;
     timer_count := timer_count st;
     draws := draws st;
     launches := launches st |}.

Definition set_nextContainer_display v st :=
  {| currentIndex := currentIndex st;
     score := score st;
     answered := answered st;
     front_textContent := front_textContent st;
     quizCard_classList := quizCard_classList st;
     choice_buttons := choice_buttons st;
     explanations := explanations st;
     nextContainer_display := v;
     nextButton_textContent := nextButton_textContent st;
     scoreText_textContent := scoreText_textContent st;
     scoreboard_display := scoreboard_display st;
     confetti := confetti st;
     notif_classList := notif_classList st;
     notif_display := notif_display st;
     notif_top := notif_top st;
     notif_left := notif_left st;
     notif_transform := notif_transform st;
     notif_timeout := notif_timeout st;
     timers := timers st;
     timer_count := timer_count st;
     draws := draws st;
     launches := launches st |}.

Definition set_nextButton_textContent v st :=
  {| currentIndex := currentIndex st;
     score := score st;
     answered := answered st;
     front_textContent := front_textContent st;
     quizCard_classList := quizCard_classList st;
     choice_buttons := choice_buttons st;
     explanations := explanations st;
     nextContainer_display := nextContainer_display st;
     nextButton_textContent := v;
     scoreText_textContent := scoreText_textContent st;
     scoreboard_display := scoreboard_display st;
     confetti := confetti st;
     notif_classList := notif_classList st;
     notif_display := notif_display st;
     notif_top := notif_top st;
     notif_left := notif_left st;
     notif_transform := notif_transform st;
     notif_timeout := notif_timeout st;
     timers := timers st;
     timer_count := timer_count st;
     draws := draws st;
     launches := launches st |}.

Definition set_scoreText_textContent v st :=
  {| currentIndex := currentIndex st;
     score := score st;
     answered := answered st;
     front_textContent := front_textContent st;
     quizCard_classList := quizCard_classList st;
     choice_buttons := choice_buttons st;
     explanations := explanations st;
     nextContainer_display := nextContainer_display st;
     nextButton_textContent := nextButton_textContent st;
     scoreText_textContent := v;
     scoreboard_display := scoreboard_display st;
     confetti := confetti st;
     notif_classList := notif_classList st;
     notif_display := notif_display st;
     notif_top := notif_top st;
     notif_left := notif_left st;
     notif_transform := notif_transform st;
     notif_timeout := notif_timeout st;
     timers := timers st;
     timer_count := timer_count st;
     draws := draws st;
     launches := launches st |}.

Definition set_scoreboard_display v st :=
  {| currentIndex := currentIndex st;
     score := score st;
     answered := answered st;
     front_textContent := front_textContent st;
     quizCard_classList := quizCard_classList st;
     choice_buttons := choice_buttons st;
     explanations := explanations st;
     nextContainer_display := nextContainer_display st;
     nextButton_textContent := nextButton_textContent st;
     scoreText_textContent := scoreText_textContent st;
     scoreboard_display := v;
     confetti := confetti st;
     notif_classList := notif_classList st;
     notif_display := notif_display st;
     notif_top := notif_top st;
     notif_left := notif_left st;
     notif_transform := notif_transform st;
     notif_timeout := notif_timeout st;
     timers := timers st;
     timer_count := timer_count st;
     draws := draws st;
     launches := launches st |}.

Definition set_confetti v st :=
  {| currentIndex := currentIndex st;
     score := score st;
     answered := answered st;
     front_textContent := front_textContent st;
     quizCard_classList := quizCard_classList st;
     choice_buttons := choice_buttons st;
     explanations := explanations st;
     nextContainer_display := nextContainer_display st;
     nextButton_textContent := nextButton_textContent st;
     scoreText_textContent := scoreText_textContent st;
     scoreboard_display := scoreboard_display st;
     confetti := v;
     notif_classList := notif_classList st;
     notif_display := notif_display st;
     notif_top := notif_top st;
     notif_left := notif_left st;
     notif_transform := notif_transform st;
     notif_timeout := notif_timeout st;
     timers := timers st;
     timer_count := timer_count st;
     draws := draws st;
     launches := launches st |}.

Definition set_notif_classList v st :=
  {| currentIndex := currentIndex st;
     score := score st;
     answered := answered st;
     front_textContent := front_textContent st;
     quizCard_classList := quizCard_classList st;
     choice_buttons := choice_buttons st;
     explanations := explanations st;
     nextContainer_display := nextContainer_display st;
     nextButton_textContent := nextButton_textContent st;
     scoreText_textContent := scoreText_textContent st;
     scoreboard_display := scoreboard_display st;
     confetti := confetti st;
     notif_classList := v;
     notif_display := notif_display st;
     notif_top := notif_top st;
     notif_left := notif_left st;
     notif_transform := notif_transform st;
     notif_timeout := notif_timeout st;
     timers := timers st;
     timer_count := timer_count st;
     draws := draws st;
     launches := launches st |}.

Definition set_notif_display v st :=
  {| currentIndex := currentIndex st;
     score := score st;
     answered := answered st;
     front_textContent := front_textContent st;
     quizCard_classList := quizCard_classList st;
     choice_buttons := choice_buttons st;
     explanations := explanations st;
     nextContainer_display := nextContainer_display st;
     nextButton_textContent := nextButton_textContent st;
     scoreText_textContent := scoreText_textContent st;
     scoreboard_display := scoreboard_display st;
     confetti := confetti st;
     notif_classList := notif_classList st;
     notif_display := v;
     notif_top := notif_top st;
     notif_left := notif_left st;
     notif_transform := notif_transform st;
     notif_timeout := notif_timeout st;
     timers := timers st;
     timer_count := timer_count st;
     draws := draws st;
     launches := launches st |}.

Definition set_notif_top v st :=
  {| currentIndex := currentIndex st;
     score := score st;
     answered := answered st;
     front_textContent := front_textContent st;
     quizCard_classList := quizCard_classList st;
     choice_buttons := choice_buttons st;
     explanations := explanations st;
     nextContainer_display := nextContainer_display st;
     nextButton_textContent := nextButton_textContent st;
     scoreText_textContent := scoreText_textContent st;
     scoreboard_display := scoreboard_display st;
     confetti := confetti st;
     notif_classList := notif_classList st;
     notif_display := notif_display st;
     notif_top := v;
     notif_left := notif_left st;
     notif_transform := notif_transform st;
     notif_timeout := notif_timeout st;
     timers := timers st;
     timer_count := timer_count st;
     draws := draws st;
     launches := launches st |}.

Definition set_notif_left v st :=
  {| currentIndex := currentIndex st;
     score := score st;
     answered := answered st;
     front_textContent := front_textContent st;
     quizCard_classList := quizCard_classList st;
     choice_buttons := choice_buttons st;
     explanations := explanations st;
     nextContainer_display := nextContainer_display st;
     nextButton_textContent := nextButton_textContent st;
     scoreText_textContent := scoreText_textContent st;
     scoreboard_display := scoreboard_display st;
     confetti := confetti st;
     notif_classList := notif_classList st;
     notif_display := notif_display st;
     notif_top := notif_top st;
     notif_left := v;
     notif_transform := notif_transform st;
     notif_timeout := notif_timeout st;
     timers := timers st;
     timer_count := timer_count st;
     draws := draws st;
     launches := launches st |}.

Definition set_notif_transform v st :=
  {| currentIndex := currentIndex st;
     score := score st;
     answered := answered st;
     front_textContent := front_textContent st;
     quizCard_classList := quizCard_classList st;
     choice_buttons := choice_buttons st;
     explanations := explanations st;
     nextContainer_display := nextContainer_display st;
     nextButton_textContent := nextButton_textContent st;
     scoreText_textContent := scoreText_textContent st;
     scoreboard_display := scoreboard_display st;
     confetti := confetti st;
     notif_classList := notif_classList st;
     notif_display := notif_display st;
     notif_top := notif_top st;
     notif_left := notif_left st;
     notif_transform := v;
     notif_timeout := notif_timeout st;
     timers := timers st;
     timer_count := timer_count st;
     draws := draws st;
     launches := launches st |}.

Definition set_notif_timeout v st :=
  {| currentIndex := currentIndex st;
     score := score st;
     answered := answered st;
     front_textContent := front_textContent st;
     quizCard_classList := quizCard_classList st;
     choice_buttons := choice_buttons st;
     explanations := explanations st;
     nextContainer_display := nextContainer_display st;
     nextButton_textContent := nextButton_textContent st;
     scoreText_textContent := scoreText_textContent st;
     scoreboard_display := scoreboard_display st;
     confetti := confetti st;
     notif_classList := notif_classList st;
     notif_display := notif_display st;
     notif_top := notif_top st;
     notif_left := notif_left st;
     notif_transform := notif_transform st;
     notif_timeout := v;
     timers := timers st;
     timer_count := timer_count st;
     draws := draws st;
     launches := launches st |}.

Definition set_timers v st :=
  {| currentIndex := currentIndex st;
     score := score st;
     answered := answered st;
     front_textContent := front_textContent st;
     quizCard_classList := quizCard_classList st;
     choice_buttons := choice_buttons st;
     explanations := explanations st;
     nextContainer_display := nextContainer_display st;
     nextButton_textContent := nextButton_textContent st;
     scoreText_textContent := scoreText_textContent st;
     scoreboard_display := scoreboard_display st;
     confetti := confetti st;
     notif_classList := notif_classList st;
     notif_display := notif_display st;
     notif_top := notif_top st;
     notif_left := notif_left st;
     notif_transform := notif_transform st;
     notif_timeout := notif_timeout st;
     timers := v;
     timer_count := timer_count st;
     draws := draws st;
     launches := launches st |}.

Definition set_timer_count v st :=
  {| currentIndex := currentIndex st;
     score := score st;
     answered := answered st;
     front_textContent := front_textContent st;
     quizCard_classList := quizCard_classList st;
     choice_buttons := choice_buttons st;
     explanations := explanations st;
     nextContainer_display := nextContainer_display st;
     nextButton_textContent := nextButton_textContent st;
     scoreText_textContent := scoreText_textContent st;
     scoreboard_display := scoreboard_display st;
     confetti := confetti st;
     notif_classList := notif_classList st;
     notif_display := notif_display st;
     notif_top := notif_top st;
     notif_left := notif_left st;
     notif_transform := notif_transform st;
     notif_timeout := notif_timeout st;
     timers := timers st;
     timer_count := v;
     draws := draws st;
     launches := launches st |}.

Definition set_draws v st :=
  {| currentIndex := currentIndex st;
     score := score st;
     answered := answered st;
     front_textContent := front_textContent st;
     quizCard_classList := quizCard_classList st;
     choice_buttons := choice_buttons st;
     explanations := explanations st;
     nextContainer_display := nextContainer_display st;
     nextButton_textContent := nextButton_textContent st;
     scoreText_textContent := scoreText_textContent st;
     scoreboard_display := scoreboard_display st;
     confetti := confetti st;
     notif_classList := notif_classList st;
     notif_display := notif_display st;
     notif_top := notif_top st;
     notif_left := notif_left st;
     notif_transform := notif_transform st;
     notif_timeout := notif_timeout st;
     timers := timers st;
     timer_count := timer_count st;
     draws := v;
     launches := launches st |}.

Definition set_launches v st :=
  {| currentIndex := currentIndex st;
     score := score st;
     answered := answered st;
     front_textContent := front_textContent st;
     quizCard_classList := quizCard_classList st;
     choice_buttons := choice_buttons st;
     explanations := explanations st;
     nextContainer_display := nextContainer_display st;
     nextButton_textContent := nextButton_textContent st;
     scoreText_textContent := scoreText_textContent st;
     scoreboard_display := scoreboard_display st;
     confetti := confetti st;
     notif_classList := notif_classList st;
     notif_display := notif_display st;
     notif_top := notif_top st;
     notif_left := notif_left st;
     notif_transform := notif_transform st;
     notif_timeout := notif_timeout st;
     timers := timers st;
     timer_count := timer_count st;
     draws := draws st;
     launches := v |}.

(** *** The script of scene 2 *)

Section Scene2.
Variable pg : Page.
(** [rand n] is the value of the [n]-th call of [Math.random]. *)
Variable rand : nat → Q.

Abbreviation M := (Eff.M State).

(** The element lookups made when the scene is set up. *)
Definition quizCard : bool := bool_decide (is_Some (quiz_card pg)).
Definition cardInner : bool :=
  match quiz_card pg with Some c => card_inner c | None => false end.
Definition front : bool :=
  match quiz_card pg with Some c => scenario_text c | None => false end.
Definition back : bool :=
  match quiz_card pg with
  | Some c => bool_decide (is_Some (back_face c))
  | None => false
  end.
Definition backChoices : bool :=
  match quiz_card pg with
  | Some c => match back_face c with
              | Some b => choice_container b
              | None => false
              end
  | None => false
  end.
Definition nextContainer : bool := bool_decide (is_Some (quiz_next pg)).
Definition nextButton : bool :=
  match quiz_next pg with Some n => next_button n | None => false end.
Definition scoreboard : bool := bool_decide (is_Some (scoreboard_el pg)).
Definition scoreBox : bool :=
  match scoreboard_el pg with Some b => score_box b | None => false end.
Definition scoreText : bool :=
  match scoreboard_el pg with Some b => score_text b | None => false end.
Definition restartBtn : bool :=
  match scoreboard_el pg with Some b => restart_btn b | None => false end.
Definition confettiContainer : bool :=
  match scoreboard_el pg with Some b => confetti_container b | None => false end.
Definition notificationEl : bool := notifications pg.
Definition quizContainer : bool := bool_decide (is_Some (quiz_container pg)).

(** [Math.random()] *)
Definition random : M Q :=
  λ st, Ok (rand (draws st)) (set_draws (S (draws st)) st).

(** [setTimeout]; the ids handed out are positive. *)
Definition setTimeout (a : TimerAction) (delay : nat) : M nat :=
  λ st, let id := S (timer_count st) in
        Ok id (set_timer_count id
                 (set_timers (timers st ++
                    [{| t_id := id; t_delay := delay; t_action := a |}]) st)).

Definition clearTimeout (id : nat) : M unit :=
  modify (λ st, set_timers (filter (λ t, t_id t ≠ id) (timers st)) st).

Fixpoint forEach {A} (l : list A) (f : A → M unit) : M unit :=
  match l with
  | [] => ret tt
  | x :: l' => f x ;; forEach l' f
  end.

(** [for (let i = start; ...; i++) body(i)], [count] iterations. *)
Fixpoint for_loop (count start : nat) (body : nat → M unit) : M unit :=
  match count with
  | O => ret tt
  | S c => body start ;; for_loop c (S start) body
  end.

(** **** Shuffling: [choices.sort(() => Math.random() - 0.5)] *)

(** The comparator ignores the two elements it is given. *)
Definition comparefn : M Q :=
  r <- random ;; ret (fsub r (1 # 2)).

Definition negative (order : Q) : bool := negb (Qle_bool 0 order).

(** [Array.prototype.sort] leaves the algorithm to the engine.  The model
    is the one of V8 (Chrome, Edge, Node) on an array of fewer than 64
    elements, where its merge sort makes a single run: the longest
    ascending or strictly descending run at the start of the array is
    found, a descending one is reversed, and each element after the run
    is placed into the sorted part by a binary search.

    The loop that extends the run: element [idx] is compared with its
    predecessor, for as long as the answer agrees with the direction
    taken by the first two elements. *)
Fixpoint extendRun (isDescending : bool) (remaining runLength : nat) : M nat :=
  match remaining with
  | O => ret runLength
  | S remaining' =>
      order <- comparefn ;;
      if isDescending
      then (if negative order then extendRun isDescending remaining' (S runLength)
            else ret runLength)
      else (if negative order then ret runLength
            else extendRun isDescending remaining' (S runLength))
  end.

(** The array with its first run made ascending, and the length of the run.
    The first comparison is [comparefn(a[1], a[0])]. *)
Definition countAndMakeRun {A} (a : list A) : M (list A * nat) :=
  if (length a <? 2)%nat then ret (a, length a) else
  order <- comparefn ;;
  let isDescending := negative order in
  runLength <- extendRun isDescending (length a - 2) 2 ;;
  ret (if isDescending then reverse (take runLength a) ++ drop runLength a else a,
       runLength).

(** The search for the place of the pivot in [a[left..right)]: the pivot
    is compared with the element in the middle.  The interval shrinks at
    every turn, so [fuel] turns are enough for an interval of that length. *)
Fixpoint findInsertionPoint (fuel left right : nat) : M nat :=
  match fuel with
  | O => ret left
  | S fuel' =>
      if (left <? right)%nat then
        let mid := (left + (right - left) / 2)%nat in
        order <- comparefn ;;
        if negative order then findInsertionPoint fuel' left mid
        else findInsertionPoint fuel' (S mid) right
      else ret left
  end.

(** The pivot [a[start]] moves to index [left], the elements between
    sliding one place to the right. *)
Definition moveTo {A} (start left : nat) (pivot : A) (a : list A) : list A :=
  let a' := delete start a in take left a' ++ pivot :: drop left a'.

(** [count] elements, from index [start] on, are inserted in turn. *)
Fixpoint binaryInsertionSort {A} (count start : nat) (a : list A) : M (list A) :=
  match count with
  | O => ret a
  | S count' =>
      match a !! start with
      | Some pivot =>
          left <- findInsertionPoint start 0 start ;;
          binaryInsertionSort count' (S start) (moveTo start left pivot a)
      | None => ret a
      end
  end.

Definition sort_random {A} (l : list A) : M (list A) :=
  if (length l <? 2)%nat then ret l else
  run <- countAndMakeRun l ;;
  let runLength := run.2 in
  binaryInsertionSort (length l - runLength) runLength run.1.

(** **** The onboarding notification *)

Definition positionNotification : M unit :=
  match notificationEl, quiz_card pg, quiz_container pg with
  | true, Some c, Some containerRect =>
      let cardRect := card_rect c in
      let gap := 12%Q in
      let top := (r_top cardRect - r_top containerRect - gap)%Q in
      let left := (r_left cardRect - r_left containerRect + r_width cardRect / 2)%Q in
      modify (set_notif_top (Some top)) ;;
      modify (set_notif_left (Some left)) ;;
      modify (set_notif_transform "translateX(-50%)")
  | _, _, _ => ret tt
  end.

Definition showNotification : M unit :=
  if negb notificationEl then ret tt else
  positionNotification ;;
  modify (λ st, set_notif_classList (remove "hide" (notif_classList st)) st) ;;
  modify (λ st, set_notif_classList (add "show" (notif_classList st)) st).

Definition hideNotification : M unit :=
  if negb notificationEl then ret tt else
  cl <- gets notif_classList ;;
  if negb (contains cl "show") then ret tt else
  modify (λ st, set_notif_classList (remove "show" (notif_classList st)) st) ;;
  modify (λ st, set_notif_classList (add "hide" (notif_classList st)) st) ;;
  _ <- setTimeout FinishHide 800 ;;
  ret tt.

(** The callback of the 800 ms timer of [hideNotification]. *)
Definition finishHide : M unit :=
  deref notificationEl ;;
  cl <- gets notif_classList ;;
  if contains cl "hide" then modify (set_notif_display "none") else ret tt.

(** **** Rendering a card *)

Definition createButton (choice : Choice) : Button :=
  {| b_classList := ["choice"];
     b_textContent := text choice;
     data_correct := show_bool (correct choice);
     data_message := message choice;
     b_disabled := false |}.

Definition renderCard (idx : nat) : M unit :=
  let data := quizData !! idx in
  when front
    (d <- defined data ;; modify (set_front_textContent (scenario d))) ;;
  when backChoices (modify (set_choice_buttons [])) ;;
  when back (modify (λ st, set_explanations (tail (explanations st)) st)) ;;
  d <- defined data ;;
  shuffled <- sort_random (choices d) ;;
  forEach shuffled (λ choice,
    let btn := createButton choice in
    when backChoices
      (modify (λ st, set_choice_buttons (choice_buttons st ++ [btn]) st))) ;;
  modify (set_answered false) ;;
  deref quizCard ;;
  modify (λ st, set_quizCard_classList
                  (remove "wrong" (remove "correct" (quizCard_classList st))) st) ;;
  when nextContainer (modify (set_nextContainer_display "none")) ;;
  when nextButton
    (modify (set_nextButton_textContent
               (if (idx <? length quizData - 1)%nat then "Next" else "Finish"))) ;;
  deref quizCard ;;
  modify (λ st, set_quizCard_classList (remove "flipped" (quizCard_classList st)) st) ;;
  when notificationEl
    (t <- gets notif_timeout ;;
     match t with
     | Some (S _ as id) => clearTimeout id
     | _ => ret tt
     end ;;
     if (idx =? 0)%nat
     then (id <- setTimeout ShowNotification 1000 ;;
           modify (set_notif_timeout (Some id)))
     else hideNotification).

(** The click handler of the card. *)
Definition onCardClick : M unit :=
  deref quizCard ;;
  cl <- gets quizCard_classList ;;
  a <- gets answered ;;
  (if negb (contains cl "flipped") && negb a
   then modify (set_quizCard_classList (add "flipped" cl))
   else ret tt) ;;
  when notificationEl hideNotification.

(** **** Selecting a choice *)

Definition add_class (c : string) (b : Button) : Button :=
  {| b_classList := add c (b_classList b);
     b_textContent := b_textContent b;
     data_correct := data_correct b;
     data_message := data_message b;
     b_disabled := b_disabled b |}.

Definition disable (b : Button) : Button :=
  {| b_classList := b_classList b;
     b_textContent := b_textContent b;
     data_correct := data_correct b;
     data_message := data_message b;
     b_disabled := true |}.

(** [onSelectChoice(e)]; [target] is the position of [e.currentTarget]
    among the choice controls of the card, [None] for no such control. *)
Definition onSelectChoice (target : option nat) : M unit :=
  a <- gets answered ;;
  if a then ret tt else
  modify (set_answered true) ;;
  bs <- gets choice_buttons ;;
  btn <- defined (k ← target; bs !! k) ;;
  let k := default O target in
  let isCorrect := String.eqb (data_correct btn) "true" in
  (if isCorrect
   then modify (λ st, set_score (S (score st)) st) ;;
        modify (λ st, set_choice_buttons (alter (add_class "correct") k (choice_buttons st)) st) ;;
        deref quizCard ;;
        modify (λ st, set_quizCard_classList (add "correct" (quizCard_classList st)) st)
   else modify (λ st, set_choice_buttons (alter (add_class "wrong") k (choice_buttons st)) st) ;;
        deref quizCard ;;
        modify (λ st, set_quizCard_classList (add "wrong" (quizCard_classList st)) st)) ;;
  when backChoices
    (modify (λ st, set_choice_buttons
       (imap (λ i b, let b := disable b in
                     if negb (i =? k)%nat && String.eqb (data_correct b) "true"
                     then add_class "correct" b else b)
             (choice_buttons st)) st)) ;;
  let message := data_message btn in
  deref quizCard ;;
  deref back ;;
  modify (λ st, set_explanations (explanations st ++ [message]) st) ;;
  when nextContainer (modify (set_nextContainer_display "block")).

(** **** Confetti *)

Definition colours : list string := [
  "rgba(143, 247, 122, 0.9)";
  "rgba(196, 158, 234, 0.9)";
  "rgba(146, 224, 128, 0.9)";
  "rgba(91, 192, 235, 0.9)"
].

Definition pieceCount : nat := 40.

(** The body of the loop of [launchConfetti]. *)
Definition confettiPiece (i : nat) : M unit :=
  r_size <- random ;;
  let size := fadd (fmul r_size 6) 4 in
  r_left <- random ;;
  r_duration <- random ;;
  let duration := fadd 3 (fmul r_duration 2) in
  r_delay <- random ;;
  let delay := fmul r_delay (1 # 2) in
  let piece :=
    {| p_className := "confetti-piece";
       p_width := size;
       p_height := size;
       p_background := default "" (colours !! (i mod length colours)%nat);
       p_left := fmul r_left 100;
       p_animationDuration := duration;
       p_animationDelay := delay |} in
  modify (λ st, set_confetti (confetti st ++ [piece]) st).

(** The first step only records the call in the ghost counter [launches]. *)
Definition launchConfetti : M unit :=
  modify (λ st, set_launches (S (launches st)) st) ;;
  if negb confettiContainer then ret tt else
  modify (set_confetti []) ;;
  for_loop pieceCount 0 confettiPiece.

(** **** Advancing and restarting *)

Definition goToNext : M unit :=
  modify (λ st, set_currentIndex (S (currentIndex st)) st) ;;
  i <- gets currentIndex ;;
  if (i <? length quizData)%nat
  then renderCard i
  else
    s <- gets score ;;
    when scoreText
      (modify (set_scoreText_textContent
         ("Score: " +:+ show_nat s +:+ "/" +:+ show_nat (length quizData)))) ;;
    when scoreboard (modify (set_scoreboard_display "flex")) ;;
    if (s =? length quizData)%nat then launchConfetti else ret tt.

Definition restartQuiz : M unit :=
  modify (set_currentIndex 0) ;;
  modify (set_score 0) ;;
  modify (set_answered false) ;;
  when scoreboard (modify (set_scoreboard_display "none")) ;;
  when confettiContainer (modify (set_confetti [])) ;;
  renderCard 0.

(** A pending timeout expires. *)
Definition fireTimer (id : nat) : M unit :=
  ts <- gets timers ;;
  match list_find (λ t, t_id t = id) ts with
  | Some (_, t) =>
      clearTimeout id ;;
      match t_action t with
      | ShowNotification => showNotification
      | FinishHide => finishHide
      end
  | None => ret tt
  end.

(** The [if (scene2) { ... }] block run at [DOMContentLoaded], after the
    initialisation of the three session variables. *)
Definition init : M unit :=
  modify (set_currentIndex 0) ;;
  modify (set_score 0) ;;
  modify (set_answered false) ;;
  renderCard 0.

(** **** A session

    The user answers the card on display by clicking its [k]-th choice
    control and then advances, once per entry of [picks].  The controls
    clicked are returned, as they were when clicked. *)
Fixpoint answerAll (picks : list nat) : M (list Button) :=
  match picks with
  | [] => ret []
  | k :: rest =>
      bs <- gets choice_buttons ;;
      btn <- defined (bs !! k) ;;
      onSelectChoice (Some k) ;;
      goToNext ;;
      log <- answerAll rest ;;
      ret (btn :: log)
  end.

(** A session starts at page load or at a click on the restart control. *)
Definition start (restart : bool) : M unit :=
  if restart then restartQuiz else init.

End Scene2.

(** The number of correct selections among the controls clicked. *)
Definition correct_selections (log : list Button) : nat :=
  length (filter (λ b, data_correct b = "true") log).

End Quiz.

(** ** States of the quiz named in the statements *)

Module QuizStates.
Import Js Float64 Eff Quiz.

(** Two states that agree on everything but the onboarding notification
    and the pending timers have the same [core]. *)
Definition core (st : State) : State :=
  set_notif_classList [] (set_notif_display "" (set_notif_top None
    (set_notif_left None (set_notif_transform "" (set_notif_timeout None
      (set_timers [] (set_timer_count 0 st))))))).

(** A computation that returns in every state, with a result that
    satisfies [P], having done nothing but call [Math.random]. *)
Definition draws_to {A} (P : A → Prop) (m : Eff.M State A) : Prop :=
  ∀ st, ∃ a d, m st = Ok a (set_draws d st) ∧ draws st ≤ d ∧ P a.

Section WithPage.
Variable pg : Page.
Variable rand : nat → Q.

(** The particle made from the four draws numbered [b], [b+1], [b+2]
    and [b+3], in iteration [i]. *)
Definition piece_at (b i : nat) : Piece :=
  {| p_className := "confetti-piece";
     p_width := fadd (fmul (rand b) 6) 4;
     p_height := fadd (fmul (rand b) 6) 4;
     p_background := default "" (colours !! (i mod length colours));
     p_left := fmul (rand (S b)) 100;
     p_animationDuration := fadd 3 (fmul (rand (S (S b))) 2);
     p_animationDelay := fmul (rand (S (S (S b)))) (1 # 2) |}.

(** The particle created by iteration [i] of a loop whose first call of
    [Math.random] is draw number [d]. *)
Definition piece_of (d i : nat) : Piece := piece_at (d + 4 * i) i.

(** What the claim says of one particle: its size, position and timing
    are computed from four successive draws, each product and sum rounded
    as the engine rounds it, they lie within the stated ranges, both ends
    included, and its colour is taken from the palette by index. *)
Definition particle (d i : nat) (p : Piece) : Prop :=
  p_className p = "confetti-piece" ∧
  p_width p = fadd (fmul (rand (d + 4 * i)) 6) 4 ∧
  p_height p = p_width p ∧
  (4 <= p_width p <= 10)%Q ∧
  colours !! (i mod 4) = Some (p_background p) ∧
  p_left p = fmul (rand (S (d + 4 * i))) 100 ∧
  (0 <= p_left p <= 100)%Q ∧
  p_animationDuration p = fadd 3 (fmul (rand (S (S (d + 4 * i)))) 2) ∧
  (3 <= p_animationDuration p <= 5)%Q ∧
  p_animationDelay p = fmul (rand (S (S (S (d + 4 * i))))) (1 # 2) ∧
  (0 <= p_animationDelay p <= 1 # 2)%Q.

(** The state left by [goToNext] past the last question. *)
Definition finished (st : State) : State :=
  let st1 := set_currentIndex (S (currentIndex st)) st in
  let st2 := if scoreText pg
             then set_scoreText_textContent
                    ("Score: " +:+ show_nat (score st) +:+ "/" +:+ show_nat 5) st1
             else st1 in
  if scoreboard pg then set_scoreboard_display "flex" st2 else st2.

(** The state left once the confetti decision has been taken too. *)
Definition after_finish (st : State) : State :=
  let st3 := finished st in
  if score st =? 5
  then if confettiContainer pg
       then set_draws (draws st3 + 4 * pieceCount)
              (set_confetti (piece_of (draws st3) <$> seq 0 pieceCount)
                 (set_launches (S (launches st3)) st3))
       else set_launches (S (launches st3)) st3
  else st3.

(** The state in which a session renders its first card. *)
Definition start_state (restart : bool) (st : State) : State :=
  let st1 := set_answered false (set_score 0 (set_currentIndex 0 st)) in
  if restart
  then
    let st2 := if scoreboard pg then set_scoreboard_display "none" st1 else st1 in
    if confettiContainer pg then set_confetti [] st2 else st2
  else st1.

End WithPage.

End QuizStates.

(** ** Handler calls in any order *)

Module QuizEvents.
Import Js Eff Quiz.

(** The calls the browser can make into the script of scene 2: a click
    on a choice control ([None] when the event has no such target), on
    the advance control, on the restart control or on the card, and the
    expiry of a timeout. *)
Inductive action :=
  | Select (target : option nat)
  | Next
  | Restart
  | CardClick
  | Timeout (id : nat).

#[global] Instance TimerAction_eq_dec : EqDecision TimerAction.
Proof. solve_decision. Defined.

Section WithPage.
Variable pg : Page.
Variable rand : nat → Q.

Definition act (a : action) : Eff.M State unit :=
  match a with
  | Select target => onSelectChoice pg target
  | Next => goToNext pg rand
  | Restart => restartQuiz pg rand
  | CardClick => onCardClick pg
  | Timeout id => fireTimer pg id
  end.

(** An exception that escapes a handler is reported and the page goes
    on with the state the handler left.  The sequences a user can cause
    are among these. *)
Definition perform (acts : list action) (st : State) : State :=
  foldl (λ s a, final (act a s)) st acts.

(** The last statement of [renderCard]: the notification is re-armed on
    the first card and hidden on the others. *)
Definition armNotification (idx : nat) : Eff.M State unit :=
  when (notificationEl pg)
    (t <- gets notif_timeout ;;
     match t with
     | Some (S _ as id) => clearTimeout id
     | _ => ret tt
     end ;;
     if (idx =? 0)%nat
     then (id <- setTimeout ShowNotification 1000 ;;
           modify (set_notif_timeout (Some id)))
     else hideNotification pg)%eff.

(** The pending timeouts that would show the notification. *)
Definition show_timers (st : State) : list Timer :=
  filter (λ t, t_action t = ShowNotification) (timers st).

(** Timeout ids are positive, distinct and not beyond the counter, and a
    pending timeout that shows the notification is the one remembered
    on the element. *)
Definition timers_ok (st : State) : Prop :=
  Forall (λ t, 0 < t_id t ≤ timer_count st) (timers st) ∧
  NoDup (t_id <$> timers st) ∧
  Forall (λ t, t_action t = ShowNotification →
               notif_timeout st = Some (t_id t)) (timers st).

(** Each rendered card can add one point, and cards are rendered for
    the indices 0 to 4 only. *)
Definition score_bounded (st : State) : Prop :=
  score st ≤ min (currentIndex st) 4 + (if answered st then 1 else 0).

(** The back face holds no explanation, or the one of the answered card. *)
Definition explained (st : State) : Prop :=
  explanations st = [] ∨
  (back pg = true ∧ answered st = true ∧ length (explanations st) = 1).

(** The confetti container is empty or holds one full launch. *)
Definition confetti_bounded (st : State) : Prop :=
  confetti st = [] ∨ length (confetti st) = pieceCount.

End WithPage.

End QuizEvents.

(** ** One round of the error path of scene 1 *)

Module LockScreenRounds.
Import Js Eff LockScreen.

(** The exercise awaits a choice as after set-up: the incorrect choice
    is wired, both controls are enabled, no retry handler is bound, no
    reverse timeline is running, and callback ids are fresh. *)
Definition ready (st : State) : Prop :=
  ignore_wired st = true ∧
  awaiting_choice st ∧
  retry_listeners st = [] ∧
  Forall (λ p, p.2 ≠ RetryComplete) (pending st) ∧
  fresh_pending st.

(** Both controls are disabled and nothing is left that could enable
    them: no retry handler and no reverse timeline. *)
Definition stuck (st : State) : Prop :=
  lockBtn_disabled st = true ∧
  ignoreBtn_disabled st = true ∧
  retry_listeners st = [] ∧
  Forall (λ p, p.2 ≠ RetryComplete) (pending st).

Section WithPage.
Variable pg : Page.

(** The incorrect choice, the retry, and the end of the reverse
    timeline; its completion callback is the one scheduled last. *)
Definition retry_round (st : State) : State :=
  let st1 := step pg ClickIgnore st in
  let st2 := step pg ClickRetry st1 in
  match last (pending st2) with
  | Some (id, RetryComplete) => step pg (Fire id) st2
  | _ => st2
  end.

Fixpoint retry_rounds (n : nat) (st : State) : State :=
  match n with
  | O => st
  | S n' => retry_rounds n' (retry_round st)
  end.

End WithPage.

End LockScreenRounds.

(** ** Sample pages and states *)

Module Samples.

(** Scene 1 with every element of the shipped markup. *)
Definition lock_page : LockScreen.Page :=
  {| LockScreen.monitorWrapper := true;
     LockScreen.monitorShakeContainer := true;
     LockScreen.card := true;
     LockScreen.typedText := true;
     LockScreen.lockBtn := true;
     LockScreen.ignoreBtn := true;
     LockScreen.lockedOverlay := true;
     LockScreen.errorOverlayNew := true;
     LockScreen.padlock := true;
     LockScreen.lockedText := true;
     LockScreen.successCheck := true;
     LockScreen.lockedSubtext := true;
     LockScreen.lockToggle := true;
     LockScreen.retryBtn := true |}.

(** Scene 1 as the document is parsed, before the script runs. *)
Definition lock_blank : LockScreen.State :=
  {| LockScreen.lock_wired := false;
     LockScreen.ignore_wired := false;
     LockScreen.lockBtn_disabled := false;
     LockScreen.ignoreBtn_disabled := false;
     LockScreen.lockToggle_checked := false;
     LockScreen.shake_classList := [];
     LockScreen.overlay_pointerEvents := "";
     LockScreen.retry_listeners := [];
     LockScreen.next_closure := 0;
     LockScreen.tweens := [];
     LockScreen.pending := [];
     LockScreen.next_pending := 0 |}.

(** Scene 1 once the script has set it up. *)
Definition lock_ready : LockScreen.State :=
  Eff.final (LockScreen.init lock_page lock_blank).

(** Scene 2 with every element of the shipped markup. *)
Definition quiz_page : Quiz.Page :=
  {| Quiz.quiz_card := Some
       {| Quiz.card_inner := true;
          Quiz.scenario_text := true;
          Quiz.back_face := Some {| Quiz.choice_container := true |};
          Quiz.card_rect :=
            {| Quiz.r_top := 120; Quiz.r_left := 200; Quiz.r_width := 400 |} |};
     Quiz.quiz_next := Some {| Quiz.next_button := true |};
     Quiz.scoreboard_el := Some
       {| Quiz.score_box := true;
          Quiz.score_text := true;
          Quiz.restart_btn := true;
          Quiz.confetti_container := true |};
     Quiz.notifications := true;
     Quiz.quiz_container := Some
       {| Quiz.r_top := 40; Quiz.r_left := 100; Quiz.r_width := 600 |} |}.

(** The same scene with the [#quiz-card] element missing. *)
Definition quiz_page_without_card : Quiz.Page :=
  {| Quiz.quiz_card := None;
     Quiz.quiz_next := Quiz.quiz_next quiz_page;
     Quiz.scoreboard_el := Quiz.scoreboard_el quiz_page;
     Quiz.notifications := true;
     Quiz.quiz_container := Quiz.quiz_container quiz_page |}.

(** Scene 2 as the document is parsed, before the script runs. *)
Definition quiz_blank : Quiz.State :=
  {| Quiz.currentIndex := 0;
     Quiz.score := 0;
     Quiz.answered := false;
     Quiz.front_textContent := "";
     Quiz.quizCard_classList := ["quiz-card"];
     Quiz.choice_buttons := [];
     Quiz.explanations := [];
     Quiz.nextContainer_display := "";
     Quiz.nextButton_textContent := "Next";
     Quiz.scoreText_textContent := "";
     Quiz.scoreboard_display := "";
     Quiz.confetti := [];
     Quiz.notif_classList := ["notifications"];
     Quiz.notif_display := "";
     Quiz.notif_top := None;
     Quiz.notif_left := None;
     Quiz.notif_transform := "";
     Quiz.notif_timeout := None;
     Quiz.timers := [];
     Quiz.timer_count := 0;
     Quiz.draws := 0;
     Quiz.launches := 0 |}.

(** A tape of draws cycling through 1/8, 3/8, 5/8 and 7/8. *)
Definition cycling (n : nat) : Q :=
  (Z.of_nat (2 * (n mod 4) + 1) # 8)%Q.

(** A tape on which every draw is 3/4: the choices keep their defined
    order, which puts the correct one first. *)
Definition steady (n : nat) : Q := (3 # 4)%Q.

(** A tape on which every draw is the largest number below 1,
    [1 - 2 ^ -52]; there the sums and products of the confetti are not
    representable and get rounded. *)
Definition brink (n : nat) : Q := (4503599627370495 # 4503599627370496)%Q.

(** Scene 2 at the end of a session in which each card was flipped and
    answered by its first control: five points, the scoreboard and the
    confetti on display, the last card still flipped and green. *)
Definition quiz_played : Quiz.State :=
  QuizEvents.perform quiz_page steady
    (concat (replicate 5
       [QuizEvents.CardClick; QuizEvents.Select (Some 0); QuizEvents.Next]))
    (Eff.final (Quiz.init quiz_page steady quiz_blank)).

End Samples.

(** ** Further sample pages and states *)

Module MoreSamples.
Import Samples.

(** Scene 1 without the retry control. *)
Definition lock_page_without_retry : LockScreen.Page :=
  {| LockScreen.monitorWrapper := true;
     LockScreen.monitorShakeContainer := true;
     LockScreen.card := true;
     LockScreen.typedText := true;
     LockScreen.lockBtn := true;
     LockScreen.ignoreBtn := true;
     LockScreen.lockedOverlay := true;
     LockScreen.errorOverlayNew := true;
     LockScreen.padlock := true;
     LockScreen.lockedText := true;
     LockScreen.successCheck := false;
     LockScreen.lockedSubtext := false;
     LockScreen.lockToggle := true;
     LockScreen.retryBtn := false |}.

(** Scene 1 without the element the prompt is typed into. *)
Definition lock_page_without_prompt : LockScreen.Page :=
  {| LockScreen.monitorWrapper := true;
     LockScreen.monitorShakeContainer := true;
     LockScreen.card := true;
     LockScreen.typedText := false;
     LockScreen.lockBtn := true;
     LockScreen.ignoreBtn := true;
     LockScreen.lockedOverlay := true;
     LockScreen.errorOverlayNew := true;
     LockScreen.padlock := true;
     LockScreen.lockedText := true;
     LockScreen.successCheck := true;
     LockScreen.lockedSubtext := true;
     LockScreen.lockToggle := true;
     LockScreen.retryBtn := true |}.

(** The card of [quiz_page]. *)
Definition quiz_card_el : Quiz.QuizCard :=
  {| Quiz.card_inner := true;
     Quiz.scenario_text := true;
     Quiz.back_face := Some {| Quiz.choice_container := true |};
     Quiz.card_rect :=
       {| Quiz.r_top := 120; Quiz.r_left := 200; Quiz.r_width := 400 |} |}.

(** Scene 2 with the notification on display. *)
Definition quiz_notified : Quiz.State :=
  Quiz.set_notif_classList ["notifications"; "show"] quiz_blank.

(** Scene 2 after the notification has been hidden for good. *)
Definition quiz_dismissed : Quiz.State :=
  Quiz.set_notif_display "none"
    (Quiz.set_notif_classList ["notifications"; "hide"] quiz_blank).

(** A user who flips the card, answers, clicks the answer again,
    advances twice and restarts, while a timeout expires. *)
Definition clicks : list QuizEvents.action :=
  [QuizEvents.CardClick; QuizEvents.Select (Some 1); QuizEvents.Select (Some 0);
   QuizEvents.Next; QuizEvents.Timeout 1; QuizEvents.Next;
   QuizEvents.Restart; QuizEvents.Select None].

End MoreSamples.

(** * Properties *)

(** ** Strings *)

Module JsFacts.
Import Js.

Lemma app_nil (s : string) : "" +:+ s = s.
Proof. reflexivity. Qed.

Lemma app_cons (c : ascii) (s t : string) :
  String c s +:+ t = String c (s +:+ t).
Proof. reflexivity. Qed.

Lemma prefix_app (p s : string) :
  String.prefix p s = true ↔ ∃ post, s = p +:+ post.
Proof.
  revert s; induction p as [|c p IH]; intros [|d s]; simpl.
  - split; [intros _; by exists "" | done].
  - split; [intros _; by exists (String d s) | done].
  - split; [done | intros [post H]; discriminate].
  - setoid_rewrite app_cons.
    destruct (Ascii.ascii_dec c d) as [->|Hne].
    + rewrite IH. split; intros [post H]; exists post; congruence.
    + split; [done | intros [post H]; congruence].
Qed.

Lemma includes_app (s p : string) :
  includes s p = true ↔ ∃ pre post, s = pre +:+ p +:+ post.
Proof.
  induction s as [|c s IH].
  - change (includes "" p) with (String.prefix p "" || false).
    rewrite orb_false_r, prefix_app. split.
    + intros [post H]. by exists "", post.
    + intros ([|d pre] & post & H); [by exists post | discriminate].
  - change (includes (String c s) p)
      with (String.prefix p (String c s) || includes s p).
    rewrite orb_true_iff, prefix_app, IH. split.
    + intros [[post H] | (pre & post & H)].
      * by exists "", post.
      * exists (String c pre), post. by rewrite app_cons, H.
    + intros ([|d pre] & post & H).
      * left. by exists post.
      * right. exists pre, post. rewrite app_cons in H. congruence.
Qed.

Lemma toLowerCase_app (a b : string) :
  toLowerCase (a +:+ b) = toLowerCase a +:+ toLowerCase b.
Proof.
  induction a as [|c a IH]; [done|].
  rewrite app_cons. simpl. by rewrite app_cons, IH.
Qed.

Lemma toLowerCase_split (s x y : string) :
  toLowerCase s = x +:+ y →
  ∃ a b, s = a +:+ b ∧ toLowerCase a = x ∧ toLowerCase b = y.
Proof.
  revert s; induction x as [|c x IH]; intros s H.
  - by exists "", s.
  - rewrite app_cons in H.
    destruct s as [|d s]; simpl in H; [discriminate|].
    injection H as Hc Hs. destruct (IH _ Hs) as (a & b & -> & Ha & Hb).
    exists (String d a), b. simpl. by rewrite Hc, Ha.
Qed.

(** Searching the lower-cased string is case-insensitive containment. *)
Lemma includes_toLowerCase (s p : string) :
  includes (toLowerCase s) p = true ↔ contains_ci s p.
Proof.
  rewrite includes_app. split.
  - intros (pre & post & H).
    apply toLowerCase_split in H as (a & b & -> & _ & Hb).
    apply toLowerCase_split in Hb as (m & c & -> & Hm & _).
    by exists a, m, c.
  - intros (pre & mid & post & -> & <-).
    exists (toLowerCase pre), (toLowerCase post).
    by rewrite !toLowerCase_app.
Qed.

End JsFacts.

(** ** Class lists *)

Module ClassListFacts.
Import Js.

Lemma remove_add (c : string) (cl : classList) :
  c ∉ cl → remove c (add c cl) = cl.
Proof.
  intros Hc. unfold add, contains, remove.
  rewrite bool_decide_eq_false_2 by done.
  rewrite filter_app, filter_cons, filter_nil, decide_False, app_nil_r
    by (intros H; by apply H).
  induction cl as [|x cl IH]; [done|].
  apply not_elem_of_cons in Hc as [Hx Hc].
  rewrite filter_cons, decide_True by done. by rewrite IH.
Qed.

Lemma contains_add (c : string) (cl : classList) : contains (add c cl) c = true.
Proof.
  unfold add, contains. destruct (bool_decide (c ∈ cl)) eqn:E; [done|].
  apply bool_decide_eq_true_2, elem_of_app. right. by apply list_elem_of_singleton.
Qed.

Lemma contains_remove (c : string) (cl : classList) :
  contains (remove c cl) c = false.
Proof.
  unfold contains, remove. apply bool_decide_eq_false_2.
  rewrite list_elem_of_filter. by intros [H _].
Qed.

Lemma contains_add_ne (c d : string) (cl : classList) :
  c ≠ d → contains (add d cl) c = contains cl c.
Proof.
  intros Hne. unfold add, contains.
  destruct (bool_decide (d ∈ cl)); [done|].
  apply bool_decide_ext. rewrite elem_of_app, list_elem_of_singleton. tauto.
Qed.

Lemma contains_remove_ne (c d : string) (cl : classList) :
  c ≠ d → contains (remove d cl) c = contains cl c.
Proof.
  intros Hne. unfold remove, contains.
  apply bool_decide_ext. rewrite list_elem_of_filter. tauto.
Qed.

End ClassListFacts.

(** ** Rounding *)

Module Float64Facts.
Import Float64.
Local Open Scope Q_scope.

Ltac qcmp H :=
  first [apply <- Qeq_alt in H | apply <- Qlt_alt in H | apply <- Qgt_alt in H].

Lemma pow2_pos (e : Z) : 0 < pow2 e.
Proof. by apply Qpower_0_lt. Qed.

Lemma pow2_le (a b : Z) : (a <= b)%Z → pow2 a <= pow2 b.
Proof. intros H. by apply Qpower_le_compat_l. Qed.

Lemma pow2_inject (n : Z) : (0 <= n)%Z → pow2 n == inject_Z (2 ^ n).
Proof. intros H. unfold pow2. by rewrite Zpower_Qpower. Qed.

Lemma pow2_minus (a b : Z) : pow2 (a - b) == pow2 a / pow2 b.
Proof. by apply Qpower_minus. Qed.

Lemma pow2_plus (a b : Z) : pow2 (a + b) == pow2 a * pow2 b.
Proof. by apply Qpower_plus. Qed.

Lemma ilog2_spec (x : Q) : 0 < x → pow2 (ilog2 x) <= x ∧ x < pow2 (ilog2 x + 1).
Proof.
  destruct x as [n d]. intros Hx.
  assert (Hn : (0 < n)%Z) by (unfold Qlt in Hx; simpl in Hx; lia).
  pose proof (Z.log2_spec n Hn) as [Hn1 Hn2].
  pose proof (Z.log2_spec (Z.pos d) (Pos2Z.is_pos d)) as [Hd1 Hd2].
  pose proof (Z.log2_nonneg n) as Hln.
  pose proof (Z.log2_nonneg (Z.pos d)) as Hld.
  set (ln := Z.log2 n) in *. set (ld := Z.log2 (Z.pos d)) in *.
  assert (Hup : n # d < pow2 (ln - ld + 1)).
  { replace (ln - ld + 1)%Z with (Z.succ ln - ld)%Z by lia.
    rewrite pow2_minus. apply Qlt_shift_div_l; [apply pow2_pos|].
    rewrite !pow2_inject by lia.
    unfold Qlt, Qmult, inject_Z; simpl. nia. }
  assert (Hlow : pow2 (ln - ld - 1) <= n # d).
  { replace (ln - ld - 1)%Z with (ln - Z.succ ld)%Z by lia.
    rewrite pow2_minus. apply Qle_shift_div_r; [apply pow2_pos|].
    rewrite !pow2_inject by lia.
    unfold Qle, Qmult, inject_Z; simpl. nia. }
  unfold ilog2. cbn [Qnum Qden]. fold ln ld.
  destruct (Qle_bool (pow2 (ln - ld)) (n # d)) eqn:Ht.
  - apply Qle_bool_iff in Ht. done.
  - split; [done|]. replace (ln - ld - 1 + 1)%Z with (ln - ld)%Z by lia.
    apply Qnot_le_lt. intros H. apply Qle_bool_iff in H. congruence.
Qed.

Lemma ilog2_mono (x y : Q) : 0 < x → x <= y → (ilog2 x <= ilog2 y)%Z.
Proof.
  intros Hx Hxy.
  destruct (ilog2_spec x Hx) as [Hx1 _].
  destruct (ilog2_spec y) as [_ Hy2]; [by eapply Qlt_le_trans|].
  destruct (Z_le_gt_dec (ilog2 x) (ilog2 y)) as [|Hgt]; [done|].
  exfalso. apply (Qlt_irrefl y).
  eapply Qlt_le_trans; [exact Hy2|].
  eapply Qle_trans; [|exact Hxy].
  eapply Qle_trans; [|exact Hx1]. apply pow2_le. lia.
Qed.

Lemma nearest_even_floor (q : Q) :
  nearest_even q = Qfloor q ∨ nearest_even q = (Qfloor q + 1)%Z.
Proof.
  unfold nearest_even.
  destruct (Qcompare (q - inject_Z (Qfloor q)) (1 # 2)); [destruct (Z.even _)|..]; auto.
Qed.

Lemma nearest_even_lower (k : Z) (q : Q) : inject_Z k <= q → (k <= nearest_even q)%Z.
Proof.
  intros H. apply Qfloor_resp_le in H. rewrite Qfloor_Z in H.
  destruct (nearest_even_floor q); lia.
Qed.

Lemma nearest_even_upper (k : Z) (q : Q) : q <= inject_Z k → (nearest_even q <= k)%Z.
Proof.
  intros H. pose proof (Qfloor_resp_le _ _ H) as Hf. rewrite Qfloor_Z in Hf.
  destruct (Z.eq_dec (Qfloor q) k) as [He|Hne].
  - unfold nearest_even.
    assert (Hlt : q - inject_Z (Qfloor q) < 1 # 2).
    { rewrite He. lra. }
    destruct (Qcompare (q - inject_Z (Qfloor q)) (1 # 2)) eqn:Hc;
      [qcmp Hc; lra|lia|qcmp Hc; lra].
  - destruct (nearest_even_floor q); lia.
Qed.

Lemma nearest_even_mono (p q : Q) : p <= q → (nearest_even p <= nearest_even q)%Z.
Proof.
  intros H. pose proof (Qfloor_resp_le _ _ H) as Hf.
  destruct (Z.eq_dec (Qfloor p) (Qfloor q)) as [He|Hne].
  - unfold nearest_even. rewrite He.
    destruct (Qcompare (p - inject_Z (Qfloor q)) (1 # 2)) eqn:Hp;
      destruct (Qcompare (q - inject_Z (Qfloor q)) (1 # 2)) eqn:Hq;
      try (destruct (Z.even (Qfloor q))); try lia; exfalso;
      qcmp Hp; qcmp Hq; lra.
  - destruct (nearest_even_floor p), (nearest_even_floor q); lia.
Qed.

Lemma round_pos_nonneg (x : Q) : 0 <= x → 0 <= round_pos x.
Proof.
  intros Hx. unfold round_pos. apply Qmult_le_0_compat; [|apply Qlt_le_weak, pow2_pos].
  change 0 with (inject_Z 0). rewrite <- Zle_Qle. apply nearest_even_lower.
  apply Qle_shift_div_l; [apply pow2_pos|].
  change (inject_Z 0) with 0. by rewrite Qmult_0_l.
Qed.

Lemma round_pos_mono (x y : Q) : 0 < x → x <= y → round_pos x <= round_pos y.
Proof.
  intros Hx Hxy. assert (Hy : 0 < y) by (by eapply Qlt_le_trans).
  pose proof (ilog2_mono x y Hx Hxy) as He.
  destruct (ilog2_spec x Hx) as [_ Hx2]. destruct (ilog2_spec y Hy) as [Hy1 _].
  unfold round_pos.
  set (ex := Z.max (ilog2 x) (-1022)). set (ey := Z.max (ilog2 y) (-1022)).
  destruct (Z.eq_dec ex ey) as [Heq|Hne].
  - rewrite Heq. apply Qmult_le_compat_r; [|apply Qlt_le_weak, pow2_pos].
    rewrite <- Zle_Qle. apply nearest_even_mono.
    apply Qmult_le_compat_r; [done|]. apply Qlt_le_weak, Qinv_lt_0_compat, pow2_pos.
  - assert (Hlt : (ex < ey)%Z) by lia. assert (Hey : ey = ilog2 y) by lia.
    apply Qle_trans with (pow2 (ex + 1)).
    + replace (ex + 1)%Z with (53 + (ex - 52))%Z by lia. rewrite pow2_plus.
      apply Qmult_le_compat_r; [|apply Qlt_le_weak, pow2_pos].
      rewrite (pow2_inject 53) by lia. rewrite <- Zle_Qle. apply nearest_even_upper.
      rewrite <- (pow2_inject 53) by lia.
      apply Qle_shift_div_r; [apply pow2_pos|]. rewrite <- pow2_plus.
      apply Qle_trans with (pow2 (ilog2 x + 1)); [by apply Qlt_le_weak|].
      apply pow2_le. lia.
    + apply Qle_trans with (pow2 ey); [apply pow2_le; lia|].
      replace ey with (52 + (ey - 52))%Z at 1 by lia. rewrite pow2_plus.
      apply Qmult_le_compat_r; [|apply Qlt_le_weak, pow2_pos].
      rewrite (pow2_inject 52) by lia. rewrite <- Zle_Qle. apply nearest_even_lower.
      rewrite <- (pow2_inject 52) by lia.
      apply Qle_shift_div_l; [apply pow2_pos|]. rewrite <- pow2_plus.
      replace (52 + (ey - 52))%Z with (ilog2 y) by lia. done.
Qed.

Lemma round64_mono (x y : Q) : x <= y → round64 x <= round64 y.
Proof.
  intros Hxy. unfold round64.
  destruct (Qcompare x 0) eqn:Hx; destruct (Qcompare y 0) eqn:Hy;
    qcmp Hx; qcmp Hy; try lra.
  - apply round_pos_nonneg. lra.
  - assert (0 <= round_pos (- x)) by (apply round_pos_nonneg; lra). lra.
  - assert (round_pos (- y) <= round_pos (- x)) by (apply round_pos_mono; lra). lra.
  - assert (0 <= round_pos (- x)) by (apply round_pos_nonneg; lra).
    assert (0 <= round_pos y) by (apply round_pos_nonneg; lra). lra.
  - by apply round_pos_mono.
Qed.

Lemma round64_between (a b x : Q) :
  round64 a == a → round64 b == b → a <= x <= b → a <= round64 x <= b.
Proof.
  intros Ha Hb [H1 H2]. split.
  - rewrite <- Ha. by apply round64_mono.
  - rewrite <- Hb. by apply round64_mono.
Qed.
(** A product with a draw, and a sum, stay between representable bounds. *)
Lemma fmul_unit (r c : Q) :
  round64 c == c → 0 <= c → 0 <= r <= 1 → 0 <= fmul r c <= c.
Proof.
  intros Hc Hc0 [Hr0 Hr1]. apply (round64_between 0 c); [reflexivity|done|].
  split; [by apply Qmult_le_0_compat|].
  rewrite <- (Qmult_1_l c) at 2. by apply Qmult_le_compat_r.
Qed.

Lemma fadd_between (lo hi x y : Q) :
  round64 lo == lo → round64 hi == hi →
  lo <= x + y <= hi → lo <= fadd x y <= hi.
Proof. apply round64_between. Qed.

End Float64Facts.

(** ** Scene selector *)

Module SceneSelectorFacts.
Import Js JsFacts SceneSelector.

Lemma sceneId_scene2 search :
  contains_ci search "scene2" → sceneId search = "scene2".
Proof.
  intros H. apply includes_toLowerCase in H. unfold sceneId. by rewrite H.
Qed.

Lemma sceneId_scene3 search :
  ¬ contains_ci search "scene2" → contains_ci search "scene3" →
  sceneId search = "scene3".
Proof.
  intros H2 H3. apply includes_toLowerCase in H3. unfold sceneId.
  destruct (includes (toLowerCase search) "scene2") eqn:E.
  - by apply includes_toLowerCase in E.
  - by rewrite H3.
Qed.

Lemma sceneId_scene1 search :
  ¬ contains_ci search "scene2" → ¬ contains_ci search "scene3" →
  sceneId search = "scene1".
Proof.
  intros H2 H3. unfold sceneId.
  destruct (includes (toLowerCase search) "scene2") eqn:E2;
    [by apply includes_toLowerCase in E2|].
  destruct (includes (toLowerCase search) "scene3") eqn:E3;
    [by apply includes_toLowerCase in E3|].
  by destruct (includes (toLowerCase search) "scene1").
Qed.

Lemma hide_scenes_lookup doc j :
  hide_scenes doc !! j =
  (λ e, if el_scene e then set_display "none" e else e) <$> doc !! j.
Proof. unfold hide_scenes. apply list_lookup_fmap. Qed.

(** Hiding the slides changes no id, so the lookup by id finds the same
    position. *)
Lemma getElementById_hide doc name :
  getElementById (hide_scenes doc) name =
  prod_map id (λ e, if el_scene e then set_display "none" e else e)
    <$> getElementById doc name.
Proof.
  unfold getElementById, hide_scenes. rewrite list_find_fmap.
  f_equal. apply list_find_ext. intros e. simpl. by destruct (el_scene e).
Qed.

(** Once the selected container exists, it is the one slide shown. *)
Lemma setActiveScene_found search doc i e :
  getElementById doc (sceneId search) = Some (i, e) →
  setActiveScene search doc =
  alter (set_display "block") i (hide_scenes doc).
Proof.
  intros H. unfold setActiveScene. by rewrite getElementById_hide, H.
Qed.

Lemma setActiveScene_absent search doc :
  getElementById doc (sceneId search) = None →
  setActiveScene search doc = hide_scenes doc.
Proof.
  intros H. unfold setActiveScene. by rewrite getElementById_hide, H.
Qed.

Lemma visible_slides_hidden doc :
  visible_slides (hide_scenes doc) = [].
Proof.
  unfold visible_slides, hide_scenes.
  induction doc as [|e doc IH]; [done|].
  rewrite fmap_cons, filter_cons, IH.
  case_decide as Hv; [|done]. exfalso. revert Hv.
  unfold visible. by destruct (el_scene e) eqn:E; simpl; rewrite ?E.
Qed.

(** [C3] The scene is chosen by case-insensitive containment with the
    precedence scene2, then scene3, then scene1 (also the default); and
    when the chosen container is a slide of the document, every slide is
    hidden except that one, which is displayed. *)
Theorem setActiveScene_selects (search : string) (doc : document) i e :
  getElementById doc (sceneId search) = Some (i, e) →
  el_scene e = true →
  (contains_ci search "scene2" → sceneId search = "scene2") ∧
  (¬ contains_ci search "scene2" → contains_ci search "scene3" →
     sceneId search = "scene3") ∧
  (¬ contains_ci search "scene2" → ¬ contains_ci search "scene3" →
     sceneId search = "scene1") ∧
  length (setActiveScene search doc) = length doc ∧
  setActiveScene search doc !! i = Some (set_display "block" e) ∧
  (∀ j x, setActiveScene search doc !! j = Some x → el_scene x = true →
          el_display x = if decide (j = i) then "block" else "none") ∧
  (∀ j x, setActiveScene search doc !! j = Some x → el_scene x = false →
          j ≠ i ∧ doc !! j = Some x) ∧
  visible_slides (setActiveScene search doc) = [set_display "block" e].
Proof.
  intros Hfind Hscene.
  split; [apply sceneId_scene2|]. split; [apply sceneId_scene3|].
  split; [apply sceneId_scene1|].
  rewrite (setActiveScene_found _ _ _ _ Hfind).
  apply list_find_Some in Hfind as (Hi & Hid & Hfirst).
  assert (Hhi : hide_scenes doc !! i = Some (set_display "none" e)).
  { by rewrite hide_scenes_lookup, Hi; simpl; rewrite Hscene. }
  split; [by rewrite length_alter; unfold hide_scenes; rewrite length_fmap|].
  split; [by rewrite list_lookup_alter_eq, Hhi|].
  split; [|split].
  - intros j x Hj Hx. case_decide as Hji.
    + subst j. rewrite list_lookup_alter_eq, Hhi in Hj. by injection Hj as <-.
    + rewrite list_lookup_alter_ne, hide_scenes_lookup in Hj by done.
      destruct (doc !! j) as [y|]; [|done]. injection Hj as <-.
      destruct (el_scene y) eqn:E; [done|]. simpl in Hx. congruence.
  - intros j x Hj Hx. destruct (decide (j = i)) as [->|Hji].
    + rewrite list_lookup_alter_eq, Hhi in Hj. injection Hj as <-.
      simpl in Hx. congruence.
    + split; [done|].
      rewrite list_lookup_alter_ne, hide_scenes_lookup in Hj by done.
      destruct (doc !! j) as [y|]; [|done]. injection Hj as <-.
      destruct (el_scene y) eqn:E; [simpl in Hx; congruence | done].
  - apply lookup_lt_Some in Hhi as Hlt.
    rewrite <- (take_drop_middle _ _ _ Hhi) at 1.
    rewrite alter_app_r_alt by (rewrite length_take; lia).
    replace (i - length (take i (hide_scenes doc))) with 0
      by (rewrite length_take; lia).
    simpl. unfold visible_slides. rewrite filter_app, filter_cons.
    pose proof (visible_slides_hidden doc) as Hnone.
    rewrite <- (take_drop_middle _ _ _ Hhi) in Hnone.
    unfold visible_slides in Hnone.
    rewrite filter_app, filter_cons in Hnone.
    apply app_eq_nil in Hnone as [-> Hnone].
    case_decide; [done|]. simpl in Hnone. rewrite Hnone.
    case_decide as Hv; [done|]. exfalso. apply Hv.
    unfold visible. simpl. by rewrite Hscene.
Qed.

(** The deck as the page ships it, opened with a query naming two scenes
    in mixed case. *)
Lemma setActiveScene_selects_witness :
  let doc := [Element "scene1" true ""; Element "scene2" true "";
              Element "scene3" true ""] in
  visible_slides (setActiveScene "?Scene1&SCENE3" doc) =
  [Element "scene3" true "block"].
Proof.
  intros doc.
  apply (setActiveScene_selects "?Scene1&SCENE3" doc 2 (Element "scene3" true ""));
    reflexivity.
Defined.

(** [C10] When no element carries the selected id, the selector returns
    normally with every slide hidden: no slide is visible. *)
Theorem setActiveScene_missing (search : string) (doc : document) :
  getElementById doc (sceneId search) = None →
  setActiveScene search doc = hide_scenes doc ∧
  Forall (λ e, el_scene e = true → el_display e = "none")
         (setActiveScene search doc) ∧
  visible_slides (setActiveScene search doc) = [].
Proof.
  intros H. rewrite (setActiveScene_absent _ _ H).
  split; [done|]. split; [|apply visible_slides_hidden].
  unfold hide_scenes. apply Forall_fmap, Forall_forall. intros e _. simpl.
  by destruct (el_scene e) eqn:E; simpl; [|rewrite E].
Qed.

(** A page that ships only the first two slides, asked for the third. *)
Lemma setActiveScene_missing_witness :
  let doc := [Element "scene1" true "block"; Element "scene2" true ""] in
  visible_slides (setActiveScene "?scene3" doc) = [].
Proof.
  intros doc. apply (setActiveScene_missing "?scene3" doc). reflexivity.
Defined.

End SceneSelectorFacts.

(** ** Running handlers *)

Module EffFacts.
Import Eff.

Section Laws.
Context {S : Type}.

Lemma bind_Ok {A B} (m : M S A) (k : A → M S B) st a st' :
  m st = Ok a st' → bind m k st = k a st'.
Proof. unfold bind. by intros ->. Qed.

Lemma bind_Throw {A B} (m : M S A) (k : A → M S B) st st' :
  m st = Throw st' → bind m k st = Throw st'.
Proof. unfold bind. by intros ->. Qed.

Lemma bind_modify {B} (f : S → S) (k : unit → M S B) st :
  bind (modify f) k st = k tt (f st).
Proof. reflexivity. Qed.

Lemma bind_gets {A B} (f : S → A) (k : A → M S B) st :
  bind (gets f) k st = k (f st) st.
Proof. reflexivity. Qed.

Lemma bind_when_modify {B} (b : bool) (f : S → S) (k : unit → M S B) st :
  bind (when b (modify f)) k st = k tt (if b then f st else st).
Proof. by destruct b. Qed.

Lemma when_modify (b : bool) (f : S → S) st :
  when b (modify f) st = Ok tt (if b then f st else st).
Proof. by destruct b. Qed.

Lemma bind_ret {A B} (a : A) (k : A → M S B) st :
  bind (ret a) k st = k a st.
Proof. reflexivity. Qed.

Lemma bind_assoc {A B C} (m : M S A) (k : A → M S B) (h : B → M S C) st :
  bind (bind m k) h st = bind m (λ a, bind (k a) h) st.
Proof. unfold bind. by destruct (m st). Qed.

End Laws.

End EffFacts.


(** ** Scene 1 *)

Module LockScreenFacts.
Import Js Eff EffFacts LockScreen.

Section WithPage.
Context (pg : Page).

Lemma find_pending_last (ps : list (nat * Callback)) n cb :
  Forall (λ p, p.1 < n) ps →
  list_find (λ p, p.1 = n) (ps ++ [(n, cb)]) = Some (length ps, (n, cb)).
Proof.
  intros Hf. apply list_find_Some. split; [|split].
  - by rewrite lookup_app_r, Nat.sub_diag.
  - done.
  - intros j y Hj Hlt. rewrite lookup_app_l in Hj by done.
    rewrite Forall_lookup in Hf. specialize (Hf _ _ Hj). simpl in Hf. lia.
Qed.

Lemma runErrorSequence_spec st :
  lockBtn pg = true → ignoreBtn pg = true →
  retryBtn pg = true → errorOverlayNew pg = true →
  ∃ st1,
    runErrorSequence pg st = Ok tt st1 ∧
    lockBtn_disabled st1 = true ∧ ignoreBtn_disabled st1 = true ∧
    retry_listeners st1 = retry_listeners st ++ [next_closure st] ∧
    overlay_pointerEvents st1 = "auto" ∧
    (fresh_pending st → fresh_pending st1).
Proof.
  intros Hlock Hign Hretry Hover.
  unfold runErrorSequence, disableButtons. rewrite Hlock, Hign, Hretry, Hover.
  destruct (monitorShakeContainer pg);
    (eexists; split; [reflexivity|]); cbn -[add]; repeat split; try done.
  unfold fresh_pending. cbn. intros Hf. apply Forall_app. split.
  - eapply Forall_impl; [exact Hf|]. intros p Hp. simpl in Hp. lia.
  - repeat constructor.
Qed.

Lemma onRetry_spec h st :
  retryBtn pg = true →
  ∃ st2,
    onRetry pg h st = Ok tt st2 ∧
    retry_listeners st2 = filter (λ x, x ≠ h) (retry_listeners st) ∧
    pending st2 = pending st ++ [(next_pending st, RetryComplete)] ∧
    lockBtn_disabled st2 = lockBtn_disabled st ∧
    ignoreBtn_disabled st2 = ignoreBtn_disabled st.
Proof.
  intros Hretry. unfold onRetry. rewrite Hretry.
  eexists; split; [reflexivity|]. by cbn.
Qed.

Lemma onRetryComplete_spec st :
  lockBtn pg = true → ignoreBtn pg = true → errorOverlayNew pg = true →
  ∃ st3,
    onRetryComplete pg st = Ok tt st3 ∧
    lockBtn_disabled st3 = false ∧ ignoreBtn_disabled st3 = false ∧
    overlay_pointerEvents st3 = "none" ∧
    retry_listeners st3 = retry_listeners st.
Proof.
  intros Hlock Hign Hover. unfold onRetryComplete, disableButtons.
  rewrite Hlock, Hign, Hover. eexists; split; [reflexivity|]. by cbn.
Qed.

(** [C8] After the incorrect choice both controls are disabled and one
    retry handler is bound.  The first click on the retry control runs it
    and unbinds it, so further clicks do nothing; when the reverse
    timeline completes both controls are enabled again and no retry
    handler is left: the exercise awaits a choice as before. *)
Theorem retry_once_then_reenabled (st : State) :
  lockBtn pg = true → ignoreBtn pg = true →
  retryBtn pg = true → errorOverlayNew pg = true →
  ignore_wired st = true →
  awaiting_choice st →
  retry_listeners st = [] →
  fresh_pending st →
  let st1 := step pg ClickIgnore st in
  let st2 := step pg ClickRetry st1 in
  ∃ id,
    lockBtn_disabled st1 = true ∧ ignoreBtn_disabled st1 = true ∧
    retry_listeners st1 = [next_closure st] ∧
    overlay_pointerEvents st1 = "auto" ∧
    retry_listeners st2 = [] ∧
    lockBtn_disabled st2 = true ∧ ignoreBtn_disabled st2 = true ∧
    step pg ClickRetry st2 = st2 ∧
    (id, RetryComplete) ∈ pending st2 ∧
    let st3 := step pg (Fire id) st2 in
    awaiting_choice st3 ∧
    retry_listeners st3 = [] ∧
    overlay_pointerEvents st3 = "none" ∧
    step pg ClickRetry st3 = st3.
Proof.
  intros Hlock Hign Hretry Hover Hwired [Hl Hi] Hls Hfresh. cbn zeta.
  destruct (runErrorSequence_spec st Hlock Hign Hretry Hover)
    as (st1 & Hrun & Hl1 & Hi1 & Hls1 & Hpe1 & Hfresh1).
  specialize (Hfresh1 Hfresh). rewrite Hls in Hls1. simpl in Hls1.
  assert (E1 : step pg ClickIgnore st = st1).
  { cbn [step]. by rewrite Hwired, Hi, Hrun. }
  rewrite E1. clear E1.
  destruct (onRetry_spec (next_closure st) st1 Hretry)
    as (st2 & Hre & Hls2 & Hpend2 & Hl2 & Hi2).
  rewrite Hls1 in Hls2. rewrite filter_cons, decide_False, filter_nil in Hls2
    by (intros H; by apply H).
  assert (E2 : step pg ClickRetry st1 = st2).
  { cbn [step]. rewrite Hls1. cbn [dispatch_retry].
    rewrite Hls1, bool_decide_eq_true_2 by (by apply list_elem_of_singleton).
    by rewrite Hre. }
  rewrite E2. clear E2.
  assert (Hnone : ∀ s, retry_listeners s = [] → step pg ClickRetry s = s).
  { intros s Hs. cbn [step]. by rewrite Hs. }
  exists (next_pending st1). cbn zeta.
  rewrite Hl1, Hi1, Hl2, Hi2, Hls1, Hpe1, Hls2, Hpend2.
  repeat (split; [done|]). split; [by apply Hnone|].
  split; [apply elem_of_app; right; by apply list_elem_of_singleton|].
  cbn [step]. rewrite Hpend2, (find_pending_last _ _ _ Hfresh1).
  cbn [run_callback].
  match goal with
  | |- context [onRetryComplete pg ?s] =>
      destruct (onRetryComplete_spec s Hlock Hign Hover)
        as (st3 & Hdone & Hl3 & Hi3 & Hpe3 & Hls3)
  end.
  rewrite Hdone. cbn [final].
  cbn in Hls3. rewrite Hls2 in Hls3.
  split; [by split|]. split; [done|]. split; [done|]. by apply Hnone.
Qed.

End WithPage.

End LockScreenFacts.

(** ** Scene 2 *)

Module QuizFacts.
Import Js Float64 Float64Facts ClassListFacts Eff EffFacts Quiz QuizStates.
Local Open Scope eff_scope.

Lemma quizData_length : length quizData = 5.
Proof. reflexivity. Qed.

Lemma quizData_lookup idx :
  idx < 5 → ∃ q, quizData !! idx = Some q.
Proof.
  intros H. apply lookup_lt_is_Some. by rewrite quizData_length.
Qed.

(** Every question has three choices, one of them correct. *)
Lemma quizData_choices :
  Forall (λ q, length (choices q) = 3 ∧
               length (filter (λ c, correct c = true) (choices q)) = 1) quizData.
Proof. unfold quizData. repeat constructor. Qed.

Lemma correct_selections_cons btn log :
  correct_selections (btn :: log) =
  (if String.eqb (data_correct btn) "true" then 1 else 0) + correct_selections log.
Proof.
  unfold correct_selections. rewrite filter_cons.
  destruct (String.eqb_spec (data_correct btn) "true"); by case_decide.
Qed.

Section WithPage.
Context (pg : Page) (rand : nat → Q).

Local Abbreviation piece_at := (QuizStates.piece_at rand).
Local Abbreviation piece_of := (QuizStates.piece_of rand).
Local Abbreviation particle := (QuizStates.particle rand).
Local Abbreviation finished := (QuizStates.finished pg).
Local Abbreviation after_finish := (QuizStates.after_finish pg rand).
Local Abbreviation start_state := (QuizStates.start_state pg).

(** *** Shuffling *)

(** The sort only moves elements and only consumes random draws. *)
Lemma draws_to_ret {A} (P : A → Prop) (a : A) : P a → draws_to P (ret a).
Proof. intros H st. exists a, (draws st). split; [by destruct st|done]. Qed.

Lemma draws_to_bind {A B} (P : A → Prop) (R : B → Prop)
    (m : Eff.M State A) (k : A → Eff.M State B) :
  draws_to P m → (∀ a, P a → draws_to R (k a)) → draws_to R (bind m k).
Proof.
  intros Hm Hk st. destruct (Hm st) as (a & d & Ha & Hd & HP).
  destruct (Hk a HP (set_draws d st)) as (b & d' & Hb & Hd' & HQ).
  exists b, d'. rewrite (bind_Ok _ _ _ _ _ Ha). simpl in Hd'.
  split; [by rewrite Hb|]. split; [lia|done].
Qed.

Lemma comparefn_draws : draws_to (λ _, True) (comparefn rand).
Proof. intros st. eexists _, (S (draws st)). split; [reflexivity|]. split; [lia|done]. Qed.

Lemma extendRun_draws isDescending remaining runLength :
  draws_to (λ _, True) (extendRun rand isDescending remaining runLength).
Proof.
  revert runLength; induction remaining as [|remaining IH]; intros runLength.
  - by apply draws_to_ret.
  - cbn [extendRun]. eapply draws_to_bind; [apply comparefn_draws|].
    intros order _. destruct isDescending, (negative order);
      auto using draws_to_ret.
Qed.

Lemma countAndMakeRun_draws {A} (a : list A) :
  draws_to (λ run, run.1 ≡ₚ a) (countAndMakeRun rand a).
Proof.
  unfold countAndMakeRun. destruct (length a <? 2); [by apply draws_to_ret|].
  eapply draws_to_bind; [apply comparefn_draws|]. intros order _.
  eapply draws_to_bind; [apply extendRun_draws|]. intros runLength _.
  apply draws_to_ret. cbn [fst]. destruct (negative order); [|done].
  by rewrite reverse_Permutation, take_drop.
Qed.

Lemma findInsertionPoint_draws fuel left right :
  draws_to (λ _, True) (findInsertionPoint rand fuel left right).
Proof.
  revert left right; induction fuel as [|fuel IH]; intros left right.
  - by apply draws_to_ret.
  - cbn [findInsertionPoint]. destruct (left <? right); [|by apply draws_to_ret].
    eapply draws_to_bind; [apply comparefn_draws|].
    intros order _. by destruct (negative order).
Qed.

Lemma moveTo_Permutation {A} (start left : nat) (pivot : A) (a : list A) :
  a !! start = Some pivot → moveTo start left pivot a ≡ₚ a.
Proof.
  intros H. unfold moveTo. rewrite <- Permutation_middle, take_drop.
  symmetry. by apply delete_Permutation.
Qed.

Lemma binaryInsertionSort_draws {A} count start (a : list A) :
  draws_to (λ l, l ≡ₚ a) (binaryInsertionSort rand count start a).
Proof.
  revert start a; induction count as [|count IH]; intros start a.
  - by apply draws_to_ret.
  - cbn [binaryInsertionSort]. destruct (a !! start) as [pivot|] eqn:Hp;
      [|by apply draws_to_ret].
    eapply draws_to_bind; [apply findInsertionPoint_draws|]. intros left _.
    intros st. destruct (IH (S start) (moveTo start left pivot a) st)
      as (l & d & Hl & Hd & Hperm).
    exists l, d. split; [done|]. split; [done|].
    by rewrite Hperm, moveTo_Permutation.
Qed.

Lemma sort_random_spec {A} (l : list A) st :
  ∃ l' d, sort_random rand l st = Ok l' (set_draws d st) ∧
          draws st ≤ d ∧ l' ≡ₚ l.
Proof.
  assert (H : draws_to (λ l', l' ≡ₚ l) (sort_random rand l)).
  { unfold sort_random. destruct (length l <? 2); [by apply draws_to_ret|].
    eapply draws_to_bind; [apply countAndMakeRun_draws|]. intros run Hrun.
    intros s. destruct (binaryInsertionSort_draws
      (length l - run.2) run.2 run.1 s) as (l' & d & Hl & Hd & Hperm).
    exists l', d. split; [done|]. split; [done|]. by rewrite Hperm. }
  destruct (H st) as (l' & d & ?). by exists l', d.
Qed.

(** The binary search ends because its interval is empty, not because
    the fuel is spent: more fuel changes nothing. *)
Lemma findInsertionPoint_fuel fuel fuel' left right st :
  right - left ≤ fuel → right - left ≤ fuel' →
  findInsertionPoint rand fuel left right st =
  findInsertionPoint rand fuel' left right st.
Proof.
  revert fuel' left right st; induction fuel as [|fuel IH];
    intros fuel' left right st H1 H2.
  - destruct fuel' as [|fuel']; [done|]. cbn [findInsertionPoint].
    destruct (Nat.ltb_spec left right); [lia|done].
  - destruct fuel' as [|fuel'].
    + cbn [findInsertionPoint]. destruct (Nat.ltb_spec left right); [lia|done].
    + cbn [findInsertionPoint]. destruct (Nat.ltb_spec left right); [|done].
      assert ((right - left) / 2 < right - left) by (apply Nat.div_lt; lia).
      unfold bind. destruct (comparefn rand st) as [order s|s]; [|done].
      destruct (negative order); apply IH; lia.
Qed.


(** *** The notification never interferes

    Showing, hiding and re-arming the onboarding notification return
    normally and touch only the notification and the timers. *)

Lemma hideNotification_core st :
  ∃ st', hideNotification pg st = Ok tt st' ∧ core st' = core st.
Proof.
  unfold hideNotification. destruct (negb (notificationEl pg)); [by exists st|].
  rewrite bind_gets. destruct (negb (contains _ _)); [by exists st|].
  by eexists.
Qed.

Lemma arm_notification_core idx st :
  ∃ st',
    when (notificationEl pg)
      (t <- gets notif_timeout ;;
       match t with
       | Some (S _ as id) => clearTimeout id
       | _ => ret tt
       end ;;
       if (idx =? 0)%nat
       then (id <- setTimeout ShowNotification 1000 ;;
             modify (set_notif_timeout (Some id)))
       else hideNotification pg) st = Ok tt st' ∧
    core st' = core st.
Proof.
  destruct (notificationEl pg); [|by exists st]. simpl. rewrite bind_gets.
  destruct (idx =? 0).
  - destruct (notif_timeout st) as [[|n]|]; by eexists.
  - destruct (notif_timeout st) as [[|n]|].
    + rewrite bind_ret. apply hideNotification_core.
    + unfold clearTimeout. rewrite bind_modify.
      match goal with
      | |- context [hideNotification pg ?s] =>
          destruct (hideNotification_core s) as (st' & Hh & Hcore)
      end.
      exists st'. split; [done|]. by rewrite Hcore.
    + rewrite bind_ret. apply hideNotification_core.
Qed.

(** *** Rendering *)

Lemma forEach_append (l : list Choice) st :
  forEach l (λ choice,
    let btn := createButton choice in
    when (backChoices pg)
      (modify (λ st, set_choice_buttons (choice_buttons st ++ [btn]) st))) st =
  Ok tt (if backChoices pg
         then set_choice_buttons (choice_buttons st ++ (createButton <$> l)) st
         else st).
Proof.
  revert st; induction l as [|c l IH]; intros st.
  - simpl. destruct (backChoices pg); [|done].
    rewrite app_nil_r. by destruct st.
  - simpl. rewrite bind_when_modify, IH.
    destruct (backChoices pg); [|done]. simpl.
    by rewrite <- app_assoc.
Qed.

(** What one call of [renderCard] does to the state when the card exists. *)
Lemma renderCard_spec c idx q st :
  quiz_card pg = Some c → quizData !! idx = Some q →
  ∃ shuffled st',
    renderCard pg rand idx st = Ok tt st' ∧
    shuffled ≡ₚ choices q ∧
    currentIndex st' = currentIndex st ∧
    score st' = score st ∧
    answered st' = false ∧
    choice_buttons st' =
      (if backChoices pg then createButton <$> shuffled else choice_buttons st) ∧
    explanations st' =
      (if back pg then tail (explanations st) else explanations st) ∧
    front_textContent st' =
      (if front pg then scenario q else front_textContent st) ∧
    quizCard_classList st' =
      remove "flipped" (remove "wrong" (remove "correct" (quizCard_classList st))) ∧
    nextContainer_display st' =
      (if nextContainer pg then "none" else nextContainer_display st) ∧
    nextButton_textContent st' =
      (if nextButton pg
       then (if idx <? length quizData - 1 then "Next" else "Finish")
       else nextButton_textContent st) ∧
    scoreText_textContent st' = scoreText_textContent st ∧
    scoreboard_display st' = scoreboard_display st ∧
    confetti st' = confetti st ∧
    launches st' = launches st ∧
    draws st ≤ draws st' ∧
    (∃ s d, sort_random rand (choices q) s = Ok shuffled (set_draws d s)).
Proof.
  intros Hc Hq.
  assert (HqC : quizCard pg = true) by (unfold quizCard; by rewrite Hc).
  unfold renderCard. rewrite Hq, HqC.
  assert (H1 : ∀ s,
    when (front pg)
      (d <- defined (Some q) ;; modify (set_front_textContent (scenario d))) s =
    Ok tt (if front pg then set_front_textContent (scenario q) s else s))
    by (intros; by destruct (front pg)).
  rewrite (bind_Ok _ _ _ _ _ (H1 _)). clear H1.
  rewrite !bind_when_modify. unfold defined. rewrite bind_ret.
  match goal with
  | |- context [bind (sort_random rand ?l) _ ?s] =>
      destruct (sort_random_spec l s) as (sh & d & Hs & Hd & Hp)
  end.
  rewrite (bind_Ok _ _ _ _ _ Hs), (bind_Ok _ _ _ _ _ (forEach_append _ _)).
  rewrite bind_modify. unfold deref. rewrite bind_ret, bind_modify.
  rewrite !bind_when_modify, bind_ret, bind_modify.
  match goal with
  | |- context [when (notificationEl pg) ?m ?s] =>
      destruct (arm_notification_core idx s) as (st' & Hst' & Hcore)
  end.
  exists sh, st'. split; [exact Hst'|]. split; [exact Hp|].
  clear Hst'.
  repeat match goal with |- _ ∧ _ => split end; [..|by eexists _, _].
  all: match goal with
       | |- ?f ?s = _ => change (f s) with (f (core s)); rewrite Hcore
       | |- _ ≤ ?f ?s => change (f s) with (f (core s)); rewrite Hcore
       end; simpl.
  all: repeat match goal with |- context [if ?b then _ else _] => destruct b end;
       simpl; try done.
Qed.

(** *** Selecting *)

(** A control of the card can only be clicked when the choice container
    exists, and then so do the back face and the card. *)
Lemma backChoices_back : backChoices pg = true → back pg = true.
Proof.
  unfold backChoices, back. destruct (quiz_card pg) as [c|]; [|done].
  by destruct (back_face c).
Qed.

Lemma backChoices_quizCard : backChoices pg = true → quizCard pg = true.
Proof. unfold backChoices, quizCard. by destruct (quiz_card pg). Qed.

Lemma onSelectChoice_answered target st :
  answered st = true → onSelectChoice pg target st = Ok tt st.
Proof. intros H. unfold onSelectChoice. by rewrite bind_gets, H. Qed.

Lemma onSelectChoice_spec k btn st :
  backChoices pg = true →
  answered st = false →
  choice_buttons st !! k = Some btn →
  ∃ st',
    onSelectChoice pg (Some k) st = Ok tt st' ∧
    answered st' = true ∧
    score st' = score st + (if String.eqb (data_correct btn) "true" then 1 else 0) ∧
    explanations st' = explanations st ++ [data_message btn] ∧
    currentIndex st' = currentIndex st ∧
    length (choice_buttons st') = length (choice_buttons st) ∧
    Forall (λ b, b_disabled b = true) (choice_buttons st') ∧
    nextContainer_display st' =
      (if nextContainer pg then "block" else nextContainer_display st) ∧
    scoreText_textContent st' = scoreText_textContent st ∧
    scoreboard_display st' = scoreboard_display st ∧
    confetti st' = confetti st ∧
    launches st' = launches st ∧
    draws st' = draws st.
Proof.
  intros Hbc Hans Hk.
  pose proof (backChoices_back Hbc) as Hback.
  pose proof (backChoices_quizCard Hbc) as Hcard.
  unfold onSelectChoice.
  rewrite bind_gets, Hans, bind_modify, bind_gets. simpl. rewrite Hk.
  unfold defined. rewrite bind_ret. rewrite Hbc, Hback, Hcard.
  assert (Hdis : ∀ (f : nat → Button → bool) (l : list Button),
    Forall (λ b, b_disabled b = true)
      (imap (λ i b, if f i b then add_class "correct" (disable b) else disable b) l)).
  { intros f l. apply Forall_lookup. intros i b. rewrite list_lookup_imap.
    destruct (l !! i) as [b'|]; [|done]. simpl. intros [= <-].
    by destruct (f i b'). }
  destruct (String.eqb (data_correct btn) "true");
    destruct (nextContainer pg);
    (eexists; split; [reflexivity|]); simpl;
    rewrite ?length_imap, ?length_alter;
    repeat split; try done; try lia; apply Hdis.
Qed.

(** *** Confetti *)

Lemma confettiPiece_spec i st :
  confettiPiece rand i st =
  Ok tt (set_draws (4 + draws st)
           (set_confetti (confetti st ++ [piece_at (draws st) i]) st)).
Proof. reflexivity. Qed.

Lemma set_draws_confetti d1 d2 c0 c1 c2 d0 st :
  d1 = d2 → c1 = c2 →
  set_draws d1 (set_confetti c1 (set_draws d0 (set_confetti c0 st))) =
  set_draws d2 (set_confetti c2 st).
Proof. by intros -> ->. Qed.

Lemma confetti_loop n : ∀ s d st,
  draws st = d + 4 * s →
  for_loop n s (confettiPiece rand) st =
  Ok tt (set_draws (d + 4 * (s + n))
           (set_confetti (confetti st ++ (piece_of d <$> seq s n)) st)).
Proof.
  induction n as [|n IH]; intros s d st Hd.
  - replace (s + 0) with s by lia. rewrite <- Hd.
    simpl seq. rewrite fmap_nil, app_nil_r. by destruct st.
  - change (for_loop (S n) s (confettiPiece rand) st)
      with (bind (confettiPiece rand s) (λ _, for_loop n (S s) (confettiPiece rand)) st).
    rewrite (bind_Ok _ _ _ _ _ (confettiPiece_spec s st)).
    rewrite (IH (S s) d) by (cbn [draws set_draws]; lia).
    f_equal. apply set_draws_confetti; [lia|].
    cbn [confetti set_draws set_confetti seq]. rewrite fmap_cons, <- app_assoc.
    unfold piece_of at 2. by rewrite <- Hd.
Qed.

Lemma launchConfetti_spec st :
  launchConfetti pg rand st =
  Ok tt (if confettiContainer pg
         then set_draws (draws st + 4 * pieceCount)
                (set_confetti (piece_of (draws st) <$> seq 0 pieceCount)
                   (set_launches (S (launches st)) st))
         else set_launches (S (launches st)) st).
Proof.
  unfold launchConfetti. rewrite bind_modify.
  destruct (confettiContainer pg); cbn [negb]; [|done].
  rewrite bind_modify.
  rewrite (confetti_loop pieceCount 0 (draws st)) by (simpl; lia).
  done.
Qed.

(** *** Advancing *)

Lemma goToNext_render st :
  S (currentIndex st) < 5 →
  goToNext pg rand st =
  renderCard pg rand (S (currentIndex st)) (set_currentIndex (S (currentIndex st)) st).
Proof.
  intros H. unfold goToNext. rewrite bind_modify, bind_gets.
  cbn [currentIndex set_currentIndex]. rewrite quizData_length.
  by apply Nat.ltb_lt in H as ->.
Qed.

Lemma goToNext_finish st :
  5 ≤ S (currentIndex st) →
  goToNext pg rand st = Ok tt (after_finish st).
Proof.
  intros H. unfold goToNext. rewrite bind_modify, bind_gets.
  cbn [currentIndex set_currentIndex]. rewrite quizData_length.
  apply Nat.ltb_ge in H as ->. rewrite bind_gets, !bind_when_modify.
  cbn [score set_currentIndex]. unfold after_finish.
  destruct (score st =? 5).
  - rewrite launchConfetti_spec. unfold finished.
    by destruct (scoreText pg), (scoreboard pg).
  - unfold finished. by destruct (scoreText pg), (scoreboard pg).
Qed.

Lemma after_finish_fields st :
  let st' := after_finish st in
  currentIndex st' = S (currentIndex st) ∧
  score st' = score st ∧
  answered st' = answered st ∧
  scoreText_textContent st' =
    (if scoreText pg then "Score: " +:+ show_nat (score st) +:+ "/5"
     else scoreText_textContent st) ∧
  scoreboard_display st' =
    (if scoreboard pg then "flex" else scoreboard_display st) ∧
  launches st' = launches st + (if score st =? 5 then 1 else 0) ∧
  confetti st' =
    (if (score st =? 5) && confettiContainer pg
     then piece_of (draws st) <$> seq 0 pieceCount
     else confetti st).
Proof.
  unfold after_finish, finished.
  destruct (score st =? 5), (confettiContainer pg), (scoreText pg), (scoreboard pg);
    cbn -[piece_of pieceCount String.append seq]; repeat split; lia.
Qed.

(** *** Starting a session *)

Lemma start_eq restart st :
  start pg rand restart st = renderCard pg rand 0 (start_state restart st).
Proof.
  unfold start, start_state. destruct restart.
  - unfold restartQuiz. by rewrite !bind_modify, !bind_when_modify.
  - unfold init. by rewrite !bind_modify.
Qed.

Lemma start_state_fields restart st :
  let st1 := start_state restart st in
  currentIndex st1 = 0 ∧ score st1 = 0 ∧
  scoreText_textContent st1 = scoreText_textContent st ∧
  scoreboard_display st1 =
    (if restart && scoreboard pg then "none" else scoreboard_display st) ∧
  launches st1 = launches st ∧
  confetti st1 = (if restart && confettiContainer pg then [] else confetti st).
Proof.
  unfold start_state.
  by destruct restart, (scoreboard pg), (confettiContainer pg).
Qed.

(** *** A whole session *)

Lemma answerAll_spec picks : ∀ i st q shuffled,
  backChoices pg = true →
  quizData !! i = Some q →
  shuffled ≡ₚ choices q →
  choice_buttons st = createButton <$> shuffled →
  currentIndex st = i →
  answered st = false →
  i + length picks = 5 →
  Forall (λ k, k < 3) picks →
  ∃ log st',
    answerAll pg rand picks st = Ok log st' ∧
    length log = length picks ∧
    Forall2 (λ b q, ∃ c, c ∈ choices q ∧ b = createButton c)
            log (drop i quizData) ∧
    score st' = score st + correct_selections log ∧
    scoreText_textContent st' =
      (if scoreText pg then "Score: " +:+ show_nat (score st') +:+ "/5"
       else scoreText_textContent st) ∧
    scoreboard_display st' =
      (if scoreboard pg then "flex" else scoreboard_display st) ∧
    launches st' = launches st + (if score st' =? 5 then 1 else 0) ∧
    (score st' ≠ 5 → confetti st' = confetti st) ∧
    (score st' = 5 → confettiContainer pg = true →
       ∃ d, confetti st' = piece_of d <$> seq 0 pieceCount).
Proof.
  induction picks as [|k rest IH]; intros i st q sh Hbc Hq Hp Hbs Hi Hans Hlen Hks.
  { apply lookup_lt_Some in Hq. rewrite quizData_length in Hq. simpl in Hlen. lia. }
  assert (Hcard : ∃ c, quiz_card pg = Some c).
  { apply backChoices_quizCard in Hbc. unfold quizCard in Hbc.
    destruct (quiz_card pg); [by eexists | done]. }
  destruct Hcard as [cd Hcd].
  pose proof quizData_choices as Hall. rewrite Forall_lookup in Hall.
  destruct (Hall _ _ Hq) as [Hq3 _].
  apply Forall_cons in Hks as [Hk Hks].
  assert (Hsh3 : length sh = 3) by (by rewrite Hp).
  destruct (lookup_lt_is_Some_2 sh k) as [c Hc]; [lia|].
  assert (Hbtn : choice_buttons st !! k = Some (createButton c)).
  { by rewrite Hbs, list_lookup_fmap, Hc. }
  assert (Hcq : c ∈ choices q).
  { rewrite <- Hp. by eapply list_elem_of_lookup_2. }
  destruct (onSelectChoice_spec k _ st Hbc Hans Hbtn)
    as (st1 & Hsel & _ & Hsc1 & _ & Hci1 & _ & _ & _ & Htx1 & Hsb1 & Hcf1 & Hl1 & _).
  cbn [answerAll]. rewrite bind_gets, Hbtn. unfold defined at 1. rewrite bind_ret.
  rewrite (bind_Ok _ _ _ _ _ Hsel).
  rewrite (drop_S _ _ _ Hq).
  destruct rest as [|k' rest'].
  - (* the last card: the scoreboard comes up *)
    simpl in Hlen.
    assert (Hfin : 5 ≤ S (currentIndex st1)) by lia.
    rewrite (bind_Ok _ _ _ _ _ (goToNext_finish st1 Hfin)).
    cbn [answerAll]. rewrite !bind_ret.
    destruct (after_finish_fields st1) as (_ & Hs & _ & Ht & Hb & Hl & Hc').
    rewrite (drop_ge quizData (S i)) by (rewrite quizData_length; lia).
    exists [createButton c], (after_finish st1). split; [done|]. split; [done|].
    split; [repeat constructor; by exists c|].
    rewrite Hs, Ht, Hb, Hl, Hc', Htx1, Hsb1, Hl1, Hcf1.
    split; [rewrite correct_selections_cons, Hsc1; unfold correct_selections; simpl; lia|].
    split; [done|]. split; [done|]. split; [done|]. split.
    + intros H5. apply Nat.eqb_neq in H5. by rewrite H5.
    + intros H5 Hcc. apply Nat.eqb_eq in H5. rewrite H5, Hcc. by eexists.
  - (* another card follows *)
    simpl in Hlen.
    assert (Hnx : S (currentIndex st1) < 5) by lia.
    destruct (quizData_lookup (S i)) as [q' Hq']; [lia|].
    pose proof (goToNext_render st1 Hnx) as Hgo. rewrite Hci1, Hi in Hgo.
    destruct (renderCard_spec cd (S i) q' (set_currentIndex (S i) st1) Hcd Hq')
      as (sh' & st2 & Hren & Hp' & Hci2 & Hsc2 & Hans2 & Hbs2 & _ & _ & _ & _ & _
          & Htx2 & Hsb2 & Hcf2 & Hl2 & _).
    rewrite Hbc in Hbs2. rewrite Hren in Hgo.
    rewrite (bind_Ok _ _ _ _ _ Hgo).
    destruct (IH (S i) st2 q' sh' Hbc Hq' Hp' Hbs2 Hci2 Hans2 ltac:(simpl; lia) Hks)
      as (log & st' & Hrun & Hlog & Hf2 & Hsc & Htx & Hsb & Hl & Hcf & Hcf').
    rewrite (bind_Ok _ _ _ _ _ Hrun).
    exists (createButton c :: log), st'. split; [done|].
    split; [simpl; by rewrite Hlog|].
    split; [constructor; [by exists c | done]|].
    cbn [score scoreText_textContent scoreboard_display launches confetti
         set_currentIndex] in *.
    split; [rewrite correct_selections_cons, Hsc, Hsc2, Hsc1; lia|].
    split; [by rewrite Htx, Htx2, Htx1|].
    split; [by rewrite Hsb, Hsb2, Hsb1|].
    split; [by rewrite Hl, Hl2, Hl1|].
    split; [intros H5; by rewrite (Hcf H5), Hcf2, Hcf1 | done].
Qed.

(** *** The claims about one card *)

Lemma correct_buttons (l : list Choice) :
  length (filter (λ b, data_correct b = "true") (createButton <$> l)) =
  length (filter (λ c, correct c = true) l).
Proof.
  induction l as [|c l IH]; [done|].
  rewrite fmap_cons, !filter_cons. simpl.
  destruct (correct c); simpl; repeat case_decide; simpl; congruence.
Qed.

(** [C4] The quiz holds five questions of three choices each, one of them
    correct, and rendering any of them into a page that has the choice
    container leaves three choice controls there, one of them flagged
    correct. *)
Theorem renderCard_three_choices (idx : nat) (st : State) :
  backChoices pg = true →
  idx < 5 →
  length quizData = 5 ∧
  Forall (λ q, length (choices q) = 3 ∧
               length (filter (λ c, correct c = true) (choices q)) = 1) quizData ∧
  ∃ st', renderCard pg rand idx st = Ok tt st' ∧
         length (choice_buttons st') = 3 ∧
         length (filter (λ b, data_correct b = "true") (choice_buttons st')) = 1.
Proof.
  intros Hbc Hidx. split; [apply quizData_length|].
  split; [apply quizData_choices|].
  destruct (quizData_lookup idx Hidx) as [q Hq].
  pose proof (backChoices_quizCard Hbc) as Hcard. unfold quizCard in Hcard.
  destruct (quiz_card pg) as [c|] eqn:Hc; [|done].
  destruct (renderCard_spec c idx q st Hc Hq)
    as (sh & st' & Hren & Hp & _ & _ & _ & Hbs & _).
  pose proof quizData_choices as Hall. rewrite Forall_lookup in Hall.
  destruct (Hall _ _ Hq) as [H3 H1].
  exists st'. split; [done|]. rewrite Hbs, Hbc.
  split; [by rewrite length_fmap, Hp|].
  by rewrite correct_buttons, Hp.
Qed.

(** [C2] On a freshly rendered card the first selection sets [answered],
    adds one to the score exactly when the chosen choice is correct, and
    appends its explanation; any later selection attempt on that card
    returns at once and leaves the whole state as it is. *)
Theorem select_at_most_once (idx k : nat) (later : option nat) (st0 : State) :
  backChoices pg = true →
  idx < 5 →
  k < 3 →
  ∃ q c st st1,
    quizData !! idx = Some q ∧ c ∈ choices q ∧
    renderCard pg rand idx st0 = Ok tt st ∧
    answered st = false ∧
    choice_buttons st !! k = Some (createButton c) ∧
    onSelectChoice pg (Some k) st = Ok tt st1 ∧
    answered st1 = true ∧
    score st1 = score st0 + (if correct c then 1 else 0) ∧
    explanations st1 = explanations st ++ [message c] ∧
    onSelectChoice pg later st1 = Ok tt st1.
Proof.
  intros Hbc Hidx Hk.
  destruct (quizData_lookup idx Hidx) as [q Hq].
  pose proof (backChoices_quizCard Hbc) as Hcard. unfold quizCard in Hcard.
  destruct (quiz_card pg) as [cd|] eqn:Hc; [|done].
  destruct (renderCard_spec cd idx q st0 Hc Hq)
    as (sh & st & Hren & Hp & _ & Hsc & Hans & Hbs & _).
  rewrite Hbc in Hbs.
  pose proof quizData_choices as Hall. rewrite Forall_lookup in Hall.
  destruct (Hall _ _ Hq) as [H3 _].
  destruct (lookup_lt_is_Some_2 sh k) as [c Hck]; [rewrite Hp; lia|].
  assert (Hbtn : choice_buttons st !! k = Some (createButton c))
    by (by rewrite Hbs, list_lookup_fmap, Hck).
  destruct (onSelectChoice_spec k _ st Hbc Hans Hbtn)
    as (st1 & Hsel & Hans1 & Hsc1 & Hex1 & _).
  exists q, c, st, st1. split; [done|].
  split; [rewrite <- Hp; by eapply list_elem_of_lookup_2|].
  repeat (split; [done|]).
  split; [rewrite Hsc1, Hsc; simpl; by destruct (correct c)|].
  split; [done|]. by apply onSelectChoice_answered.
Qed.

(** [C5] The card is used without a null check: on a page that has the
    quiz scene but no [#quiz-card], rendering any card throws, and so
    does the set-up of the scene.  (The guard is there two statements
    earlier, for the back face of the same card.) *)
Theorem renderCard_throws_without_card (idx : nat) (st : State) :
  quiz_card pg = None →
  returns (renderCard pg rand idx st) = false ∧
  returns (init pg rand st) = false.
Proof.
  intros Hc.
  assert (H : ∀ i s, returns (renderCard pg rand i s) = false).
  { intros i s. unfold renderCard, front, backChoices, back, quizCard.
    rewrite Hc. cbn [when]. rewrite !bind_ret.
    destruct (quizData !! i) as [q|]; [|done]. unfold defined.
    rewrite bind_ret.
    destruct (sort_random_spec (choices q) s) as (sh & d & Hs & _).
    rewrite (bind_Ok _ _ _ _ _ Hs).
    assert (Hf : ∀ (l : list Choice) s',
      forEach l (λ choice, ret tt : Eff.M State unit) s' = Ok tt s')
      by (induction l; [done | intros; simpl; by rewrite bind_ret]).
    by rewrite (bind_Ok _ _ _ _ _ (Hf _ _)). }
  split; [apply H|]. unfold init. rewrite !bind_modify. apply H.
Qed.

(** The card is rendered first; the notification is dealt with last. *)
Lemma renderCard_arm c idx q st :
  quiz_card pg = Some c → quizData !! idx = Some q →
  ∃ s, renderCard pg rand idx st = QuizEvents.armNotification pg idx s ∧
       timers s = timers st ∧ timer_count s = timer_count st ∧
       notif_timeout s = notif_timeout st ∧
       notif_classList s = notif_classList st ∧
       notif_display s = notif_display st.
Proof.
  intros Hc Hq.
  assert (HqC : quizCard pg = true) by (unfold quizCard; by rewrite Hc).
  unfold renderCard. rewrite Hq, HqC.
  assert (H1 : ∀ s,
    when (front pg)
      (d <- defined (Some q) ;; modify (set_front_textContent (scenario d))) s =
    Ok tt (if front pg then set_front_textContent (scenario q) s else s))
    by (intros; by destruct (front pg)).
  rewrite (bind_Ok _ _ _ _ _ (H1 _)). clear H1.
  rewrite !bind_when_modify. unfold defined. rewrite bind_ret.
  match goal with
  | |- context [bind (sort_random rand ?l) _ ?s] =>
      destruct (sort_random_spec l s) as (sh & d & Hs & _)
  end.
  rewrite (bind_Ok _ _ _ _ _ Hs), (bind_Ok _ _ _ _ _ (forEach_append _ _)).
  rewrite bind_modify. unfold deref. rewrite bind_ret, bind_modify.
  rewrite !bind_when_modify, bind_ret, bind_modify.
  eexists. split; [reflexivity|].
  by destruct (front pg), (backChoices pg), (back pg), (nextContainer pg),
    (nextButton pg).
Qed.

(** [C7] Whatever the session was, a restart returns with index and
    score at zero and [answered] unset, the scoreboard hidden, the
    confetti container emptied and question 0 rendered afresh: its
    scenario on the front, its three choices as new controls in some
    order, the explanation of the previous answer removed, the card
    turned to its front with neither result colour, the advance control
    hidden and labelled [Next], and the notification re-armed: the
    timeout remembered on the element is cancelled and a new one of one
    second, which will show the notification, is pending in its place. *)
Theorem restartQuiz_resets (c : QuizCard) (st : State) :
  quiz_card pg = Some c →
  ∃ q0 shuffled st',
    quizData !! 0 = Some q0 ∧ shuffled ≡ₚ choices q0 ∧
    restartQuiz pg rand st = Ok tt st' ∧
    currentIndex st' = 0 ∧ score st' = 0 ∧ answered st' = false ∧
    scoreboard_display st' =
      (if scoreboard pg then "none" else scoreboard_display st) ∧
    confetti st' = (if confettiContainer pg then [] else confetti st) ∧
    front_textContent st' =
      (if front pg then scenario q0 else front_textContent st) ∧
    choice_buttons st' =
      (if backChoices pg then createButton <$> shuffled else choice_buttons st) ∧
    explanations st' =
      (if back pg then tail (explanations st) else explanations st) ∧
    nextContainer_display st' =
      (if nextContainer pg then "none" else nextContainer_display st) ∧
    nextButton_textContent st' =
      (if nextButton pg then "Next" else nextButton_textContent st) ∧
    quizCard_classList st' =
      remove "flipped" (remove "wrong" (remove "correct" (quizCard_classList st))) ∧
    contains (quizCard_classList st') "flipped" = false ∧
    contains (quizCard_classList st') "correct" = false ∧
    contains (quizCard_classList st') "wrong" = false ∧
    (∀ other, other ≠ "flipped" → other ≠ "correct" → other ≠ "wrong" →
       contains (quizCard_classList st') other =
       contains (quizCard_classList st) other) ∧
    notif_timeout st' =
      (if notificationEl pg then Some (S (timer_count st)) else notif_timeout st) ∧
    timers st' =
      (if notificationEl pg
       then match notif_timeout st with
            | Some (S n) => filter (λ t, t_id t ≠ S n) (timers st)
            | _ => timers st
            end ++
            [{| t_id := S (timer_count st); t_delay := 1000;
                t_action := ShowNotification |}]
       else timers st) ∧
    notif_classList st' = notif_classList st ∧
    notif_display st' = notif_display st.
Proof.
  intros Hc. destruct (quizData_lookup 0) as [q0 Hq0]; [lia|].
  pose proof (start_eq true st) as Hstart. unfold start in Hstart.
  destruct (renderCard_spec c 0 q0 (start_state true st) Hc Hq0)
    as (sh & st' & Hren & Hp & Hci & Hsc & Hans & Hbs & Hex & Hfr & Hcl & Hnc
        & Hnb & _ & Hsb & Hcf & _).
  destruct (renderCard_arm c 0 q0 (start_state true st) Hc Hq0)
    as (s & Harm & Ht & Hcnt & Hto & Hncl & Hnd).
  rewrite Hren in Harm. symmetry in Harm.
  assert (Hs0 : timers (start_state true st) = timers st ∧
                timer_count (start_state true st) = timer_count st ∧
                notif_timeout (start_state true st) = notif_timeout st ∧
                notif_classList (start_state true st) = notif_classList st ∧
                notif_display (start_state true st) = notif_display st ∧
                quizCard_classList (start_state true st) = quizCard_classList st).
  { unfold start_state. by destruct (scoreboard pg), (confettiContainer pg). }
  destruct Hs0 as (Ht0 & Hcnt0 & Hto0 & Hncl0 & Hnd0 & Hcl0).
  rewrite Ht0 in Ht. rewrite Hcnt0 in Hcnt. rewrite Hto0 in Hto.
  rewrite Hncl0 in Hncl. rewrite Hnd0 in Hnd. rewrite Hcl0 in Hcl.
  assert (Hnotif :
    notif_timeout st' =
      (if notificationEl pg then Some (S (timer_count st)) else notif_timeout st) ∧
    timers st' =
      (if notificationEl pg
       then match notif_timeout st with
            | Some (S n) => filter (λ t, t_id t ≠ S n) (timers st)
            | _ => timers st
            end ++
            [{| t_id := S (timer_count st); t_delay := 1000;
                t_action := ShowNotification |}]
       else timers st) ∧
    notif_classList st' = notif_classList st ∧
    notif_display st' = notif_display st).
  { rewrite <- Ht, <- Hcnt, <- Hto, <- Hncl, <- Hnd. clear - Harm.
    unfold QuizEvents.armNotification in Harm.
    destruct (notificationEl pg); cbn [when] in Harm.
    - rewrite bind_gets in Harm.
      destruct (notif_timeout s) as [[|n]|]; by injection Harm as <-.
    - by injection Harm as <-. }
  assert (Hfields :
    currentIndex st' = 0 ∧ score st' = 0 ∧ answered st' = false ∧
    scoreboard_display st' =
      (if scoreboard pg then "none" else scoreboard_display st) ∧
    confetti st' = (if confettiContainer pg then [] else confetti st) ∧
    front_textContent st' =
      (if front pg then scenario q0 else front_textContent st) ∧
    choice_buttons st' =
      (if backChoices pg then createButton <$> sh else choice_buttons st) ∧
    explanations st' =
      (if back pg then tail (explanations st) else explanations st) ∧
    nextContainer_display st' =
      (if nextContainer pg then "none" else nextContainer_display st) ∧
    nextButton_textContent st' =
      (if nextButton pg then "Next" else nextButton_textContent st)).
  { rewrite Hci, Hsc, Hbs, Hex, Hfr, Hnc, Hnb, Hsb, Hcf. unfold start_state.
    repeat (split; [done|]).
    destruct (scoreboard pg), (confettiContainer pg); by repeat split. }
  destruct Hfields as (? & ? & ? & ? & ? & ? & ? & ? & ? & ?).
  exists q0, sh, st'. rewrite Hstart.
  do 13 (split; [done|]). rewrite Hcl.
  split; [done|].
  split; [apply contains_remove|].
  split; [by rewrite contains_remove_ne, contains_remove_ne, contains_remove|].
  split; [by rewrite contains_remove_ne, contains_remove|].
  split; [|exact Hnotif].
  intros other Hf Hco Hw. by rewrite !contains_remove_ne.
Qed.

(** *** The claims about a whole session *)

(** [C1] A session that answers each of the five cards once and advances
    ends on the scoreboard: its text is [Score: n/5] where [n] counts the
    clicked controls flagged correct, each of them made from a choice of
    the corresponding question, and the confetti is launched exactly when
    [n] is 5. *)
Theorem session_score (restart : bool) (picks : list nat) (st0 : State) :
  backChoices pg = true →
  length picks = 5 →
  Forall (λ k, k < 3) picks →
  ∃ log st',
    (start pg rand restart ;; answerAll pg rand picks) st0 = Ok log st' ∧
    length log = 5 ∧
    Forall2 (λ b q, ∃ c, c ∈ choices q ∧ b = createButton c) log quizData ∧
    score st' = correct_selections log ∧
    scoreText_textContent st' =
      (if scoreText pg
       then "Score: " +:+ show_nat (correct_selections log) +:+ "/5"
       else scoreText_textContent st0) ∧
    scoreboard_display st' =
      (if scoreboard pg then "flex" else scoreboard_display st0) ∧
    launches st' = launches st0 + (if correct_selections log =? 5 then 1 else 0).
Proof.
  intros Hbc Hlen Hks.
  pose proof (backChoices_quizCard Hbc) as Hcard. unfold quizCard in Hcard.
  destruct (quiz_card pg) as [cd|] eqn:Hc; [|done].
  destruct (quizData_lookup 0) as [q0 Hq0]; [lia|].
  destruct (renderCard_spec cd 0 q0 (start_state restart st0) Hc Hq0)
    as (sh & st & Hren & Hp & Hci & Hsc & Hans & Hbs & _ & _ & _ & _ & _
        & Htx & Hsb & _ & Hl & _).
  rewrite Hbc in Hbs.
  destruct (start_state_fields restart st0) as (Hi0 & Hs0 & Ht0 & Hb0 & Hl0 & _).
  rewrite Hi0 in Hci. rewrite Hs0 in Hsc. rewrite Ht0 in Htx.
  rewrite Hb0 in Hsb. rewrite Hl0 in Hl.
  destruct (answerAll_spec picks 0 st q0 sh Hbc Hq0 Hp Hbs Hci Hans
              ltac:(lia) Hks)
    as (log & st' & Hrun & Hlog & Hf2 & Hs' & Htx' & Hsb' & Hl' & _).
  rewrite <- start_eq in Hren.
  exists log, st'. rewrite (bind_Ok _ _ _ _ _ Hren).
  split; [done|]. split; [lia|]. split; [done|].
  rewrite Hsc in Hs'. simpl in Hs'.
  split; [done|]. rewrite Htx', Hsb', Hl', Htx, Hsb, Hl, Hs'.
  by destruct restart, (scoreText pg), (scoreboard pg).
Qed.

Lemma piece_of_particle d i :
  (∀ n, (0 <= rand n < 1)%Q) → particle d i (piece_of d i).
Proof.
  intros Hr. unfold particle, piece_of, piece_at. cbn [p_className p_width
    p_height p_background p_left p_animationDuration p_animationDelay].
  pose proof (Hr (d + 4 * i)). pose proof (Hr (S (d + 4 * i))).
  pose proof (Hr (S (S (d + 4 * i)))). pose proof (Hr (S (S (S (d + 4 * i))))).
  assert (Hcol : ∃ col, colours !! (i mod 4) = Some col).
  { apply lookup_lt_is_Some. change (length colours) with 4.
    apply Nat.mod_upper_bound. lia. }
  destruct Hcol as [col Hcol].
  change (length colours) with 4. rewrite Hcol.
  assert (Hsize : (0 <= fmul (rand (d + 4 * i)) 6 <= 6)%Q).
  { apply fmul_unit; [by vm_compute|done|lra]. }
  assert (Hleft : (0 <= fmul (rand (S (d + 4 * i))) 100 <= 100)%Q).
  { apply fmul_unit; [by vm_compute|done|lra]. }
  assert (Hdur : (0 <= fmul (rand (S (S (d + 4 * i)))) 2 <= 2)%Q).
  { apply fmul_unit; [by vm_compute|done|lra]. }
  assert (Hdel : (0 <= fmul (rand (S (S (S (d + 4 * i))))) (1 # 2) <= 1 # 2)%Q).
  { apply fmul_unit; [by vm_compute|done|lra]. }
  repeat split; try done;
    try (apply (fadd_between 4 10); [by vm_compute|by vm_compute|lra]);
    try (apply (fadd_between 3 5); [by vm_compute|by vm_compute|lra]);
    tauto.
Qed.

(** [C6] With a confetti container on the page, a session ending on a
    perfect score leaves exactly 40 particles in it, each as described by
    [particle]; a session ending on any other score adds none. *)
Theorem confetti_on_perfect_score (restart : bool) (picks : list nat) (st0 : State) :
  (∀ n, (0 <= rand n < 1)%Q) →
  backChoices pg = true →
  confettiContainer pg = true →
  length picks = 5 →
  Forall (λ k, k < 3) picks →
  ∃ log st',
    (start pg rand restart ;; answerAll pg rand picks) st0 = Ok log st' ∧
    (correct_selections log = 5 →
       length (confetti st') = 40 ∧
       ∃ d, ∀ i, i < 40 →
         ∃ p, confetti st' !! i = Some p ∧ particle d i p) ∧
    (correct_selections log ≠ 5 →
       confetti st' = if restart then [] else confetti st0).
Proof.
  intros Hr Hbc Hcc Hlen Hks.
  pose proof (backChoices_quizCard Hbc) as Hcard. unfold quizCard in Hcard.
  destruct (quiz_card pg) as [cd|] eqn:Hc; [|done].
  destruct (quizData_lookup 0) as [q0 Hq0]; [lia|].
  destruct (renderCard_spec cd 0 q0 (start_state restart st0) Hc Hq0)
    as (sh & st & Hren & Hp & Hci & Hsc & Hans & Hbs & _ & _ & _ & _ & _
        & _ & _ & Hcf & _).
  rewrite Hbc in Hbs.
  destruct (start_state_fields restart st0) as (Hi0 & Hs0 & _ & _ & _ & Hc0).
  rewrite Hi0 in Hci. rewrite Hs0 in Hsc. rewrite Hc0, Hcc in Hcf.
  destruct (answerAll_spec picks 0 st q0 sh Hbc Hq0 Hp Hbs Hci Hans
              ltac:(lia) Hks)
    as (log & st' & Hrun & _ & _ & Hs' & _ & _ & _ & Hno & Hyes).
  rewrite <- start_eq in Hren.
  exists log, st'. rewrite (bind_Ok _ _ _ _ _ Hren). split; [done|].
  rewrite Hsc in Hs'. simpl in Hs'.
  rewrite Hs' in Hno, Hyes. split.
  - intros H5. destruct (Hyes H5 Hcc) as [d Hd]. rewrite Hd.
    split; [by rewrite length_fmap, length_seq|].
    exists d. intros i Hi. exists (piece_of d i).
    split; [|by apply piece_of_particle].
    rewrite list_lookup_fmap, lookup_seq_lt by done. done.
  - intros H5. rewrite (Hno H5), Hcf. by destruct restart.
Qed.

End WithPage.

(** *** The shuffle *)

(** With every draw below one half the comparator always answers
    [a[i] < a[i-1]]: the three elements are one descending run, which is
    reversed.  With every draw above it they are one ascending run, which
    stays.  Two draws are made either way. *)
Lemma sort_random_low {A} (a b c : A) st :
  sort_random (λ _, 0%Q) [a; b; c] st =
  Ok [c; b; a] (set_draws (S (S (draws st))) st).
Proof. reflexivity. Qed.

Lemma sort_random_high {A} (a b c : A) st :
  sort_random (λ _, (3 # 4)%Q) [a; b; c] st =
  Ok [a; b; c] (set_draws (S (S (draws st))) st).
Proof. reflexivity. Qed.

(** Draws on both sides of one half end the run after two elements; the
    third is then placed by the binary search, here between the two. *)
Lemma sort_random_mixed {A} (a b c : A) st :
  sort_random (λ n, if n mod 3 =? 0 then (3 # 4)%Q else 0%Q) [a; b; c]
              (set_draws 0 st) =
  Ok [a; c; b] (set_draws 4 st).
Proof. reflexivity. Qed.

Lemma quizData_reversed :
  Forall (λ q, createButton <$> reverse (choices q) ≠ createButton <$> choices q)
         quizData.
Proof. unfold quizData. repeat constructor; by intros [=]. Qed.

(** [C9] The order of the choice controls is decided by the draws of
    [Math.random]: on every tape it is a permutation of the question's
    choices, on the tape whose draws are all 0 it is the defined order
    reversed, on the tape whose draws are all 3/4 it is the defined
    order, and the two orders differ for every question. *)
Theorem shuffle_depends_on_draws (pg : Page) (idx : nat) (q : QuizQuestion)
    (st : State) :
  backChoices pg = true →
  quizData !! idx = Some q →
  (∀ rand, ∃ shuffled st',
     renderCard pg rand idx st = Ok tt st' ∧
     shuffled ≡ₚ choices q ∧
     choice_buttons st' = createButton <$> shuffled) ∧
  (∃ st', renderCard pg (λ _, 0%Q) idx st = Ok tt st' ∧
          choice_buttons st' = createButton <$> reverse (choices q)) ∧
  (∃ st', renderCard pg (λ _, (3 # 4)%Q) idx st = Ok tt st' ∧
          choice_buttons st' = createButton <$> choices q) ∧
  createButton <$> reverse (choices q) ≠ createButton <$> choices q.
Proof.
  intros Hbc Hq.
  pose proof (backChoices_quizCard pg Hbc) as Hcard. unfold quizCard in Hcard.
  destruct (quiz_card pg) as [cd|] eqn:Hc; [|done].
  assert (Hgen : ∀ rand, ∃ shuffled st',
     renderCard pg rand idx st = Ok tt st' ∧ shuffled ≡ₚ choices q ∧
     choice_buttons st' = createButton <$> shuffled ∧
     ∃ s d, sort_random rand (choices q) s = Ok shuffled (set_draws d s)).
  { intros rand.
    destruct (renderCard_spec pg rand cd idx q st Hc Hq)
      as (sh & st' & Hren & Hp & _ & _ & _ & Hbs & _ & _ & _ & _ & _ & _ & _
          & _ & _ & _ & Hsort).
    rewrite Hbc in Hbs. by exists sh, st'. }
  pose proof quizData_choices as Hall. rewrite Forall_lookup in Hall.
  destruct (Hall _ _ Hq) as [H3 _].
  destruct (choices q) as [|a [|b [|c [|? ?]]]] eqn:Hch; try done.
  split; [|split; [|split]].
  - intros rand. destruct (Hgen rand) as (sh & st' & ? & ? & ? & _).
    by exists sh, st'.
  - destruct (Hgen (λ _, 0%Q)) as (sh & st' & Hren & _ & Hbs & s & d & Hs).
    rewrite sort_random_low in Hs. injection Hs as <- _. by exists st'.
  - destruct (Hgen (λ _, (3 # 4)%Q)) as (sh & st' & Hren & _ & Hbs & s & d & Hs).
    rewrite sort_random_high in Hs. injection Hs as <- _. by exists st'.
  - clear Hgen. pose proof quizData_reversed as Hrev.
    rewrite Forall_lookup in Hrev. specialize (Hrev _ _ Hq). by rewrite Hch in Hrev.
Qed.

End QuizFacts.

(** ** The theorems at sample inputs *)

Module Witnesses.
Import Js Eff Samples.

Lemma cycling_range n : (0 <= cycling n < 1)%Q.
Proof.
  unfold cycling. pose proof (Nat.mod_upper_bound n 4 ltac:(lia)) as H.
  unfold Qle, Qlt. simpl Qnum. simpl Qden. split; lia.
Qed.

Lemma retry_once_then_reenabled_witness :
  LockScreen.retry_listeners
    (LockScreen.step lock_page LockScreen.ClickRetry
       (LockScreen.step lock_page LockScreen.ClickIgnore lock_ready)) = [].
Proof.
  destruct (LockScreenFacts.retry_once_then_reenabled lock_page lock_ready)
    as (id & _ & _ & _ & _ & H & _);
    [reflexivity | reflexivity | reflexivity | reflexivity | reflexivity
    | split; reflexivity | reflexivity
    | repeat constructor | exact H].
Defined.

Lemma session_score_witness :
  ∃ log st',
    (Eff.bind (Quiz.start quiz_page cycling false)
       (λ _, Quiz.answerAll quiz_page cycling [0; 1; 2; 0; 1])) quiz_blank
      = Ok log st' ∧
    Quiz.score st' = Quiz.correct_selections log.
Proof.
  destruct (QuizFacts.session_score quiz_page cycling false [0; 1; 2; 0; 1]
              quiz_blank)
    as (log & st' & Hrun & _ & _ & Hscore & _);
    [reflexivity | reflexivity | repeat constructor |].
  exists log, st'. split; [exact Hrun | exact Hscore].
Defined.

Lemma select_at_most_once_witness :
  ∃ st st1,
    Quiz.renderCard quiz_page cycling 2 quiz_blank = Ok tt st ∧
    Quiz.onSelectChoice quiz_page (Some 1) st = Ok tt st1 ∧
    Quiz.onSelectChoice quiz_page (Some 0) st1 = Ok tt st1.
Proof.
  destruct (QuizFacts.select_at_most_once quiz_page cycling 2 1 (Some 0) quiz_blank)
    as (q & c & st & st1 & _ & _ & Hren & _ & _ & Hsel & _ & _ & _ & Hagain);
    [reflexivity | lia | lia |].
  exists st, st1. repeat split; assumption.
Defined.

Lemma renderCard_three_choices_witness :
  ∃ st', Quiz.renderCard quiz_page cycling 4 quiz_blank = Ok tt st' ∧
         length (Quiz.choice_buttons st') = 3 ∧
         length (filter (λ b, Quiz.data_correct b = "true")
                        (Quiz.choice_buttons st')) = 1.
Proof.
  apply (QuizFacts.renderCard_three_choices quiz_page cycling 4 quiz_blank);
    [reflexivity | lia].
Defined.

Lemma renderCard_throws_without_card_witness :
  returns (Quiz.init quiz_page_without_card cycling quiz_blank) = false.
Proof.
  apply (QuizFacts.renderCard_throws_without_card
           quiz_page_without_card cycling 0 quiz_blank).
  reflexivity.
Defined.

Lemma brink_range n : (0 <= brink n < 1)%Q.
Proof. by vm_compute. Qed.

Lemma confetti_on_perfect_score_witness :
  (∃ log st',
     (Eff.bind (Quiz.start quiz_page brink false)
        (λ _, Quiz.answerAll quiz_page brink [0; 0; 0; 0; 0])) quiz_blank
       = Ok log st' ∧
     Quiz.correct_selections log = 5 ∧
     length (Quiz.confetti st') = 40 ∧
     (∃ d, ∀ i, i < 40 →
        ∃ p, Quiz.confetti st' !! i = Some p ∧ QuizStates.particle brink d i p) ∧
     (λ p, Qred (Quiz.p_width p)) <$> Quiz.confetti st' =
       replicate 40 (5629499534213119 # 562949953421312)%Q ∧
     (λ p, Qred (Quiz.p_left p)) <$> Quiz.confetti st' =
       replicate 40 (3518437208883199 # 35184372088832)%Q ∧
     (λ p, Qred (Quiz.p_animationDuration p)) <$> Quiz.confetti st' =
       replicate 40 5%Q ∧
     (λ p, Qred (Quiz.p_animationDelay p)) <$> Quiz.confetti st' =
       replicate 40 (4503599627370495 # 9007199254740992)%Q ∧
     Quiz.p_background <$> take 5 (Quiz.confetti st') =
       ["rgba(143, 247, 122, 0.9)"; "rgba(196, 158, 234, 0.9)";
        "rgba(146, 224, 128, 0.9)"; "rgba(91, 192, 235, 0.9)";
        "rgba(143, 247, 122, 0.9)"]) ∧
  (∃ log st',
     (Eff.bind (Quiz.start quiz_page cycling true)
        (λ _, Quiz.answerAll quiz_page cycling [0; 0; 0; 0; 0])) quiz_blank
       = Ok log st' ∧
     Quiz.correct_selections log ≠ 5 ∧
     Quiz.confetti st' = []).
Proof.
  split.
  - destruct (QuizFacts.confetti_on_perfect_score quiz_page brink false
                [0; 0; 0; 0; 0] quiz_blank)
      as (log & st' & Hrun & Hyes & _);
      [apply brink_range | reflexivity | reflexivity | reflexivity
      | repeat constructor |].
    pose proof Hrun as Hlog. vm_compute in Hlog. injection Hlog as Hl Hs.
    assert (H5 : Quiz.correct_selections log = 5).
    { rewrite <- Hl. vm_compute. reflexivity. }
    destruct (Hyes H5) as [Hlen Hparticles].
    exists log, st'. split; [exact Hrun|]. split; [exact H5|].
    split; [exact Hlen|]. split; [exact Hparticles|].
    rewrite <- Hs. vm_compute. repeat split; reflexivity.
  - destruct (QuizFacts.confetti_on_perfect_score quiz_page cycling true
                [0; 0; 0; 0; 0] quiz_blank)
      as (log & st' & Hrun & _ & Hno);
      [apply cycling_range | reflexivity | reflexivity | reflexivity
      | repeat constructor |].
    assert (H5 : Quiz.correct_selections log ≠ 5).
    { pose proof Hrun as Hlog. vm_compute in Hlog.
      injection Hlog as <- _. vm_compute. lia. }
    exists log, st'. split; [exact Hrun|]. split; [exact H5|]. exact (Hno H5).
Defined.

Lemma restartQuiz_resets_witness :
  (Quiz.currentIndex quiz_played = 5 ∧ Quiz.score quiz_played = 5 ∧
   Quiz.answered quiz_played = true ∧
   Quiz.quizCard_classList quiz_played = ["quiz-card"; "flipped"; "correct"] ∧
   Quiz.scoreboard_display quiz_played = "flex" ∧
   length (Quiz.confetti quiz_played) = 40 ∧
   length (Quiz.explanations quiz_played) = 1) ∧
  ∃ st', Quiz.restartQuiz quiz_page steady quiz_played = Ok tt st' ∧
         Quiz.currentIndex st' = 0 ∧ Quiz.score st' = 0 ∧
         Quiz.answered st' = false ∧
         Quiz.scoreboard_display st' = "none" ∧
         Quiz.confetti st' = [] ∧
         Quiz.explanations st' = [] ∧
         Quiz.quizCard_classList st' = ["quiz-card"] ∧
         Quiz.notif_timeout st' = Some (S (Quiz.timer_count quiz_played)) ∧
         Quiz.t_action <$> Quiz.timers st' = [Quiz.ShowNotification].
Proof.
  split; [by vm_compute|].
  destruct (QuizFacts.restartQuiz_resets quiz_page steady
              {| Quiz.card_inner := true;
                 Quiz.scenario_text := true;
                 Quiz.back_face := Some {| Quiz.choice_container := true |};
                 Quiz.card_rect :=
                   {| Quiz.r_top := 120; Quiz.r_left := 200; Quiz.r_width := 400 |} |}
              quiz_played)
    as (q0 & sh & st' & _ & _ & Hrun & Hi & Hs & Ha & Hsb & Hcf & _ & _ & Hex
        & _ & _ & Hcl & _ & _ & _ & _ & Hto & Ht & _); [reflexivity|].
  exists st'. split; [exact Hrun|]. split; [exact Hi|]. split; [exact Hs|].
  split; [exact Ha|]. split; [exact Hsb|]. split; [exact Hcf|].
  split; [rewrite Hex; by vm_compute|].
  split; [rewrite Hcl; by vm_compute|].
  split; [exact Hto|].
  rewrite Ht. by vm_compute.
Defined.

Lemma shuffle_depends_on_draws_witness :
  (∃ st', Quiz.renderCard quiz_page (λ _, 0%Q) 0 quiz_blank = Ok tt st' ∧
          Quiz.b_textContent <$> Quiz.choice_buttons st' =
          ["Encouraged for Transparency"; "Safe Practice"; "Breach of Policy"]) ∧
  (∃ st', Quiz.renderCard quiz_page (λ _, (3 # 4)%Q) 0 quiz_blank = Ok tt st' ∧
          Quiz.b_textContent <$> Quiz.choice_buttons st' =
          ["Breach of Policy"; "Safe Practice"; "Encouraged for Transparency"]).
Proof.
  destruct (QuizFacts.shuffle_depends_on_draws quiz_page 0
              {| Quiz.scenario := "An employee uses their personal phone to take a picture of a workplace incident.";
                 Quiz.choices := [
                   {| Quiz.text := "Breach of Policy"; Quiz.correct := true;
                      Quiz.message := "Using personal phones for incident reports is risky. Use official devices." |};
                   {| Quiz.text := "Safe Practice"; Quiz.correct := false;
                      Quiz.message := "Even for good intentions, personal devices are not secure." |};
                   {| Quiz.text := "Encouraged for Transparency"; Quiz.correct := false;
                      Quiz.message := "Transparency matters — but security protocols come first." |} ] |}
              quiz_blank)
    as (_ & (st0 & Hren0 & Hbs0) & (st1 & Hren1 & Hbs1) & _);
    [reflexivity | reflexivity |].
  split.
  - exists st0. split; [exact Hren0|]. rewrite Hbs0. reflexivity.
  - exists st1. split; [exact Hren1|]. rewrite Hbs1. reflexivity.
Defined.

End Witnesses.

(** ** More on the scene selector *)

Module SceneSelectorMore.
Import Js JsFacts SceneSelector SceneSelectorFacts.

Lemma visible_slides_app (l1 l2 : list element) :
  visible_slides (l1 ++ l2) = visible_slides l1 ++ visible_slides l2.
Proof. unfold visible_slides. apply filter_app. Qed.

Lemma visible_slides_alter doc i e :
  hide_scenes doc !! i = Some e →
  visible_slides (alter (set_display "block") i (hide_scenes doc)) =
  if el_scene e then [set_display "block" e] else [].
Proof.
  intros Hi. apply lookup_lt_Some in Hi as Hlt.
  pose proof (visible_slides_hidden doc) as Hnone.
  rewrite <- (take_drop_middle _ _ _ Hi) in Hnone |- * at 1.
  rewrite alter_app_r_alt by (rewrite length_take; lia).
  replace (i - length (take i (hide_scenes doc))) with 0
    by (rewrite length_take; lia).
  simpl. rewrite visible_slides_app in Hnone |- *.
  apply app_eq_nil in Hnone as [-> Hnone]. simpl.
  unfold visible_slides in *. rewrite filter_cons in Hnone |- *.
  case_decide as Hv; [done|]. rewrite Hnone.
  unfold visible. simpl. destruct (el_scene e); by case_decide.
Qed.

(** [X1] Whatever the document and the query, the slides left visible are the
    selected element alone when it is a slide, and none otherwise: never
    two slides at once. *)
Theorem visible_slides_setActiveScene (search : string) (doc : document) :
  visible_slides (setActiveScene search doc) =
    match getElementById doc (sceneId search) with
    | Some (_, e) => if el_scene e then [set_display "block" e] else []
    | None => []
    end ∧
  length (visible_slides (setActiveScene search doc)) ≤ 1.
Proof.
  assert (H : visible_slides (setActiveScene search doc) =
    match getElementById doc (sceneId search) with
    | Some (_, e) => if el_scene e then [set_display "block" e] else []
    | None => []
    end).
  { destruct (getElementById doc (sceneId search)) as [[i e]|] eqn:Hfind.
    - rewrite (setActiveScene_found _ _ _ _ Hfind).
      apply list_find_Some in Hfind as (Hi & _ & _).
      rewrite (visible_slides_alter doc i
                 (if el_scene e then set_display "none" e else e))
        by (by rewrite hide_scenes_lookup, Hi).
      by destruct (el_scene e) eqn:E; simpl; rewrite ?E.
    - rewrite (setActiveScene_absent _ _ Hfind). apply visible_slides_hidden. }
  split; [exact H|]. rewrite H.
  destruct (getElementById doc (sceneId search)) as [[i e]|]; [|simpl; lia].
  destruct (el_scene e); simpl; lia.
Qed.

(** [X2] The selector changes nothing but [style.display]: every element
    keeps its position, its id and its classes, and an element that is
    neither a slide nor the selected one keeps its display too. *)
Theorem setActiveScene_frame (search : string) (doc : document) j :
  (el_id <$> setActiveScene search doc !! j) = (el_id <$> doc !! j) ∧
  (el_scene <$> setActiveScene search doc !! j) = (el_scene <$> doc !! j) ∧
  (∀ x, doc !! j = Some x → el_scene x = false →
        el_id x ≠ sceneId search →
        setActiveScene search doc !! j = Some x).
Proof.
  unfold setActiveScene.
  destruct (getElementById (hide_scenes doc) (sceneId search)) as [[i e]|] eqn:Hfind.
  - apply list_find_Some in Hfind as (Hi & Hid & _).
    rewrite hide_scenes_lookup in Hi.
    destruct (decide (j = i)) as [->|Hji].
    + rewrite list_lookup_alter_eq, hide_scenes_lookup.
      destruct (doc !! i) as [y|]; [|done]. simpl in *. injection Hi as <-.
      destruct (el_scene y) eqn:E; simpl; rewrite ?E;
        (split; [done|]); (split; [done|]); intros x [= <-] Hx Hne;
        simpl in *; congruence.
    + rewrite list_lookup_alter_ne, hide_scenes_lookup by done.
      destruct (doc !! j) as [y|]; [|done]. simpl.
      destruct (el_scene y) eqn:E; simpl; rewrite ?E;
        (split; [done|]); (split; [done|]); intros x [= <-] Hx Hne;
        simpl in *; congruence.
  - rewrite hide_scenes_lookup.
    destruct (doc !! j) as [y|]; [|done]. simpl.
    destruct (el_scene y) eqn:E; simpl; rewrite ?E;
      (split; [done|]); (split; [done|]); intros x [= <-] Hx Hne;
      simpl in *; congruence.
Qed.

Lemma hide_scenes_idem doc : hide_scenes (hide_scenes doc) = hide_scenes doc.
Proof.
  unfold hide_scenes. rewrite <- list_fmap_compose. apply list_fmap_ext.
  intros _ e _. simpl. by destruct (el_scene e) eqn:E; simpl; rewrite ?E.
Qed.

Lemma hide_scenes_alter i doc :
  alter (set_display "block") i
    (hide_scenes (alter (set_display "block") i (hide_scenes doc))) =
  alter (set_display "block") i (hide_scenes doc).
Proof.
  apply list_eq. intros j. destruct (decide (j = i)) as [->|Hji].
  - rewrite !list_lookup_alter_eq, !hide_scenes_lookup, list_lookup_alter_eq,
      hide_scenes_lookup.
    destruct (doc !! i) as [y|]; [|done]. simpl.
    by destruct (el_scene y) eqn:E; simpl; rewrite ?E.
  - rewrite !list_lookup_alter_ne, !hide_scenes_lookup, list_lookup_alter_ne,
      hide_scenes_lookup by done.
    destruct (doc !! j) as [y|]; [|done]. simpl.
    by destruct (el_scene y) eqn:E; simpl; rewrite ?E.
Qed.

(** The index found by id does not depend on the displays. *)
Lemma getElementById_index (doc doc' : document) name :
  el_id <$> doc = el_id <$> doc' →
  fst <$> getElementById doc name = fst <$> getElementById doc' name.
Proof.
  revert doc'; induction doc as [|e doc IH]; intros [|e' doc'] H;
    try done.
  injection H as He H. unfold getElementById in *. cbn [list_find].
  rewrite He. case_decide; [done|]. specialize (IH _ H).
  destruct (list_find _ doc) as [[]|], (list_find _ doc') as [[]|];
    simpl in *; congruence.
Qed.

Lemma setActiveScene_ids search doc :
  el_id <$> setActiveScene search doc = el_id <$> doc.
Proof.
  apply list_eq. intros j. rewrite !list_lookup_fmap.
  apply (setActiveScene_frame search doc j).
Qed.

(** [X3] Running the selector again on its own result changes nothing. *)
Theorem setActiveScene_idempotent (search : string) (doc : document) :
  setActiveScene search (setActiveScene search doc) = setActiveScene search doc.
Proof.
  pose proof (getElementById_index _ _ (sceneId search)
                (setActiveScene_ids search doc)) as Hidx.
  destruct (getElementById doc (sceneId search)) as [[i e]|] eqn:Hfind.
  - destruct (getElementById (setActiveScene search doc) (sceneId search))
      as [[i' e']|] eqn:Hfind'; [|done].
    simpl in Hidx. injection Hidx as ->.
    rewrite (setActiveScene_found _ _ _ _ Hfind').
    rewrite (setActiveScene_found _ _ _ _ Hfind).
    apply hide_scenes_alter.
  - destruct (getElementById (setActiveScene search doc) (sceneId search))
      as [[i' e']|] eqn:Hfind'; [done|].
    rewrite (setActiveScene_absent _ _ Hfind').
    rewrite (setActiveScene_absent _ _ Hfind). apply hide_scenes_idem.
Qed.

End SceneSelectorMore.

(** ** More on scene 1 *)

Module LockScreenMore.
Import Js Eff EffFacts LockScreen LockScreenFacts LockScreenRounds ClassListFacts.

Section WithPage.
Context (pg : Page).

(** *** Set-up *)

(** [X4] The set-up returns exactly when the prompt element and both
    buttons exist.  Without [#typed-text] the typing library throws, so
    no callback is registered and no handler is bound; with it, a missing
    Lock button leaves both handlers unbound, and a missing Ignore button
    is noticed only after the Lock handler is bound.  The buttons are not
    disabled by the set-up. *)
Theorem init_wires (st : State) :
  let r := init pg st in
  returns r = typedText pg && lockBtn pg && ignoreBtn pg ∧
  pending (final r) =
    (if typedText pg then pending st ++ [(next_pending st, TypedComplete)]
     else pending st) ∧
  lock_wired (final r) = (typedText pg && lockBtn pg) || lock_wired st ∧
  ignore_wired (final r) =
    (typedText pg && lockBtn pg && ignoreBtn pg) || ignore_wired st ∧
  lockBtn_disabled (final r) = lockBtn_disabled st ∧
  ignoreBtn_disabled (final r) = ignoreBtn_disabled st.
Proof.
  unfold init.
  destruct (monitorWrapper pg), (typedText pg), (lockBtn pg), (ignoreBtn pg); cbn;
    by destruct (lock_wired st), (ignore_wired st).
Qed.

(** *** The correct choice *)

(** [X5] The lock sequence needs the two buttons and nothing else: it returns
    for every combination of the other elements, starting three tweens
    plus one for each of the two flourishes that exists, and it starts
    none when a button is missing. *)
Theorem runLockSequence_optional (st : State) :
  let r := runLockSequence pg st in
  returns r = lockBtn pg && ignoreBtn pg ∧
  length (tweens (final r)) =
    (if lockBtn pg && ignoreBtn pg
     then length (tweens st) + 3
          + (if successCheck pg then 1 else 0)
          + (if lockedSubtext pg then 1 else 0)
     else length (tweens st)) ∧
  lockToggle_checked (final r) =
    (if lockBtn pg && ignoreBtn pg && lockToggle pg then false
     else lockToggle_checked st).
Proof.
  unfold runLockSequence, disableButtons.
  destruct (lockBtn pg), (ignoreBtn pg), (lockToggle pg), (successCheck pg),
    (lockedSubtext pg); cbn; rewrite ?length_app; cbn; repeat split; lia.
Qed.

Lemma runLockSequence_spec st :
  lockBtn pg = true → ignoreBtn pg = true →
  ∃ st1,
    runLockSequence pg st = Ok tt st1 ∧
    lockBtn_disabled st1 = true ∧ ignoreBtn_disabled st1 = true ∧
    retry_listeners st1 = retry_listeners st ∧
    lockToggle_checked st1 = (if lockToggle pg then false else lockToggle_checked st) ∧
    pending st1 = pending st ++ [(next_pending st, OverlayStart)] ∧
    next_pending st1 = S (next_pending st).
Proof.
  intros Hl Hi. unfold runLockSequence, disableButtons. rewrite Hl, Hi.
  destruct (lockToggle pg), (successCheck pg), (lockedSubtext pg);
    (eexists; split; [reflexivity|]); by cbn.
Qed.

Lemma fresh_weaken (ps : list (nat * Callback)) n m :
  n ≤ m → Forall (λ p, p.1 < n) ps → Forall (λ p, p.1 < m) ps.
Proof.
  intros Hnm Hf. eapply Forall_impl; [exact Hf|]. intros p Hp. simpl in Hp. lia.
Qed.

Lemma step_Fire_last st ps id cb :
  pending st = ps ++ [(id, cb)] →
  Forall (λ p, p.1 < id) ps →
  step pg (Fire id) st =
  final (run_callback pg cb (set_pending ps (next_pending st) st)).
Proof.
  intros Hp Hf. cbn [step]. rewrite Hp, (find_pending_last _ _ _ Hf).
  by rewrite delete_middle, app_nil_r.
Qed.

(** [X6] The padlock toggle is unchecked by the click and checked by the
    delayed call, which is scheduled only once the overlay tween has
    started; afterwards no callback of the sequence is left pending. *)
Theorem lock_toggle_sequence (st : State) :
  lockBtn pg = true → ignoreBtn pg = true → lockToggle pg = true →
  lock_wired st = true → lockBtn_disabled st = false →
  fresh_pending st →
  let st1 := step pg ClickLock st in
  let st2 := step pg (Fire (next_pending st)) st1 in
  let st3 := step pg (Fire (S (next_pending st))) st2 in
  lockToggle_checked st1 = false ∧
  pending st1 = pending st ++ [(next_pending st, OverlayStart)] ∧
  lockToggle_checked st2 = false ∧
  pending st2 = pending st ++ [(S (next_pending st), CheckToggle)] ∧
  lockToggle_checked st3 = true ∧
  pending st3 = pending st.
Proof.
  intros Hl Hi Ht Hw Hd Hfresh. cbn zeta. unfold fresh_pending in Hfresh.
  destruct (runLockSequence_spec st Hl Hi)
    as (st1 & Hrun & _ & _ & _ & Htog1 & Hp1 & Hn1).
  rewrite Ht in Htog1.
  assert (E1 : step pg ClickLock st = st1) by (cbn [step]; by rewrite Hw, Hd, Hrun).
  rewrite E1.
  rewrite (step_Fire_last st1 _ _ _ Hp1 Hfresh).
  cbn [run_callback]. unfold onOverlayStart, schedule, modify. cbn [final].
  rewrite (step_Fire_last _ (pending st) (S (next_pending st)) CheckToggle);
    [|cbn; by rewrite Hn1 | eapply fresh_weaken; [|exact Hfresh]; lia].
  cbn [run_callback]. unfold onCheckToggle. rewrite Ht. cbn.
  by rewrite Hn1.
Qed.

(** *** Dead ends *)

Lemma stuck_step e st : stuck st → stuck (step pg e st).
Proof.
  intros (Hl & Hi & Hls & Hp). destruct e as [| | |id]; cbn [step].
  - rewrite Hl. by destruct (lock_wired st).
  - rewrite Hi. by destruct (ignore_wired st).
  - by rewrite Hls.
  - destruct (list_find _ _) as [[i [id' cb]]|] eqn:Hfind; [|done].
    apply list_find_Some in Hfind as (Hlook & _).
    assert (Hcb : cb ≠ RetryComplete).
    { rewrite Forall_lookup in Hp. apply (Hp _ _ Hlook). }
    assert (Hdel : Forall (λ p, p.2 ≠ RetryComplete) (delete i (pending st)))
      by by apply Forall_delete.
    unfold stuck.
    destruct cb; [| | | |done]; cbn [run_callback].
    + cbn. done.
    + cbn. repeat split; try done. apply Forall_app. split; [done|].
      by repeat constructor.
    + unfold onCheckToggle. by destruct (lockToggle pg); cbn.
    + unfold onRemoveShake. by destruct (monitorShakeContainer pg); cbn.
Qed.

Lemma stuck_run es : ∀ st, stuck st → stuck (run pg es st).
Proof.
  induction es as [|e es IH]; intros st Hst; [done|].
  apply (IH (step pg e st)). by apply stuck_step.
Qed.

(** [X7] After the correct choice nothing the user or the libraries do
    enables a control again: [Locked] is terminal. *)
Theorem locked_is_terminal (st : State) (es : list event) :
  lockBtn pg = true → ignoreBtn pg = true →
  lock_wired st = true →
  ready st →
  let st' := run pg (ClickLock :: es) st in
  lockBtn_disabled st' = true ∧ ignoreBtn_disabled st' = true.
Proof.
  intros Hl Hi Hw (_ & [Hld _] & Hls & Hp & _). cbn zeta.
  destruct (runLockSequence_spec st Hl Hi)
    as (st1 & Hrun & Hl1 & Hi1 & Hls1 & _ & Hp1 & _).
  assert (Hstuck : stuck (step pg ClickLock st)).
  { cbn [step]. rewrite Hw, Hld, Hrun. cbn [andb negb final].
    repeat split; try done; [congruence|].
    rewrite Hp1. apply Forall_app. split; [done | by repeat constructor]. }
  destruct (stuck_run es _ Hstuck) as (? & ? & _). by split.
Qed.

(** What is left of the incorrect choice whether or not it returns. *)
Lemma runErrorSequence_final st :
  lockBtn pg = true → ignoreBtn pg = true →
  let st1 := final (runErrorSequence pg st) in
  lockBtn_disabled st1 = true ∧ ignoreBtn_disabled st1 = true ∧
  lock_wired st1 = lock_wired st ∧ ignore_wired st1 = ignore_wired st ∧
  (retryBtn pg = false → retry_listeners st1 = retry_listeners st) ∧
  shake_classList st1 =
    (if monitorShakeContainer pg then add "shake" (shake_classList st)
     else shake_classList st) ∧
  pending st1 =
    pending st ++ (if monitorShakeContainer pg
                   then [(next_pending st, RemoveShake)] else []).
Proof.
  intros Hl Hi. unfold runErrorSequence, disableButtons. rewrite Hl, Hi.
  destruct (monitorShakeContainer pg), (retryBtn pg), (errorOverlayNew pg);
    cbn -[add]; rewrite ?app_nil_r; by repeat split.
Qed.

Lemma runLockSequence_final st :
  lockBtn pg = true → ignoreBtn pg = true →
  let st1 := final (runLockSequence pg st) in
  lockBtn_disabled st1 = true ∧ ignoreBtn_disabled st1 = true ∧
  lock_wired st1 = lock_wired st ∧ ignore_wired st1 = ignore_wired st.
Proof.
  intros Hl Hi. unfold runLockSequence, disableButtons. rewrite Hl, Hi.
  by destruct (lockToggle pg), (successCheck pg), (lockedSubtext pg); cbn.
Qed.

(** [X8] A choice disables both controls before anything else, so a second
    click on either of them, however fast, is not delivered. *)
Theorem second_click_ignored (first second : bool) (st : State) :
  lockBtn pg = true → ignoreBtn pg = true →
  lock_wired st = true → ignore_wired st = true →
  awaiting_choice st →
  let click (lock : bool) := if lock then ClickLock else ClickIgnore in
  step pg (click second) (step pg (click first) st) = step pg (click first) st ∧
  step pg (click first) st ≠ st.
Proof.
  intros Hl Hi Hlw Hiw [Hld Hid]. cbn zeta.
  assert (H1 : lockBtn_disabled (step pg (if first then ClickLock else ClickIgnore) st) = true
             ∧ ignoreBtn_disabled (step pg (if first then ClickLock else ClickIgnore) st) = true).
  { destruct first; cbn [step]; rewrite ?Hlw, ?Hiw, ?Hld, ?Hid; cbn [andb negb].
    - by destruct (runLockSequence_final st Hl Hi) as (? & ? & _).
    - by destruct (runErrorSequence_final st Hl Hi) as (? & ? & _). }
  destruct H1 as [H1 H2]. split.
  - destruct second; cbn [step].
    + rewrite H1. cbn [negb]. by rewrite andb_false_r.
    + rewrite H2. cbn [negb]. by rewrite andb_false_r.
  - intros Heq. rewrite Heq in H1. congruence.
Qed.

(** [X9] On a page without a retry control the incorrect choice is a dead
    end: the controls are disabled and nothing enables them again. *)
Theorem no_retry_control_dead_end (st : State) (es : list event) :
  lockBtn pg = true → ignoreBtn pg = true → retryBtn pg = false →
  ready st →
  let st' := run pg (ClickIgnore :: es) st in
  lockBtn_disabled st' = true ∧ ignoreBtn_disabled st' = true.
Proof.
  intros Hl Hi Hr (Hw & [_ Hid] & Hls & Hp & _). cbn zeta.
  assert (Hstuck : stuck (step pg ClickIgnore st)).
  { cbn [step]. rewrite Hw, Hid. cbn [andb negb].
    destruct (runErrorSequence_final st Hl Hi)
      as (H1 & H2 & _ & _ & H3 & _ & H4).
    repeat split; try done; [by rewrite (H3 Hr)|].
    rewrite H4. apply Forall_app. split; [done|].
    destruct (monitorShakeContainer pg); by repeat constructor. }
  destruct (stuck_run (es) _ Hstuck) as (? & ? & _). by split.
Qed.

(** *** The shake *)

(** [X10] The incorrect choice puts the class [shake] on the monitor and the
    delayed call takes it off again, leaving the class list as it was. *)
Theorem shake_comes_and_goes (st : State) :
  lockBtn pg = true → ignoreBtn pg = true →
  monitorShakeContainer pg = true →
  ignore_wired st = true → ignoreBtn_disabled st = false →
  fresh_pending st →
  "shake" ∉ shake_classList st →
  let st1 := step pg ClickIgnore st in
  let st2 := step pg (Fire (next_pending st)) st1 in
  contains (shake_classList st1) "shake" = true ∧
  shake_classList st2 = shake_classList st.
Proof.
  intros Hl Hi Hs Hw Hd Hfresh Hno. cbn zeta.
  destruct (runErrorSequence_final st Hl Hi)
    as (_ & _ & _ & _ & _ & Hsh & Hp).
  rewrite Hs in Hsh, Hp.
  assert (E1 : step pg ClickIgnore st = final (runErrorSequence pg st))
    by (cbn [step]; by rewrite Hw, Hd).
  rewrite E1, Hsh. split; [apply contains_add|].
  rewrite (step_Fire_last _ _ _ _ Hp Hfresh).
  cbn [run_callback]. unfold onRemoveShake. rewrite Hs. cbn -[add remove].
  rewrite Hsh. by apply remove_add.
Qed.

(** *** Retrying again and again *)

Lemma runErrorSequence_counters st :
  lockBtn pg = true → ignoreBtn pg = true →
  let st1 := final (runErrorSequence pg st) in
  next_closure st1 = S (next_closure st) ∧
  next_pending st1 =
    next_pending st + (if monitorShakeContainer pg then 1 else 0).
Proof.
  intros Hl Hi. unfold runErrorSequence, disableButtons. rewrite Hl, Hi.
  destruct (monitorShakeContainer pg), (retryBtn pg), (errorOverlayNew pg);
    cbn -[add]; split; lia.
Qed.

Lemma onRetry_frame h st :
  retryBtn pg = true →
  let st2 := final (onRetry pg h st) in
  lock_wired st2 = lock_wired st ∧ ignore_wired st2 = ignore_wired st ∧
  next_closure st2 = next_closure st ∧
  next_pending st2 = S (next_pending st).
Proof. intros Hr. unfold onRetry. rewrite Hr. by cbn. Qed.

Lemma onRetryComplete_frame st :
  lockBtn pg = true → ignoreBtn pg = true → errorOverlayNew pg = true →
  let st3 := final (onRetryComplete pg st) in
  lock_wired st3 = lock_wired st ∧ ignore_wired st3 = ignore_wired st ∧
  next_closure st3 = next_closure st ∧
  pending st3 = pending st ∧ next_pending st3 = next_pending st.
Proof.
  intros Hl Hi Ho. unfold onRetryComplete, disableButtons.
  rewrite Hl, Hi, Ho. by cbn.
Qed.

Lemma retry_round_ready st :
  lockBtn pg = true → ignoreBtn pg = true →
  retryBtn pg = true → errorOverlayNew pg = true →
  ready st →
  ready (retry_round pg st) ∧
  next_closure (retry_round pg st) = S (next_closure st) ∧
  lock_wired (retry_round pg st) = lock_wired st.
Proof.
  intros Hlock Hign Hretry Hover (Hw & [Hl Hi] & Hls & Hnrc & Hfresh).
  unfold retry_round.
  (* the incorrect choice *)
  destruct (runErrorSequence_spec pg st Hlock Hign Hretry Hover)
    as (st1 & Hrun & Hl1 & Hi1 & Hls1 & _ & Hfresh1).
  specialize (Hfresh1 Hfresh). rewrite Hls in Hls1. simpl in Hls1.
  destruct (runErrorSequence_final st Hlock Hign) as (_ & _ & Hlw1 & Hiw1 & _ & _ & Hp1).
  destruct (runErrorSequence_counters st Hlock Hign) as (Hc1 & _).
  assert (E1 : step pg ClickIgnore st = st1)
    by (cbn [step]; by rewrite Hw, Hi, Hrun).
  rewrite Hrun in Hlw1, Hiw1, Hp1, Hc1. cbn [final] in Hlw1, Hiw1, Hp1, Hc1.
  rewrite E1. clear E1.
  (* the retry *)
  destruct (onRetry_spec pg (next_closure st) st1 Hretry)
    as (st2 & Hre & Hls2 & Hp2 & Hl2 & Hi2).
  destruct (onRetry_frame (next_closure st) st1 Hretry) as (Hlw2 & Hiw2 & Hc2 & Hn2).
  rewrite Hre in Hlw2, Hiw2, Hc2, Hn2. cbn [final] in Hlw2, Hiw2, Hc2, Hn2.
  rewrite Hls1 in Hls2. rewrite filter_cons, decide_False, filter_nil in Hls2
    by (intros H; by apply H).
  assert (E2 : step pg ClickRetry st1 = st2).
  { cbn [step]. rewrite Hls1. cbn [dispatch_retry].
    rewrite Hls1, bool_decide_eq_true_2 by (by apply list_elem_of_singleton).
    by rewrite Hre. }
  rewrite E2. clear E2. rewrite Hp2, last_snoc.
  (* the end of the reverse timeline *)
  rewrite (step_Fire_last st2 _ _ _ Hp2 Hfresh1). cbn [run_callback].
  match goal with
  | |- context [onRetryComplete pg ?s] =>
      destruct (onRetryComplete_spec pg s Hlock Hign Hover)
        as (st3 & Hdone & Hl3 & Hi3 & _ & Hls3);
      destruct (onRetryComplete_frame s Hlock Hign Hover)
        as (Hlw3 & Hiw3 & Hc3 & Hp3 & Hn3)
  end.
  rewrite Hdone in Hlw3, Hiw3, Hc3, Hp3, Hn3 |- *.
  cbn [final lock_wired ignore_wired next_closure pending next_pending
       retry_listeners set_pending] in *.
  split; [|split; congruence].
  unfold ready, awaiting_choice, fresh_pending.
  split; [congruence|]. split; [done|]. split; [congruence|].
  rewrite Hp3, Hn3, Hn2. split.
  - rewrite Hp1. apply Forall_app. split; [done|].
    destruct (monitorShakeContainer pg); by repeat constructor.
  - eapply fresh_weaken; [|exact Hfresh1]. lia.
Qed.

(** [X11] The retry path can be walked any number of times: after [n] rounds
    the exercise awaits a choice again, [n] retry handlers have been
    created and none is left bound. *)
Theorem retry_rounds_ready (n : nat) (st : State) :
  lockBtn pg = true → ignoreBtn pg = true →
  retryBtn pg = true → errorOverlayNew pg = true →
  ready st →
  ready (retry_rounds pg n st) ∧
  next_closure (retry_rounds pg n st) = next_closure st + n.
Proof.
  intros Hlock Hign Hretry Hover. revert st.
  induction n as [|n IH]; intros st Hready; [split; [done | simpl; lia]|].
  destruct (retry_round_ready st Hlock Hign Hretry Hover Hready) as (Hr & Hc & _).
  destruct (IH _ Hr) as [Hr' Hc']. cbn [retry_rounds].
  split; [done|]. rewrite Hc', Hc. lia.
Qed.

End WithPage.

End LockScreenMore.

(** ** More on scene 2 *)

Module QuizMore.
Import Js Eff EffFacts Quiz QuizStates QuizFacts QuizEvents ClassListFacts.
Local Open Scope eff_scope.

Lemma eqb_show_bool (b : bool) : String.eqb (show_bool b) "true" = b.
Proof. by destruct b. Qed.

Section WithPage.
Context (pg : Page) (rand : nat → Q).

(** *** Feedback on a selection *)

Lemma onSelectChoice_feedback k btn st :
  backChoices pg = true →
  answered st = false →
  choice_buttons st !! k = Some btn →
  let verdict := if String.eqb (data_correct btn) "true" then "correct" else "wrong" in
  let st' := final (onSelectChoice pg (Some k) st) in
  choice_buttons st' =
    imap (λ i b, if negb (i =? k) && String.eqb (data_correct b) "true"
                 then add_class "correct" (disable b) else disable b)
         (alter (add_class verdict) k (choice_buttons st)) ∧
  quizCard_classList st' = add verdict (quizCard_classList st).
Proof.
  intros Hbc Hans Hk. cbn zeta.
  pose proof (backChoices_back pg Hbc) as Hback.
  pose proof (backChoices_quizCard pg Hbc) as Hcard.
  unfold onSelectChoice.
  rewrite bind_gets, Hans, bind_modify, bind_gets. simpl. rewrite Hk.
  unfold defined. rewrite bind_ret. rewrite Hbc, Hback, Hcard.
  destruct (String.eqb (data_correct btn) "true"), (nextContainer pg); by cbn.
Qed.

(** [X12] After the first selection on a card every control is disabled, the
    control of the correct choice carries the class [correct] whether or
    not it was the one clicked, the clicked control carries [wrong]
    exactly when its choice is incorrect, no other control is marked,
    and the card carries the verdict. *)
Theorem select_reveals_answer (idx k : nat) (st0 : State) :
  backChoices pg = true →
  idx < 5 →
  k < 3 →
  ∃ q shuffled chosen st st1,
    quizData !! idx = Some q ∧ shuffled ≡ₚ choices q ∧
    shuffled !! k = Some chosen ∧
    renderCard pg rand idx st0 = Ok tt st ∧
    onSelectChoice pg (Some k) st = Ok tt st1 ∧
    length (choice_buttons st1) = 3 ∧
    (∀ j c, shuffled !! j = Some c →
       ∃ b, choice_buttons st1 !! j = Some b ∧
            b_textContent b = text c ∧
            b_disabled b = true ∧
            contains (b_classList b) "correct" = correct c ∧
            contains (b_classList b) "wrong" =
              bool_decide (j = k) && negb (correct c)) ∧
    contains (quizCard_classList st1) "correct" = correct chosen ∧
    contains (quizCard_classList st1) "wrong" = negb (correct chosen).
Proof.
  intros Hbc Hidx Hk.
  destruct (quizData_lookup idx Hidx) as [q Hq].
  pose proof (backChoices_quizCard pg Hbc) as Hcard. unfold quizCard in Hcard.
  destruct (quiz_card pg) as [cd|] eqn:Hc; [|done].
  destruct (renderCard_spec pg rand cd idx q st0 Hc Hq)
    as (sh & st & Hren & Hp & _ & _ & Hans & Hbs & _ & _ & Hcl & _).
  rewrite Hbc in Hbs.
  pose proof quizData_choices as Hall. rewrite Forall_lookup in Hall.
  destruct (Hall _ _ Hq) as [H3 _].
  destruct (lookup_lt_is_Some_2 sh k) as [ck Hck]; [rewrite Hp; lia|].
  assert (Hbtn : choice_buttons st !! k = Some (createButton ck))
    by (by rewrite Hbs, list_lookup_fmap, Hck).
  destruct (onSelectChoice_spec pg k _ st Hbc Hans Hbtn) as (st1 & Hsel & _).
  destruct (onSelectChoice_feedback k _ st Hbc Hans Hbtn) as [Hbs1 Hcl1].
  rewrite Hsel in Hbs1, Hcl1. cbn [final] in Hbs1, Hcl1.
  cbn [createButton data_correct] in Hbs1, Hcl1.
  rewrite eqb_show_bool in Hbs1, Hcl1.
  exists q, sh, ck, st, st1. repeat (split; [done|]).
  split; [by rewrite Hbs1, length_imap, length_alter, Hbs, length_fmap, Hp|].
  split.
  - intros j c Hj. rewrite Hbs1, list_lookup_imap.
    destruct (decide (j = k)) as [->|Hjk].
    + rewrite list_lookup_alter_eq, Hbs, list_lookup_fmap, Hj. cbn.
      rewrite Hck in Hj. injection Hj as ->. rewrite Nat.eqb_refl. cbn.
      eexists; split; [reflexivity|]. rewrite bool_decide_eq_true_2 by done.
      by destruct (correct c).
    + rewrite list_lookup_alter_ne, Hbs, list_lookup_fmap, Hj by done. cbn.
      apply Nat.eqb_neq in Hjk as Hjk'. rewrite Hjk', eqb_show_bool. cbn.
      rewrite bool_decide_eq_false_2 by done.
      destruct (correct c); (eexists; split; [reflexivity|]); by cbn.
  - rewrite Hcl1, Hcl. destruct (correct ck).
    + rewrite contains_add. split; [done|].
      rewrite contains_add_ne, contains_remove_ne, contains_remove by done. done.
    + rewrite contains_add. split; [|done].
      rewrite contains_add_ne, contains_remove_ne, contains_remove_ne,
        contains_remove by done. done.
Qed.

(** *** A freshly rendered card *)

(** [X13] Whatever was on the page, a rendered card shows its front, carries
    no verdict and no flip, keeps its other classes, hides the advance
    control and labels it [Finish] on the last question only. *)
Theorem renderCard_fresh (c : QuizCard) (idx : nat) (st : State) :
  quiz_card pg = Some c →
  idx < 5 →
  ∃ st', renderCard pg rand idx st = Ok tt st' ∧
    answered st' = false ∧
    contains (quizCard_classList st') "flipped" = false ∧
    contains (quizCard_classList st') "correct" = false ∧
    contains (quizCard_classList st') "wrong" = false ∧
    (∀ cls, cls ≠ "flipped" → cls ≠ "correct" → cls ≠ "wrong" →
       contains (quizCard_classList st') cls = contains (quizCard_classList st) cls) ∧
    (nextContainer pg = true → nextContainer_display st' = "none") ∧
    (nextButton pg = true →
       nextButton_textContent st' = if bool_decide (idx = 4) then "Finish" else "Next").
Proof.
  intros Hc Hidx. destruct (quizData_lookup idx Hidx) as [q Hq].
  destruct (renderCard_spec pg rand c idx q st Hc Hq)
    as (sh & st' & Hren & _ & _ & _ & Hans & _ & _ & _ & Hcl & Hnc & Hnb & _).
  exists st'. split; [done|]. split; [done|]. rewrite Hcl, Hnc, Hnb.
  split; [apply contains_remove|].
  split; [by rewrite contains_remove_ne, contains_remove_ne, contains_remove|].
  split; [by rewrite contains_remove_ne, contains_remove|].
  split; [intros cls H1 H2 H3; by rewrite !contains_remove_ne|].
  split; [by intros ->|]. intros ->. rewrite quizData_length.
  do 5 (destruct idx as [|idx]; [done|]). lia.
Qed.

(** *** Flipping the card *)

(** [X14] A click on the card flips it when it shows its front and is not yet
    answered; a second click changes nothing more, nor does any click
    once the card is answered.  The session variables are not touched. *)
Theorem card_click_flips_once (c : QuizCard) (st : State) :
  quiz_card pg = Some c →
  ∃ st1 st2,
    onCardClick pg st = Ok tt st1 ∧
    onCardClick pg st1 = Ok tt st2 ∧
    (answered st = false → contains (quizCard_classList st1) "flipped" = true) ∧
    (answered st = true → quizCard_classList st1 = quizCard_classList st) ∧
    quizCard_classList st2 = quizCard_classList st1 ∧
    currentIndex st2 = currentIndex st ∧ score st2 = score st ∧
    answered st2 = answered st ∧ choice_buttons st2 = choice_buttons st.
Proof.
  intros Hc.
  assert (HqC : quizCard pg = true) by (unfold quizCard; by rewrite Hc).
  assert (Hclick : ∀ s, ∃ s',
    onCardClick pg s = Ok tt s' ∧
    quizCard_classList s' =
      (if negb (contains (quizCard_classList s) "flipped") && negb (answered s)
       then add "flipped" (quizCard_classList s) else quizCard_classList s) ∧
    currentIndex s' = currentIndex s ∧ score s' = score s ∧
    answered s' = answered s ∧ choice_buttons s' = choice_buttons s).
  { intros s. unfold onCardClick. rewrite HqC. unfold deref.
    rewrite bind_ret, !bind_gets.
    destruct (notificationEl pg) eqn:Hn; cbn [when].
    - destruct (negb (contains (quizCard_classList s) "flipped") && negb (answered s));
        rewrite ?bind_modify, ?bind_ret.
      all: match goal with
           | |- context [hideNotification pg ?x] =>
               destruct (hideNotification_core pg x) as (s' & Hh & Hcore)
           end.
      all: exists s'; split; [done|].
      all: repeat split;
        match goal with
        | |- ?f ?x = _ => change (f x) with (f (core x)); by rewrite Hcore
        end.
    - destruct (negb (contains (quizCard_classList s) "flipped") && negb (answered s));
        by eexists. }
  destruct (Hclick st) as (st1 & H1 & Hcl1 & Hi1 & Hs1 & Ha1 & Hb1).
  destruct (Hclick st1) as (st2 & H2 & Hcl2 & Hi2 & Hs2 & Ha2 & Hb2).
  exists st1, st2. split; [done|]. split; [done|].
  split; [|split; [|split]].
  - intros Ha. rewrite Hcl1, Ha.
    destruct (contains (quizCard_classList st) "flipped") eqn:E; [done|].
    apply contains_add.
  - intros Ha. rewrite Hcl1, Ha. by rewrite andb_false_r.
  - rewrite Hcl2, Ha1, Hcl1.
    destruct (contains (quizCard_classList st) "flipped") eqn:E,
      (answered st); cbn [negb andb]; rewrite ?E; try done.
    by rewrite contains_add.
  - repeat split; congruence.
Qed.

(** *** What each handler leaves of the session, whatever its outcome *)

Lemma renderCard_session idx st :
  idx < 5 →
  let st' := final (renderCard pg rand idx st) in
  currentIndex st' = currentIndex st ∧
  score st' = score st ∧
  answered st' = false ∧
  explanations st' = (if back pg then tail (explanations st) else explanations st) ∧
  confetti st' = confetti st.
Proof.
  intros Hidx. cbn zeta. destruct (quizData_lookup idx Hidx) as [q Hq].
  destruct (quiz_card pg) as [c|] eqn:Hc.
  - destruct (renderCard_spec pg rand c idx q st Hc Hq)
      as (sh & st' & Hren & _ & Hi & Hs & Ha & _ & He & _ & _ & _ & _ & _ & _
          & Hcf & _).
    rewrite Hren. by cbn [final].
  - unfold renderCard, front, backChoices, back, quizCard.
    rewrite Hc, Hq. cbn [when]. rewrite !bind_ret. unfold defined.
    rewrite bind_ret.
    destruct (sort_random_spec rand (choices q) st) as (sh & d & Hs & _).
    rewrite (bind_Ok _ _ _ _ _ Hs).
    assert (Hf : ∀ (l : list Choice) s',
      forEach l (λ choice, ret tt : Eff.M State unit) s' = Ok tt s')
      by (induction l; [done | intros; simpl; by rewrite bind_ret]).
    by rewrite (bind_Ok _ _ _ _ _ (Hf _ _)).
Qed.

Lemma onSelectChoice_session target st :
  let st' := final (onSelectChoice pg target st) in
  currentIndex st' = currentIndex st ∧
  confetti st' = confetti st ∧
  (answered st = true → st' = st) ∧
  (answered st = false →
     answered st' = true ∧
     score st ≤ score st' ≤ S (score st) ∧
     (explanations st' = explanations st ∨
      back pg = true ∧ ∃ m, explanations st' = explanations st ++ [m])).
Proof.
  cbn zeta. unfold onSelectChoice. rewrite bind_gets.
  destruct (answered st) eqn:Hans; [by repeat split|].
  rewrite bind_modify, bind_gets.
  split; [|split; [|split; [done|intros _]]].
  all: destruct (target ≫= _) as [btn|] eqn:Ht;
    unfold defined; [rewrite bind_ret|];
    [destruct (String.eqb (data_correct btn) "true"), (quizCard pg),
       (backChoices pg), (back pg), (nextContainer pg); cbn|cbn];
    repeat split; try done; try lia; eauto.
Qed.

Lemma goToNext_session st :
  let st' := final (goToNext pg rand st) in
  score st' = score st ∧
  currentIndex st' = S (currentIndex st) ∧
  (S (currentIndex st) < 5 →
     answered st' = false ∧ confetti st' = confetti st ∧
     explanations st' =
       (if back pg then tail (explanations st) else explanations st)) ∧
  (5 ≤ S (currentIndex st) →
     answered st' = answered st ∧ explanations st' = explanations st ∧
     confetti st' =
       (if (score st =? 5) && confettiContainer pg
        then QuizStates.piece_of rand (draws st) <$> seq 0 pieceCount
        else confetti st)).
Proof.
  cbn zeta. destruct (decide (S (currentIndex st) < 5)) as [Hlt|Hge].
  - rewrite (goToNext_render pg rand st Hlt).
    destruct (renderCard_session (S (currentIndex st))
                (set_currentIndex (S (currentIndex st)) st) Hlt)
      as (Hi & Hs & Ha & He & Hc).
    repeat split; try done; lia.
  - rewrite (goToNext_finish pg rand st) by lia. cbn [final].
    destruct (after_finish_fields pg rand st) as (Hi & Hs & Ha & _ & _ & _ & Hc).
    split; [done|]. split; [done|]. split; [lia|]. intros _.
    split; [done|]. split; [|done].
    unfold after_finish, finished.
    by destruct (score st =? 5), (confettiContainer pg), (scoreText pg),
      (scoreboard pg).
Qed.

Lemma start_session restart st :
  let st' := final (start pg rand restart st) in
  currentIndex st' = 0 ∧ score st' = 0 ∧ answered st' = false ∧
  explanations st' = (if back pg then tail (explanations st) else explanations st) ∧
  confetti st' = (if restart && confettiContainer pg then [] else confetti st).
Proof.
  cbn zeta. rewrite start_eq.
  destruct (renderCard_session 0 (QuizStates.start_state pg restart st) ltac:(lia))
    as (Hi & Hs & Ha & He & Hc).
  destruct (start_state_fields pg restart st) as (Hi0 & Hs0 & _ & _ & _ & Hc0).
  rewrite Hi, Hs, He, Hc, Hi0, Hs0, Hc0. repeat split; try done.
  unfold QuizStates.start_state.
  by destruct restart, (scoreboard pg), (confettiContainer pg).
Qed.

Lemma showNotification_core st :
  ∃ st', showNotification pg st = Ok tt st' ∧ core st' = core st.
Proof.
  unfold showNotification, positionNotification.
  destruct (notificationEl pg); [|by exists st]. cbn [negb].
  destruct (quiz_card pg), (quiz_container pg); by eexists.
Qed.

Lemma fireTimer_core id st :
  core (final (fireTimer pg id st)) = core st.
Proof.
  unfold fireTimer. rewrite bind_gets.
  destruct (list_find _ _) as [[i t]|]; [|done].
  unfold clearTimeout. rewrite bind_modify.
  destruct (t_action t).
  - match goal with
    | |- context [showNotification pg ?s] =>
        destruct (showNotification_core s) as (st' & -> & Hcore)
    end. cbn [final]. by rewrite Hcore.
  - unfold finishHide. destruct (notificationEl pg); [|done].
    unfold deref. rewrite bind_ret, bind_gets.
    by destruct (contains _ _).
Qed.

Lemma onCardClick_session st :
  let st' := final (onCardClick pg st) in
  currentIndex st' = currentIndex st ∧ score st' = score st ∧
  answered st' = answered st ∧ explanations st' = explanations st ∧
  confetti st' = confetti st.
Proof.
  cbn zeta. unfold onCardClick. destruct (quizCard pg); [|done].
  unfold deref. rewrite bind_ret, !bind_gets.
  destruct (notificationEl pg) eqn:Hn; cbn [when].
  - destruct (negb (contains (quizCard_classList st) "flipped") && negb (answered st));
      rewrite ?bind_modify, ?bind_ret.
    all: match goal with
         | |- context [hideNotification pg ?x] =>
             destruct (hideNotification_core pg x) as (s' & Hh & Hcore)
         end.
    all: rewrite Hh; cbn [final].
    all: repeat split;
      match goal with
      | |- ?f ?x = _ => change (f x) with (f (core x)); by rewrite Hcore
      end.
  - by destruct (negb (contains (quizCard_classList st) "flipped") && negb (answered st)).
Qed.

(** The five fields the bounds below speak of. *)
Lemma act_session a st :
  let st' := final (act pg rand a st) in
  match a with
  | CardClick | Timeout _ =>
      currentIndex st' = currentIndex st ∧ score st' = score st ∧
      answered st' = answered st ∧ explanations st' = explanations st ∧
      confetti st' = confetti st
  | _ => True
  end.
Proof.
  cbn zeta. destruct a; try done.
  - apply onCardClick_session.
  - cbn [act]. pose proof (fireTimer_core id st) as Hcore.
    repeat split;
      match goal with
      | |- ?f ?x = _ => change (f x) with (f (core x)); by rewrite Hcore
      end.
Qed.

(** *** Bounds kept through every sequence of handler calls *)

Lemma score_bounded_act a st :
  score_bounded st → score_bounded (final (act pg rand a st)).
Proof.
  unfold score_bounded. intros H. destruct a as [target| | | |id].
  - destruct (onSelectChoice_session target st) as (Hi & _ & Hsame & Hnew).
    cbn [act]. destruct (answered st) eqn:Ha.
    + by rewrite (Hsame eq_refl), Ha.
    + destruct (Hnew eq_refl) as (Ha' & [_ Hs] & _). rewrite Hi, Ha'. lia.
  - destruct (goToNext_session st) as (Hs & Hi & Hlt & Hge). cbn [act].
    rewrite Hs, Hi. destruct (decide (S (currentIndex st) < 5)) as [Hc|Hc].
    + destruct (Hlt Hc) as (-> & _). destruct (answered st); lia.
    + destruct (Hge ltac:(lia)) as (-> & _). destruct (answered st); lia.
  - destruct (start_session true st) as (Hi & Hs & Ha & _). cbn [act].
    change (restartQuiz pg rand) with (start pg rand true).
    rewrite Hi, Hs, Ha. simpl. lia.
  - destruct (act_session CardClick st) as (-> & -> & -> & _). done.
  - destruct (act_session (Timeout id) st) as (-> & -> & -> & _). done.
Qed.

Lemma explained_act a st :
  explained pg st → explained pg (final (act pg rand a st)).
Proof.
  unfold explained. intros H. destruct a as [target| | | |id].
  - destruct (onSelectChoice_session target st) as (_ & _ & Hsame & Hnew).
    cbn [act]. destruct (answered st) eqn:Ha.
    + by rewrite (Hsame eq_refl), Ha.
    + destruct H as [He|(_ & ? & _)]; [|done].
      destruct (Hnew eq_refl) as (Ha' & _ & [He'|(Hb & m & He')]).
      * left. congruence.
      * right. rewrite He', He. by repeat split.
  - destruct (goToNext_session st) as (_ & _ & Hlt & Hge). cbn [act].
    destruct (decide (S (currentIndex st) < 5)) as [Hc|Hc].
    + destruct (Hlt Hc) as (_ & _ & ->). left.
      destruct H as [->|(-> & _ & Hlen)]; [by destruct (back pg)|].
      by destruct (explanations st) as [|? [|? ?]].
    + destruct (Hge ltac:(lia)) as (-> & -> & _). done.
  - destruct (start_session true st) as (_ & _ & _ & He & _). cbn [act].
    change (restartQuiz pg rand) with (start pg rand true). rewrite He. left.
    destruct H as [->|(-> & _ & Hlen)]; [by destruct (back pg)|].
    by destruct (explanations st) as [|? [|? ?]].
  - destruct (act_session CardClick st) as (_ & _ & -> & -> & _). done.
  - destruct (act_session (Timeout id) st) as (_ & _ & -> & -> & _). done.
Qed.

Lemma confetti_bounded_act a st :
  confetti_bounded st → confetti_bounded (final (act pg rand a st)).
Proof.
  unfold confetti_bounded. intros H. destruct a as [target| | | |id].
  - cbn [act]. destruct (onSelectChoice_session target st) as (_ & -> & _). done.
  - destruct (goToNext_session st) as (_ & _ & Hlt & Hge). cbn [act].
    destruct (decide (S (currentIndex st) < 5)) as [Hc|Hc].
    + destruct (Hlt Hc) as (_ & -> & _). done.
    + destruct (Hge ltac:(lia)) as (_ & _ & ->).
      destruct (_ && _); [|done]. right. by rewrite length_fmap, length_seq.
  - destruct (start_session true st) as (_ & _ & _ & _ & Hc). cbn [act].
    change (restartQuiz pg rand) with (start pg rand true). rewrite Hc.
    destruct (_ && _); [by left | done].
  - destruct (act_session CardClick st) as (_ & _ & _ & _ & ->). done.
  - destruct (act_session (Timeout id) st) as (_ & _ & _ & _ & ->). done.
Qed.

Lemma perform_invariant (P : State → Prop) acts :
  (∀ a st, P st → P (final (act pg rand a st))) →
  ∀ st, P st → P (perform pg rand acts st).
Proof.
  intros Hstep. induction acts as [|a acts IH]; intros st H; [done|].
  apply (IH (final (act pg rand a st))). by apply Hstep.
Qed.

(** [X15] However the handlers are called after the start of a session (any
    targets, any order, on any page, handlers that throw included), the
    score never exceeds the number of questions. *)
Theorem score_never_exceeds_total (restart : bool) (st0 : State)
    (acts : list action) :
  score (perform pg rand acts (final (start pg rand restart st0))) ≤ length quizData.
Proof.
  assert (H : score_bounded (perform pg rand acts (final (start pg rand restart st0)))).
  { apply perform_invariant; [apply score_bounded_act|].
    destruct (start_session restart st0) as (Hi & Hs & Ha & _).
    unfold score_bounded. rewrite Hi, Hs, Ha. simpl. lia. }
  unfold score_bounded in H. rewrite quizData_length.
  destruct (answered _); lia.
Qed.

(** [X16] When the page starts without an explanation, the back face never
    holds more than one, whatever handlers are called. *)
Theorem one_explanation_at_most (restart : bool) (st0 : State)
    (acts : list action) :
  explanations st0 = [] →
  length (explanations (perform pg rand acts (final (start pg rand restart st0)))) ≤ 1.
Proof.
  intros H0.
  assert (H : explained pg (perform pg rand acts (final (start pg rand restart st0)))).
  { apply perform_invariant; [apply explained_act|].
    destruct (start_session restart st0) as (_ & _ & _ & He & _).
    left. rewrite He, H0. by destruct (back pg). }
  destruct H as [->|(_ & _ & ->)]; simpl; lia.
Qed.

(** [X17] When the confetti container starts empty it holds either nothing or
    exactly one launch of 40 particles, whatever handlers are called:
    finishing again replaces the particles and never adds to them. *)
Theorem confetti_never_accumulates (restart : bool) (st0 : State)
    (acts : list action) :
  confetti st0 = [] →
  let c := confetti (perform pg rand acts (final (start pg rand restart st0))) in
  c = [] ∨ length c = 40.
Proof.
  intros H0. cbn zeta.
  apply (perform_invariant confetti_bounded); [apply confetti_bounded_act|].
  destruct (start_session restart st0) as (_ & _ & _ & _ & Hc).
  left. rewrite Hc, H0. by destruct (_ && _).
Qed.

(** *** The timeouts of the notification *)

Lemma timers_ok_frame st st' :
  timers st' = timers st → timer_count st' = timer_count st →
  notif_timeout st' = notif_timeout st →
  timers_ok st → timers_ok st'.
Proof. unfold timers_ok. by intros -> -> ->. Qed.

Lemma show_timers_frame st st' :
  timers st' = timers st → show_timers st' = show_timers st.
Proof. unfold show_timers. by intros ->. Qed.

Lemma NoDup_fmap_filter {A B} (f : A → B) (P : A → Prop)
    `{∀ x, Decision (P x)} (l : list A) :
  NoDup (f <$> l) → NoDup (f <$> filter P l).
Proof.
  intros Hnd. eapply sublist_NoDup; [exact Hnd|].
  apply fmap_sublist, sublist_filter.
Qed.

Lemma filter_none {A} (P : A → Prop) `{∀ x, Decision (P x)} (l : list A) :
  Forall (λ x, ¬ P x) l → filter P l = [].
Proof.
  induction 1 as [|x l Hx _ IH]; [done|].
  by rewrite filter_cons, decide_False.
Qed.

Lemma Forall_filter_keep {A} (Q P : A → Prop) `{∀ x, Decision (P x)}
    (l : list A) :
  Forall Q l → Forall Q (filter P l).
Proof.
  induction 1 as [|x l Hx _ IH]; [done|].
  rewrite filter_cons. case_decide; [by constructor | done].
Qed.

Lemma timers_ok_clear id st :
  timers_ok st →
  timers_ok (set_timers (filter (λ t, t_id t ≠ id) (timers st)) st).
Proof.
  intros (Hid & Hnd & Hshow). unfold timers_ok. cbn.
  split; [by apply Forall_filter_keep|]. split; [by apply NoDup_fmap_filter|].
  by apply Forall_filter_keep.
Qed.

Lemma timers_ok_add a delay st :
  timers_ok st → a ≠ ShowNotification →
  timers_ok (final (setTimeout a delay st)).
Proof.
  intros (Hid & Hnd & Hshow) Ha. unfold timers_ok. cbn.
  split; [|split].
  - apply Forall_app. split; [|apply Forall_singleton; simpl; lia].
    eapply Forall_impl; [exact Hid|]. intros t Ht. simpl in Ht. lia.
  - rewrite fmap_app. apply NoDup_app. split; [done|]. split; [|apply NoDup_singleton].
    intros x Hx. simpl. rewrite list_elem_of_singleton. intros ->.
    apply list_elem_of_fmap in Hx as (t & Ht & Hin).
    rewrite Forall_forall in Hid. specialize (Hid _ Hin). simpl in Hid. lia.
  - apply Forall_app. split; [done|]. apply Forall_singleton. by simpl.
Qed.

Lemma hideNotification_timers st :
  timers_ok st →
  timers_ok (final (hideNotification pg st)) ∧
  show_timers (final (hideNotification pg st)) = show_timers st.
Proof.
  intros Hok. unfold hideNotification.
  destruct (negb (notificationEl pg)); [done|]. rewrite bind_gets.
  destruct (negb (contains _ _)); [done|].
  rewrite !bind_modify.
  match goal with
  | |- context [bind (setTimeout FinishHide 800) _ ?s] =>
      pose proof (timers_ok_add FinishHide 800 s) as Hadd;
      assert (Hok' : timers_ok s) by (by apply (timers_ok_frame st))
  end.
  split; [by apply Hadd|].
  unfold show_timers. cbn. rewrite filter_app, filter_cons, filter_nil.
  rewrite decide_False by done. by rewrite app_nil_r.
Qed.

Lemma armNotification_timers idx st :
  timers_ok st →
  timers_ok (final (armNotification pg idx st)) ∧
  (notificationEl pg = true → idx ≠ 0 →
     show_timers (final (armNotification pg idx st)) = []).
Proof.
  intros Hok. unfold armNotification.
  destruct (notificationEl pg) eqn:Hn; [|done]. cbn [when]. rewrite bind_gets.
  (* after the stored timeout is cleared no pending one shows the notification *)
  assert (Hcleared : ∃ s1,
    (match notif_timeout st with
     | Some (S _ as id) => clearTimeout id
     | _ => ret tt
     end) st = Ok tt s1 ∧ timers_ok s1 ∧ show_timers s1 = []).
  { pose proof Hok as Hok0. destruct Hok as (Hid & Hnd & Hshow).
    assert (Hnone : ∀ P : Timer → Prop, ∀ `{∀ t, Decision (P t)},
      (∀ t, t ∈ timers st → t_action t = ShowNotification → ¬ P t) →
      filter (λ t, t_action t = ShowNotification) (filter P (timers st)) = []).
    { intros P ? HP. apply filter_none. apply Forall_forall.
      intros t Ht Hs. apply list_elem_of_filter in Ht as [HPt Ht].
      by apply (HP t). }
    rewrite Forall_forall in Hid, Hshow.
    destruct (notif_timeout st) as [[|n]|] eqn:Ht.
    - exists st. split; [done|]. split; [exact Hok0|].
      unfold show_timers. apply filter_none, Forall_forall.
      intros t Hin Hs. specialize (Hshow _ Hin Hs). injection Hshow as Hz.
      specialize (Hid _ Hin). simpl in Hid. lia.
    - eexists. split; [reflexivity|].
      split; [by apply timers_ok_clear|].
      unfold show_timers. cbn. apply Hnone. intros t Hin Hs Hne.
      specialize (Hshow _ Hin Hs). congruence.
    - exists st. split; [done|]. split; [exact Hok0|].
      unfold show_timers. apply filter_none, Forall_forall.
      intros t Hin Hs. by specialize (Hshow _ Hin Hs). }
  destruct Hcleared as (s1 & Hc & Hok1 & Hno1).
  rewrite (bind_Ok _ _ _ _ _ Hc).
  destruct (idx =? 0) eqn:E.
  - split; [|intros _ Hne; by apply Nat.eqb_eq in E].
    destruct Hok1 as (Hid & Hnd & _). unfold timers_ok. cbn.
    split; [|split].
    + apply Forall_app. split; [|apply Forall_singleton; simpl; lia].
      eapply Forall_impl; [exact Hid|]. intros t Ht. simpl in Ht. lia.
    + rewrite fmap_app. apply NoDup_app. split; [done|].
      split; [|apply NoDup_singleton].
      intros x Hx. simpl. rewrite list_elem_of_singleton. intros ->.
      apply list_elem_of_fmap in Hx as (t & Ht & Hin).
      rewrite Forall_forall in Hid. specialize (Hid _ Hin). simpl in Hid. lia.
    + apply Forall_app. split; [|by apply Forall_singleton].
      apply Forall_forall. intros t Hin Hs. exfalso.
      assert (Hin' : t ∈ show_timers s1)
        by (unfold show_timers; by apply list_elem_of_filter).
      rewrite Hno1 in Hin'. by apply not_elem_of_nil in Hin'.
  - destruct (hideNotification_timers s1 Hok1) as [Hh Hs].
    split; [done|]. intros _ _. by rewrite Hs.
Qed.

Lemma renderCard_timers idx st :
  idx < 5 → timers_ok st →
  timers_ok (final (renderCard pg rand idx st)).
Proof.
  intros Hidx Hok. destruct (quizData_lookup idx Hidx) as [q Hq].
  destruct (quiz_card pg) as [c|] eqn:Hc.
  - destruct (renderCard_arm pg rand c idx q st Hc Hq) as (s & -> & Ht & Hn & Hto & _).
    apply armNotification_timers. by apply (timers_ok_frame st).
  - unfold renderCard, front, backChoices, back, quizCard.
    rewrite Hc, Hq. cbn [when]. rewrite !bind_ret. unfold defined.
    rewrite bind_ret.
    destruct (sort_random_spec rand (choices q) st) as (sh & d & Hs & _).
    rewrite (bind_Ok _ _ _ _ _ Hs).
    assert (Hf : ∀ (l : list Choice) s',
      forEach l (λ choice, ret tt : Eff.M State unit) s' = Ok tt s')
      by (induction l; [done | intros; simpl; by rewrite bind_ret]).
    rewrite (bind_Ok _ _ _ _ _ (Hf _ _)). cbn.
    by apply (timers_ok_frame st).
Qed.

Lemma timers_ok_act a st :
  timers_ok st → timers_ok (final (act pg rand a st)).
Proof.
  intros Hok. destruct a as [target| | | |id]; cbn [act].
  - apply (timers_ok_frame st); [..|done].
    all: unfold onSelectChoice; rewrite bind_gets;
      destruct (answered st); [done|]; rewrite bind_modify, bind_gets;
      destruct (target ≫= _) as [btn|]; unfold defined; [rewrite bind_ret|done];
      by destruct (String.eqb (data_correct btn) "true"), (quizCard pg),
        (backChoices pg), (back pg), (nextContainer pg).
  - destruct (decide (S (currentIndex st) < 5)) as [Hlt|Hge].
    + rewrite (goToNext_render pg rand st Hlt).
      apply renderCard_timers; [done|]. by apply (timers_ok_frame st).
    + rewrite (goToNext_finish pg rand st) by lia. cbn [final].
      apply (timers_ok_frame st); [..|done].
      all: unfold QuizStates.after_finish, QuizStates.finished;
        by destruct (score st =? 5), (confettiContainer pg), (scoreText pg),
          (scoreboard pg).
  - change (restartQuiz pg rand) with (start pg rand true). rewrite start_eq.
    apply renderCard_timers; [lia|]. apply (timers_ok_frame st); [..|done].
    all: unfold QuizStates.start_state;
      by destruct (scoreboard pg), (confettiContainer pg).
  - unfold onCardClick. destruct (quizCard pg); [|done].
    unfold deref. rewrite bind_ret, !bind_gets.
    destruct (notificationEl pg) eqn:Hn; cbn [when].
    + destruct (negb (contains (quizCard_classList st) "flipped") && negb (answered st));
        rewrite ?bind_modify, ?bind_ret;
        apply hideNotification_timers; by apply (timers_ok_frame st).
    + by destruct (negb (contains (quizCard_classList st) "flipped") && negb (answered st)).
  - unfold fireTimer. rewrite bind_gets.
    destruct (list_find _ _) as [[i t]|]; [|done].
    unfold clearTimeout. rewrite bind_modify.
    pose proof (timers_ok_clear id st Hok) as Hok'.
    destruct (t_action t).
    + match goal with
      | |- context [showNotification pg ?s] =>
          apply (timers_ok_frame s); [..|done]
      end.
      all: unfold showNotification, positionNotification;
        destruct (notificationEl pg); [|done]; cbn [negb];
        by destruct (quiz_card pg), (quiz_container pg).
    + match goal with
      | |- context [finishHide pg ?s] =>
          apply (timers_ok_frame s); [..|done]
      end.
      all: unfold finishHide; destruct (notificationEl pg); [|done];
        unfold deref; rewrite bind_ret, bind_gets; by destruct (contains _ _).
Qed.

Lemma show_timers_bound st :
  timers_ok st → length (show_timers st) ≤ 1.
Proof.
  intros (_ & Hnd & Hshow). unfold show_timers.
  assert (Hnd' : NoDup (t_id <$> filter (λ t, t_action t = ShowNotification) (timers st)))
    by by apply NoDup_fmap_filter.
  assert (Hall : Forall (λ t, notif_timeout st = Some (t_id t))
                   (filter (λ t, t_action t = ShowNotification) (timers st))).
  { apply Forall_forall. intros t Ht. apply list_elem_of_filter in Ht as [Hs Hin].
    rewrite Forall_forall in Hshow. by apply Hshow. }
  destruct (filter _ _) as [|t1 [|t2 l]]; [simpl; lia..|].
  exfalso. apply Forall_cons in Hall as [H1 Hall].
  apply Forall_cons in Hall as [H2 _].
  rewrite !fmap_cons in Hnd'. apply NoDup_cons in Hnd' as [Hnot _].
  apply Hnot. rewrite H1 in H2. injection H2 as ->. by left.
Qed.

(** [X18] Re-rendering the first card cancels the timeout of the previous
    render before it sets a new one, so however often the quiz is
    restarted and whatever else is clicked, at most one timeout that
    shows the notification is pending. *)
Theorem one_notification_timeout (restart : bool) (st0 : State)
    (acts : list action) :
  timers st0 = [] →
  length (show_timers (perform pg rand acts (final (start pg rand restart st0)))) ≤ 1.
Proof.
  intros H0. apply show_timers_bound.
  apply (perform_invariant timers_ok); [apply timers_ok_act|].
  rewrite start_eq. apply renderCard_timers; [lia|].
  assert (Hok0 : timers_ok st0).
  { unfold timers_ok. rewrite H0. repeat split; constructor. }
  apply (timers_ok_frame st0); [..|done].
  all: unfold QuizStates.start_state;
    by destruct restart, (scoreboard pg), (confettiContainer pg).
Qed.

(** [X19] Advancing to any later card leaves no pending timeout that would
    show the notification. *)
Theorem later_cards_cancel_notification (c : QuizCard) (idx : nat) (st : State) :
  quiz_card pg = Some c → notifications pg = true →
  0 < idx < 5 →
  timers_ok st →
  show_timers (final (renderCard pg rand idx st)) = [].
Proof.
  intros Hc Hn [H0 H5] Hok. destruct (quizData_lookup idx H5) as [q Hq].
  destruct (renderCard_arm pg rand c idx q st Hc Hq) as (s & -> & Ht & Hcnt & Hto & _).
  apply armNotification_timers; [by apply (timers_ok_frame st) | done | lia].
Qed.

(** *** Hiding the notification *)

Lemma showNotification_fields st :
  notifications pg = true →
  let st' := final (showNotification pg st) in
  notif_classList st' = add "show" (remove "hide" (notif_classList st)) ∧
  notif_display st' = notif_display st ∧
  timers st' = timers st ∧ timer_count st' = timer_count st.
Proof.
  intros Hn. unfold showNotification, positionNotification, notificationEl.
  rewrite Hn. cbn [negb].
  by destruct (quiz_card pg), (quiz_container pg).
Qed.

Lemma hideNotification_fields st :
  notifications pg = true →
  contains (notif_classList st) "show" = true →
  let st' := final (hideNotification pg st) in
  notif_classList st' = add "hide" (remove "show" (notif_classList st)) ∧
  notif_display st' = notif_display st ∧
  timers st' = timers st ++
    [{| t_id := S (timer_count st); t_delay := 800; t_action := FinishHide |}] ∧
  timer_count st' = S (timer_count st).
Proof.
  intros Hn Hshow. unfold hideNotification, notificationEl. rewrite Hn.
  cbn [negb]. rewrite bind_gets, Hshow. by cbn -[add remove].
Qed.

Lemma fireTimer_finishHide ts t st :
  notifications pg = true →
  timers st = ts ++ [t] →
  t_action t = FinishHide →
  Forall (λ t', t_id t' < t_id t) ts →
  let st' := final (fireTimer pg (t_id t) st) in
  notif_display st' =
    (if contains (notif_classList st) "hide" then "none" else notif_display st) ∧
  notif_classList st' = notif_classList st ∧
  timers st' = ts.
Proof.
  intros Hn Hts Ha Hlt. cbn zeta. unfold fireTimer. rewrite bind_gets, Hts.
  assert (Hfind : list_find (λ t', t_id t' = t_id t) (ts ++ [t]) =
                  Some (length ts, t)).
  { apply list_find_Some. split; [by rewrite lookup_app_r, Nat.sub_diag|].
    split; [done|]. intros j y Hj Hjl. rewrite lookup_app_l in Hj by done.
    rewrite Forall_lookup in Hlt. specialize (Hlt _ _ Hj). simpl in Hlt. lia. }
  rewrite Hfind, Ha. unfold clearTimeout. rewrite bind_modify.
  unfold finishHide, notificationEl, deref. rewrite Hn, bind_ret, bind_gets.
  assert (Hfilter : filter (λ t', t_id t' ≠ t_id t) (ts ++ [t]) = ts).
  { rewrite filter_app, filter_cons, filter_nil, decide_False, app_nil_r
      by (intros H; by apply H).
    clear Hts Hfind. induction Hlt as [|x l Hx _ IH]; [done|].
    rewrite filter_cons, decide_True by lia. by rewrite IH. }
  cbn [notif_classList set_timers]. rewrite Hts, Hfilter.
  by destruct (contains (notif_classList st) "hide").
Qed.

(** [X20] Hiding does nothing unless the notification is shown.  When it is,
    the class [show] gives way to [hide] and one 800 ms timeout is set;
    when that expires the element gets display [none] - unless the
    notification was shown again in between, in which case the timeout
    leaves the display alone. *)
Theorem hide_notification_cycle (st : State) :
  notifications pg = true →
  Forall (λ t, t_id t ≤ timer_count st) (timers st) →
  let id := S (timer_count st) in
  let st1 := final (hideNotification pg st) in
  let st2 := final (fireTimer pg id st1) in
  let st2' := final (fireTimer pg id (final (showNotification pg st1))) in
  (contains (notif_classList st) "show" = false → st1 = st) ∧
  (contains (notif_classList st) "show" = true →
     contains (notif_classList st1) "show" = false ∧
     contains (notif_classList st1) "hide" = true ∧
     notif_display st1 = notif_display st ∧
     notif_display st2 = "none" ∧
     timers st2 = timers st ∧
     notif_display st2' = notif_display st ∧
     contains (notif_classList st2') "show" = true).
Proof.
  intros Hn Hfresh. cbn zeta. split.
  - intros Hs. unfold hideNotification, notificationEl. rewrite Hn.
    cbn [negb]. by rewrite bind_gets, Hs.
  - intros Hs.
    destruct (hideNotification_fields st Hn Hs) as (Hcl1 & Hd1 & Ht1 & Hc1).
    assert (Hlt : Forall (λ t', t_id t' < S (timer_count st)) (timers st)).
    { eapply Forall_impl; [exact Hfresh|]. intros t Ht. simpl in Ht. lia. }
    assert (Hhide : contains (notif_classList (final (hideNotification pg st))) "hide" = true)
      by (rewrite Hcl1; apply contains_add).
    split; [by rewrite Hcl1, contains_add_ne, contains_remove|].
    split; [done|]. split; [done|].
    destruct (fireTimer_finishHide (timers st)
                {| t_id := S (timer_count st); t_delay := 800; t_action := FinishHide |}
                (final (hideNotification pg st)) Hn Ht1 eq_refl Hlt)
      as (Hd2 & _ & Ht2).
    cbn [t_id] in Hd2, Ht2. rewrite Hhide in Hd2.
    split; [done|]. split; [done|].
    destruct (showNotification_fields (final (hideNotification pg st)) Hn)
      as (Hcl' & Hd' & Ht' & _).
    rewrite Ht1 in Ht'.
    destruct (fireTimer_finishHide (timers st)
                {| t_id := S (timer_count st); t_delay := 800; t_action := FinishHide |}
                (final (showNotification pg (final (hideNotification pg st))))
                Hn Ht' eq_refl Hlt)
      as (Hd2' & Hcl2' & _).
    cbn [t_id] in Hd2', Hcl2'. rewrite Hcl' in Hd2', Hcl2'.
    rewrite contains_add_ne, contains_remove in Hd2' by done.
    split; [congruence|]. rewrite Hcl2'. apply contains_add.
Qed.

Lemma hideNotification_display st :
  notif_display (final (hideNotification pg st)) = notif_display st.
Proof.
  unfold hideNotification. destruct (negb (notificationEl pg)); [done|].
  rewrite bind_gets. by destruct (negb (contains _ _)).
Qed.

Lemma armNotification_display idx st :
  notif_display (final (armNotification pg idx st)) = notif_display st.
Proof.
  unfold armNotification. destruct (notificationEl pg); [|done]. cbn [when].
  rewrite bind_gets.
  destruct (idx =? 0).
  - by destruct (notif_timeout st) as [[|n]|].
  - destruct (notif_timeout st) as [[|n]|]; rewrite ?bind_ret.
    + apply hideNotification_display.
    + unfold clearTimeout. rewrite bind_modify.
      by rewrite hideNotification_display.
    + apply hideNotification_display.
Qed.

Lemma renderCard_display idx st :
  idx < 5 →
  notif_display (final (renderCard pg rand idx st)) = notif_display st.
Proof.
  intros Hidx. destruct (quizData_lookup idx Hidx) as [q Hq].
  destruct (quiz_card pg) as [c|] eqn:Hc.
  - destruct (renderCard_arm pg rand c idx q st Hc Hq) as (s & -> & _ & _ & _ & _ & Hd).
    by rewrite armNotification_display.
  - unfold renderCard, front, backChoices, back, quizCard.
    rewrite Hc, Hq. cbn [when]. rewrite !bind_ret. unfold defined.
    rewrite bind_ret.
    destruct (sort_random_spec rand (choices q) st) as (sh & d & Hs & _).
    rewrite (bind_Ok _ _ _ _ _ Hs).
    assert (Hf : ∀ (l : list Choice) s',
      forEach l (λ choice, ret tt : Eff.M State unit) s' = Ok tt s')
      by (induction l; [done | intros; simpl; by rewrite bind_ret]).
    by rewrite (bind_Ok _ _ _ _ _ (Hf _ _)).
Qed.

Lemma act_display a st :
  notif_display (final (act pg rand a st)) = notif_display st ∨
  notif_display (final (act pg rand a st)) = "none".
Proof.
  destruct a as [target| | | |id]; cbn [act].
  - left. unfold onSelectChoice. rewrite bind_gets.
    destruct (answered st); [done|]. rewrite bind_modify, bind_gets.
    destruct (target ≫= _) as [btn|]; unfold defined; [rewrite bind_ret|done].
    by destruct (String.eqb (data_correct btn) "true"), (quizCard pg),
      (backChoices pg), (back pg), (nextContainer pg).
  - left. destruct (decide (S (currentIndex st) < 5)) as [Hlt|Hge].
    + rewrite (goToNext_render pg rand st Hlt). by rewrite renderCard_display.
    + rewrite (goToNext_finish pg rand st) by lia. cbn [final].
      unfold QuizStates.after_finish, QuizStates.finished.
      by destruct (score st =? 5), (confettiContainer pg), (scoreText pg),
        (scoreboard pg).
  - left. change (restartQuiz pg rand) with (start pg rand true).
    rewrite start_eq, renderCard_display by lia.
    unfold QuizStates.start_state.
    by destruct (scoreboard pg), (confettiContainer pg).
  - left. unfold onCardClick. destruct (quizCard pg); [|done].
    unfold deref. rewrite bind_ret, !bind_gets.
    destruct (notificationEl pg) eqn:Hn; cbn [when].
    + destruct (negb (contains (quizCard_classList st) "flipped") && negb (answered st));
        rewrite ?bind_modify, ?bind_ret; by rewrite hideNotification_display.
    + by destruct (negb (contains (quizCard_classList st) "flipped") && negb (answered st)).
  - unfold fireTimer. rewrite bind_gets.
    destruct (list_find _ _) as [[i t]|]; [|by left].
    unfold clearTimeout. rewrite bind_modify.
    destruct (t_action t).
    + left. unfold showNotification, positionNotification.
      destruct (notificationEl pg); [|done]. cbn [negb].
      by destruct (quiz_card pg), (quiz_container pg).
    + unfold finishHide. destruct (notificationEl pg); [|by left].
      unfold deref. rewrite bind_ret, bind_gets.
      destruct (contains _ _); [by right | by left].
Qed.

(** [X21] The script sets the display of the notification to [none] and never
    sets it back: once the hide timeout has fired, no restart, render or
    timeout displays the element again, although [show] may be put on it. *)
Theorem notification_never_redisplayed (st : State) (acts : list action) :
  notif_display st = "none" →
  notif_display (perform pg rand acts st) = "none".
Proof.
  apply (perform_invariant (λ s, notif_display s = "none")).
  intros a s Hs. destruct (act_display a s) as [->| ->]; done.
Qed.

(** *** No handler throws on a complete card *)

(** [X22] With the card, its back face and the notification element on the
    page, every handler returns normally in every state; a selection
    needs a target among the controls unless the card is answered. *)
Theorem handlers_return (c : QuizCard) (b : BackFace) (a : action) (st : State) :
  quiz_card pg = Some c →
  back_face c = Some b →
  notifications pg = true →
  match a with
  | Select target =>
      answered st = true ∨
      ∃ k, target = Some k ∧ k < length (choice_buttons st)
  | _ => True
  end →
  returns (act pg rand a st) = true.
Proof.
  intros Hc Hb Hn Ha.
  assert (HqC : quizCard pg = true) by (unfold quizCard; by rewrite Hc).
  assert (Hback : back pg = true) by (unfold back; by rewrite Hc, Hb).
  assert (Hrender : ∀ idx s, idx < 5 → returns (renderCard pg rand idx s) = true).
  { intros idx s Hidx. destruct (quizData_lookup idx Hidx) as [q Hq].
    by destruct (renderCard_spec pg rand c idx q s Hc Hq) as (? & ? & -> & _). }
  destruct a as [target| | | |id]; cbn [act].
  - unfold onSelectChoice. rewrite bind_gets.
    destruct (answered st) eqn:Hans; [done|].
    destruct Ha as [?|(k & -> & Hk)]; [done|].
    destruct (lookup_lt_is_Some_2 _ _ Hk) as [btn Hbtn].
    rewrite bind_modify, bind_gets. simpl. rewrite Hbtn.
    unfold defined. rewrite bind_ret, HqC, Hback.
    by destruct (String.eqb (data_correct btn) "true"), (backChoices pg),
      (nextContainer pg).
  - destruct (decide (S (currentIndex st) < 5)) as [Hlt|Hge].
    + rewrite (goToNext_render pg rand st Hlt). by apply Hrender.
    + by rewrite (goToNext_finish pg rand st) by lia.
  - change (restartQuiz pg rand) with (start pg rand true).
    rewrite start_eq. apply Hrender. lia.
  - unfold onCardClick. rewrite HqC. unfold deref.
    rewrite bind_ret, !bind_gets. unfold notificationEl. rewrite Hn. cbn [when].
    destruct (negb (contains (quizCard_classList st) "flipped") && negb (answered st));
      rewrite ?bind_modify, ?bind_ret;
      match goal with
      | |- context [hideNotification pg ?x] =>
          by destruct (hideNotification_core pg x) as (s' & -> & _)
      end.
  - unfold fireTimer. rewrite bind_gets.
    destruct (list_find _ _) as [[i t]|]; [|done].
    unfold clearTimeout. rewrite bind_modify.
    destruct (t_action t).
    + match goal with
      | |- context [showNotification pg ?s] =>
          by destruct (showNotification_core s) as (st' & -> & _)
      end.
    + unfold finishHide, notificationEl. rewrite Hn. unfold deref.
      rewrite bind_ret, bind_gets. by destruct (contains _ _).
Qed.

End WithPage.

End QuizMore.

(** ** The further theorems at sample inputs *)

Module MoreWitnesses.
Import Js Eff Samples MoreSamples.

Lemma lock_ready_is_ready : LockScreenRounds.ready lock_ready.
Proof.
  split; [reflexivity|]. split; [by split|]. split; [reflexivity|].
  split; apply Forall_singleton; [discriminate | cbn; lia].
Qed.

Lemma init_wires_witness :
  (returns (LockScreen.init lock_page_without_prompt lock_blank) = false ∧
   LockScreen.lock_wired
     (final (LockScreen.init lock_page_without_prompt lock_blank)) = false ∧
   LockScreen.ignore_wired
     (final (LockScreen.init lock_page_without_prompt lock_blank)) = false ∧
   LockScreen.pending
     (final (LockScreen.init lock_page_without_prompt lock_blank)) = []) ∧
  (returns (LockScreen.init lock_page lock_blank) = true ∧
   LockScreen.lock_wired lock_ready = true ∧
   LockScreen.ignore_wired lock_ready = true ∧
   LockScreen.pending lock_ready = [(0, LockScreen.TypedComplete)]).
Proof.
  split.
  - destruct (LockScreenMore.init_wires lock_page_without_prompt lock_blank)
      as (Hr & Hp & Hl & Hi & _).
    split; [exact Hr|]. split; [exact Hl|]. split; [exact Hi | exact Hp].
  - destruct (LockScreenMore.init_wires lock_page lock_blank)
      as (Hr & Hp & Hl & Hi & _).
    split; [exact Hr|]. split; [exact Hl|]. split; [exact Hi | exact Hp].
Defined.

Lemma lock_toggle_sequence_witness :
  LockScreen.lockToggle_checked
    (LockScreen.step lock_page (LockScreen.Fire 2)
       (LockScreen.step lock_page (LockScreen.Fire 1)
          (LockScreen.step lock_page LockScreen.ClickLock lock_ready))) = true.
Proof.
  destruct (LockScreenMore.lock_toggle_sequence lock_page lock_ready)
    as (_ & _ & _ & _ & H & _);
    [reflexivity | reflexivity | reflexivity | reflexivity | reflexivity
    | apply lock_ready_is_ready | exact H].
Defined.

Lemma locked_is_terminal_witness :
  LockScreen.ignoreBtn_disabled
    (LockScreen.run lock_page
       [LockScreen.ClickLock; LockScreen.ClickIgnore; LockScreen.ClickRetry;
        LockScreen.Fire 0; LockScreen.Fire 1; LockScreen.ClickLock]
       lock_ready) = true.
Proof.
  apply (LockScreenMore.locked_is_terminal lock_page lock_ready
           [LockScreen.ClickIgnore; LockScreen.ClickRetry;
            LockScreen.Fire 0; LockScreen.Fire 1; LockScreen.ClickLock]);
    [reflexivity | reflexivity | reflexivity | apply lock_ready_is_ready].
Defined.

Lemma second_click_ignored_witness :
  LockScreen.step lock_page LockScreen.ClickLock
    (LockScreen.step lock_page LockScreen.ClickIgnore lock_ready) =
  LockScreen.step lock_page LockScreen.ClickIgnore lock_ready.
Proof.
  apply (LockScreenMore.second_click_ignored lock_page false true lock_ready);
    [reflexivity | reflexivity | reflexivity | reflexivity | by split].
Defined.

Lemma lock_ready_without_retry :
  LockScreenRounds.ready
    (final (LockScreen.init lock_page_without_retry lock_blank)).
Proof.
  split; [reflexivity|]. split; [by split|]. split; [reflexivity|].
  split; apply Forall_singleton; [discriminate | cbn; lia].
Qed.

Lemma no_retry_control_dead_end_witness :
  LockScreen.lockBtn_disabled
    (LockScreen.run lock_page_without_retry
       [LockScreen.ClickIgnore; LockScreen.ClickRetry; LockScreen.Fire 1]
       (final (LockScreen.init lock_page_without_retry lock_blank))) = true.
Proof.
  apply (LockScreenMore.no_retry_control_dead_end lock_page_without_retry
           (final (LockScreen.init lock_page_without_retry lock_blank))
           [LockScreen.ClickRetry; LockScreen.Fire 1]);
    [reflexivity | reflexivity | reflexivity | apply lock_ready_without_retry].
Defined.

Lemma shake_comes_and_goes_witness :
  LockScreen.shake_classList
    (LockScreen.step lock_page (LockScreen.Fire 1)
       (LockScreen.step lock_page LockScreen.ClickIgnore lock_ready)) = [].
Proof.
  apply (LockScreenMore.shake_comes_and_goes lock_page lock_ready);
    [reflexivity | reflexivity | reflexivity | reflexivity | reflexivity
    | apply lock_ready_is_ready | apply not_elem_of_nil].
Defined.

Lemma retry_rounds_ready_witness :
  LockScreen.next_closure (LockScreenRounds.retry_rounds lock_page 3 lock_ready) = 3.
Proof.
  apply (LockScreenMore.retry_rounds_ready lock_page 3 lock_ready);
    [reflexivity | reflexivity | reflexivity | reflexivity
    | apply lock_ready_is_ready].
Defined.

Lemma select_reveals_answer_witness :
  ∃ st st1,
    Quiz.renderCard quiz_page cycling 1 quiz_blank = Ok tt st ∧
    Quiz.onSelectChoice quiz_page (Some 2) st = Ok tt st1 ∧
    length (Quiz.choice_buttons st1) = 3.
Proof.
  destruct (QuizMore.select_reveals_answer quiz_page cycling 1 2 quiz_blank)
    as (q & sh & ch & st & st1 & _ & _ & _ & Hren & Hsel & Hlen & _);
    [reflexivity | lia | lia |].
  exists st, st1. repeat split; assumption.
Defined.

Lemma renderCard_fresh_witness :
  ∃ st', Quiz.renderCard quiz_page cycling 4 quiz_notified = Ok tt st' ∧
         Quiz.answered st' = false ∧
         contains (Quiz.quizCard_classList st') "flipped" = false.
Proof.
  destruct (QuizMore.renderCard_fresh quiz_page cycling quiz_card_el 4 quiz_notified)
    as (st' & Hren & Ha & Hf & _); [reflexivity | lia |].
  exists st'. repeat split; assumption.
Defined.

Lemma card_click_flips_once_witness :
  ∃ st1 st2,
    Quiz.onCardClick quiz_page quiz_blank = Ok tt st1 ∧
    Quiz.onCardClick quiz_page st1 = Ok tt st2 ∧
    Quiz.quizCard_classList st2 = Quiz.quizCard_classList st1.
Proof.
  destruct (QuizMore.card_click_flips_once quiz_page quiz_card_el quiz_blank)
    as (st1 & st2 & H1 & H2 & _ & _ & H3 & _); [reflexivity|].
  exists st1, st2. repeat split; assumption.
Defined.

Lemma one_explanation_at_most_witness :
  length (Quiz.explanations
            (QuizEvents.perform quiz_page cycling clicks
               (final (Quiz.start quiz_page cycling false quiz_blank)))) ≤ 1.
Proof.
  apply (QuizMore.one_explanation_at_most quiz_page cycling false quiz_blank clicks).
  reflexivity.
Defined.

Lemma confetti_never_accumulates_witness :
  let c := Quiz.confetti
             (QuizEvents.perform quiz_page cycling clicks
                (final (Quiz.start quiz_page cycling true quiz_blank))) in
  c = [] ∨ length c = 40.
Proof.
  apply (QuizMore.confetti_never_accumulates quiz_page cycling true quiz_blank clicks).
  reflexivity.
Defined.

Lemma one_notification_timeout_witness :
  length (QuizEvents.show_timers
            (QuizEvents.perform quiz_page cycling clicks
               (final (Quiz.start quiz_page cycling true quiz_blank)))) ≤ 1.
Proof.
  apply (QuizMore.one_notification_timeout quiz_page cycling true quiz_blank clicks).
  reflexivity.
Defined.

Lemma later_cards_cancel_notification_witness :
  QuizEvents.show_timers
    (final (Quiz.renderCard quiz_page cycling 3 quiz_blank)) = [].
Proof.
  apply (QuizMore.later_cards_cancel_notification quiz_page cycling
           quiz_card_el 3 quiz_blank);
    [reflexivity | reflexivity | lia |].
  repeat split; constructor.
Defined.

Lemma hide_notification_cycle_witness :
  Quiz.notif_display
    (final (Quiz.fireTimer quiz_page 1
              (final (Quiz.hideNotification quiz_page quiz_notified)))) = "none".
Proof.
  destruct (QuizMore.hide_notification_cycle quiz_page quiz_notified)
    as (_ & H); [reflexivity | constructor |].
  destruct (H eq_refl) as (_ & _ & _ & Hd & _). exact Hd.
Defined.

Lemma notification_never_redisplayed_witness :
  Quiz.notif_display
    (QuizEvents.perform quiz_page cycling clicks quiz_dismissed) = "none".
Proof.
  apply (QuizMore.notification_never_redisplayed quiz_page cycling
           quiz_dismissed clicks).
  reflexivity.
Defined.

Lemma handlers_return_witness :
  returns (QuizEvents.act quiz_page cycling QuizEvents.Next quiz_blank) = true.
Proof.
  apply (QuizMore.handlers_return quiz_page cycling quiz_card_el
           {| Quiz.choice_container := true |} QuizEvents.Next quiz_blank);
    [reflexivity | reflexivity | reflexivity | exact I].
Defined.

End MoreWitnesses.
